(** * linenoise: the editing state machine, the render arithmetic and the
      history store of [linenoise.c], embedded in Rocq.

    The C code is embedded shallowly.  An array is a list, an index is a
    [Z], and every access is bounds-checked: a read or a write outside the
    array is reported as [OutOfBounds i] instead of being given a meaning.
    [size_t] values are kept in [Z] and reduced modulo [2^64] where the C
    code subtracts or adds them.  Loops are written with a fuel argument
    that the callers set from the loop's variant; running out of it is
    reported as [OutOfFuel].

    Rendering ([refreshLine]) only writes to the terminal and updates
    [maxrows] and [oldcolpos], which no editing operation reads: the
    editing operations below leave it out, and the arithmetic of the two
    refresh functions is embedded on its own further down. *)

From Stdlib Require Import ZArith Lia Ascii String Bool DecimalString.
From Stdlib Require HexadecimalString.
From stdpp Require Import base tactics option list.

Local Open Scope Z_scope.

(** ** Machine integers *)

Definition size_t (z : Z) : Z := z mod 2 ^ 64.

(** [(int)z]: two's complement on 32 bits. *)
Definition int (z : Z) : Z := (z + 2 ^ 31) mod 2 ^ 32 - 2 ^ 31.

(** ** Results of operations that touch memory *)

Inductive result (A : Type) : Type :=
| Ok (a : A)
| OutOfBounds (i : Z)
| OutOfFuel.

Arguments Ok {A} a.
Arguments OutOfBounds {A} i.
Arguments OutOfFuel {A}.

Global Instance result_ret : MRet result := fun A a => Ok a.

Global Instance result_bind : MBind result := fun A B k r =>
  match r with
  | Ok a => k a
  | OutOfBounds i => OutOfBounds i
  | OutOfFuel => OutOfFuel
  end.

(** ** Characters and arrays

    An array of characters is a [list ascii]; the history is an array of
    pointers.  [OutOfBounds i] reports an access at index [i] that does
    not fall inside the array (or goes through a pointer that holds no
    object). *)

Definition NUL : ascii := Ascii.zero.
Definition SPACE : ascii := " "%char.

Definition size {A : Type} (b : list A) : Z := Z.of_nat (length b).

(** [b[i]] *)
Definition load {A : Type} (b : list A) (i : Z) : result A :=
  if (0 <=? i) && (i <? size b)
  then match b !! Z.to_nat i with Some c => Ok c | None => OutOfBounds i end
  else OutOfBounds i.

(** [b[i] = c] *)
Definition store {A : Type} (b : list A) (i : Z) (c : A) : result (list A) :=
  if (0 <=? i) && (i <? size b)
  then Ok (<[Z.to_nat i := c]> b)
  else OutOfBounds i.

(** [memmove(b+dst, b+src, n)]: both ranges lie in the one array [b]. *)
Definition memmove {A : Type} (b : list A) (dst src n : Z) : result (list A) :=
  if negb ((0 <=? n) && (0 <=? src) && (src + n <=? size b))
  then OutOfBounds (src + n - 1)
  else if negb ((0 <=? dst) && (dst + n <=? size b))
  then OutOfBounds (dst + n - 1)
  else Ok (take (Z.to_nat dst) b
           ++ take (Z.to_nat n) (drop (Z.to_nat src) b)
           ++ drop (Z.to_nat (dst + n)) b).

(** [memcpy(b+dst, src, n)]: [src] is another array. *)
Definition memcpy {A : Type} (b : list A) (dst : Z) (src : list A) (n : Z)
  : result (list A) :=
  if negb ((0 <=? n) && (n <=? size src))
  then OutOfBounds (n - 1)
  else if negb ((0 <=? dst) && (dst + n <=? size b))
  then OutOfBounds (dst + n - 1)
  else Ok (take (Z.to_nat dst) b
           ++ take (Z.to_nat n) src
           ++ drop (Z.to_nat (dst + n)) b).

(** [strlen(b)]: scans for the terminator, which must lie inside [b]. *)
Fixpoint strlen_from (b : list ascii) (i : Z) : result Z :=
  match b with
  | [] => OutOfBounds i
  | c :: b' => if Ascii.eqb c NUL then Ok i else strlen_from b' (i + 1)
  end.

Definition strlen (b : list ascii) : result Z := strlen_from b 0.

(** [strdup(b)]: the bytes before the terminator. *)
Definition strdup (b : list ascii) : result string :=
  n ← strlen b;
  Ok (string_of_list_ascii (take (Z.to_nat n) b)).

(** [strncpy(b, s, n)]: the bytes of [s], then zeros, exactly [n] bytes
    in all. *)
Definition strncpy (b : list ascii) (s : string) (n : Z) : result (list ascii) :=
  if negb ((0 <=? n) && (n <=? size b))
  then OutOfBounds (n - 1)
  else Ok (take (Z.to_nat n) (list_ascii_of_string s ++ replicate (Z.to_nat n) NUL)
           ++ drop (Z.to_nat n) b).

(** ** Encoding functions

    [prevCharLen] and [nextCharLen] are function pointers that
    [linenoiseSetEncodingFunctions] replaces as a unit.  Each returns the
    byte length of a character and, through [col_len], its width in
    columns. *)

Record encoding : Type := {
  prevCharLen : list ascii -> Z -> Z -> Z * Z;
  nextCharLen : list ascii -> Z -> Z -> Z * Z
}.

Definition defaultPrevCharLen (b : list ascii) (buf_len p : Z) : Z * Z := (1, 1).
Definition defaultNextCharLen (b : list ascii) (buf_len p : Z) : Z * Z := (1, 1).

Definition defaultEncoding : encoding :=
  {| prevCharLen := defaultPrevCharLen; nextCharLen := defaultNextCharLen |}.

(** ** The editing state *)

Record linenoiseState : Type := mkState {
  buf : list ascii;      (* the array behind [char *buf] *)
  buflen : Z;            (* edited line buffer size *)
  pos : Z;               (* current cursor position *)
  len : Z;               (* current edited line length *)
  history_index : Z      (* the history index we are currently editing *)
}.

Definition set_buf (b : list ascii) (l : linenoiseState) : linenoiseState :=
  mkState b (buflen l) (pos l) (len l) (history_index l).
Definition set_pos (p : Z) (l : linenoiseState) : linenoiseState :=
  mkState (buf l) (buflen l) p (len l) (history_index l).
Definition set_len (n : Z) (l : linenoiseState) : linenoiseState :=
  mkState (buf l) (buflen l) (pos l) n (history_index l).
Definition set_history_index (i : Z) (l : linenoiseState) : linenoiseState :=
  mkState (buf l) (buflen l) (pos l) (len l) i.

(** ** Editing operations *)

Definition is_space (c : ascii) : bool := Ascii.eqb c SPACE.

(** [while (p < n && (b[p] == ' ') == sp) ++p;] *)
Fixpoint scan_right (sp : bool) (fuel : nat) (b : list ascii) (n p : Z) : result Z :=
  match fuel with
  | O => OutOfFuel
  | S fuel' =>
      if p <? n then
        c ← load b p;
        if Bool.eqb (is_space c) sp
        then scan_right sp fuel' b n (size_t (p + 1))
        else Ok p
      else Ok p
  end.

(** [while (p > 0 && (b[p-1] == ' ') == sp) p--;] *)
Fixpoint scan_left (sp : bool) (fuel : nat) (b : list ascii) (p : Z) : result Z :=
  match fuel with
  | O => OutOfFuel
  | S fuel' =>
      if 0 <? p then
        c ← load b (size_t (p - 1));
        if Bool.eqb (is_space c) sp
        then scan_left sp fuel' b (size_t (p - 1))
        else Ok p
      else Ok p
  end.

(** [while (p > 0 && b[p] == ' ') --p;] *)
Fixpoint scan_left_at (fuel : nat) (b : list ascii) (p : Z) : result Z :=
  match fuel with
  | O => OutOfFuel
  | S fuel' =>
      if 0 <? p then
        c ← load b p;
        if is_space c
        then scan_left_at fuel' b (size_t (p - 1))
        else Ok p
      else Ok p
  end.

Definition fuel_of (z : Z) : nat := S (Z.to_nat z).

Section Editing.

Context (enc : encoding).

(** [wfail]: the write of the trivial case (append at the end of the
    line, no redraw) returned -1. *)
Definition linenoiseEditInsert (wfail : bool) (l : linenoiseState)
    (cbuf : list ascii) (clen : Z) : result (linenoiseState * Z) :=
  if size_t (len l + clen) <=? buflen l then
    if len l =? pos l then
      b ← memcpy (buf l) (pos l) cbuf (size_t clen);
      let l := set_buf b l in
      let l := set_pos (size_t (pos l + clen)) l in
      let l := set_len (size_t (len l + clen)) l in
      b ← store (buf l) (len l) NUL;
      let l := set_buf b l in
      if wfail then Ok (l, -1) else Ok (l, 0)
    else
      b ← memmove (buf l) (pos l + clen) (pos l) (size_t (len l - pos l));
      b ← memcpy b (pos l) cbuf (size_t clen);
      let l := set_buf b l in
      let l := set_pos (size_t (pos l + clen)) l in
      let l := set_len (size_t (len l + clen)) l in
      b ← store (buf l) (len l) NUL;
      Ok (set_buf b l, 0)
  else Ok (l, 0).

Definition linenoiseEditMoveLeft (l : linenoiseState) : linenoiseState :=
  if 0 <? pos l
  then set_pos (size_t (pos l - fst (prevCharLen enc (buf l) (len l) (pos l)))) l
  else l.

Definition linenoiseEditMoveRight (l : linenoiseState) : linenoiseState :=
  if negb (pos l =? len l)
  then set_pos (size_t (pos l + fst (nextCharLen enc (buf l) (len l) (pos l)))) l
  else l.

Definition linenoiseEditMoveWordEnd (l : linenoiseState) : result linenoiseState :=
  if (len l =? 0) || (len l <=? pos l) then Ok l
  else
    c ← load (buf l) (pos l);
    p ← (if is_space c
         then scan_right true (fuel_of (len l - pos l)) (buf l) (len l) (pos l)
         else Ok (pos l));
    p ← scan_right false (fuel_of (len l - p)) (buf l) (len l) p;
    Ok (set_pos p l).

Definition linenoiseEditMoveWordStart (l : linenoiseState) : result linenoiseState :=
  if len l =? 0 then Ok l
  else
    c ← load (buf l) (size_t (pos l - 1));
    let p := if is_space c then size_t (pos l - 1) else pos l in
    c ← load (buf l) p;
    p ← (if is_space c then scan_left_at (fuel_of p) (buf l) p else Ok p);
    p ← scan_left false (fuel_of p) (buf l) p;
    Ok (set_pos p l).

Definition linenoiseEditMoveHome (l : linenoiseState) : linenoiseState :=
  if negb (pos l =? 0) then set_pos 0 l else l.

Definition linenoiseEditMoveEnd (l : linenoiseState) : linenoiseState :=
  if negb (pos l =? len l) then set_pos (len l) l else l.

Definition linenoiseEditDelete (l : linenoiseState) : result linenoiseState :=
  if (0 <? len l) && (pos l <? len l) then
    let chlen := int (fst (nextCharLen enc (buf l) (len l) (pos l))) in
    b ← memmove (buf l) (pos l) (pos l + chlen) (size_t (len l - pos l - chlen));
    let l := set_len (size_t (len l - chlen)) l in
    b ← store b (len l) NUL;
    Ok (set_buf b l)
  else Ok l.

Definition linenoiseEditBackspace (l : linenoiseState) : result linenoiseState :=
  if (0 <? pos l) && (0 <? len l) then
    let chlen := int (fst (prevCharLen enc (buf l) (len l) (pos l))) in
    b ← memmove (buf l) (pos l - chlen) (pos l) (size_t (len l - pos l));
    let l := set_pos (size_t (pos l - chlen)) l in
    let l := set_len (size_t (len l - chlen)) l in
    b ← store b (len l) NUL;
    Ok (set_buf b l)
  else Ok l.

Definition linenoiseEditDeletePrevWord (l : linenoiseState) : result linenoiseState :=
  let old_pos := pos l in
  p ← scan_left true (fuel_of (pos l)) (buf l) (pos l);
  p ← scan_left false (fuel_of p) (buf l) p;
  let diff := size_t (old_pos - p) in
  b ← memmove (buf l) p old_pos (size_t (len l - old_pos + 1));
  Ok (set_len (size_t (len l - diff)) (set_pos p (set_buf b l))).

Definition linenoiseEditDeleteNextWord (l : linenoiseState) : result linenoiseState :=
  let next_word_end := pos l in
  next_word_end ← scan_right true (fuel_of (len l - next_word_end)) (buf l) (len l) next_word_end;
  next_word_end ← scan_right false (fuel_of (len l - next_word_end)) (buf l) (len l) next_word_end;
  b ← memmove (buf l) (pos l) next_word_end (size_t (len l - next_word_end));
  Ok (set_len (size_t (len l - size_t (next_word_end - pos l))) (set_buf b l)).

(** The cases of [linenoiseEdit]'s switch that edit the buffer in place. *)

(** [case CTRL_T]: swaps current character with previous. *)
Definition ctrl_T (l : linenoiseState) : result linenoiseState :=
  if (0 <? pos l) && (pos l <? len l) then
    aux ← load (buf l) (pos l - 1);
    c ← load (buf l) (pos l);
    b ← store (buf l) (pos l - 1) c;
    b ← store b (pos l) aux;
    let l := set_buf b l in
    Ok (if negb (pos l =? size_t (len l - 1)) then set_pos (size_t (pos l + 1)) l else l)
  else Ok l.

(** [case CTRL_U]: delete the whole line. *)
Definition ctrl_U (l : linenoiseState) : result linenoiseState :=
  b ← store (buf l) 0 NUL;
  Ok (set_len 0 (set_pos 0 (set_buf b l))).

(** [case CTRL_K]: delete from current to end of line. *)
Definition ctrl_K (l : linenoiseState) : result linenoiseState :=
  b ← store (buf l) (pos l) NUL;
  Ok (set_len (pos l) (set_buf b l)).

End Editing.

(** ** The history store

    [history] is NULL or an array of [history_max_len] pointers; a slot
    holds a string or no object (NULL after [memset], or freed).
    Allocation ([malloc], [strdup]) is taken to succeed. *)

Definition LINENOISE_DEFAULT_HISTORY_MAX_LEN : Z := 100.
Definition LINENOISE_MAX_LINE : Z := 4096.

Record historyState : Type := mkHistory {
  history_max_len : Z;
  history_len : Z;
  history : option (list (option string))
}.

Definition history_init : historyState :=
  mkHistory LINENOISE_DEFAULT_HISTORY_MAX_LEN 0 None.

Definition set_history (a : list (option string)) (h : historyState) : historyState :=
  mkHistory (history_max_len h) (history_len h) (Some a).
Definition set_history_len (n : Z) (h : historyState) : historyState :=
  mkHistory (history_max_len h) n (history h).
Definition set_history_max_len (n : Z) (h : historyState) : historyState :=
  mkHistory n (history_len h) (history h).

(** [history[i]], as a string that is read. *)
Definition history_at (h : historyState) (i : Z) : result string :=
  match history h with
  | None => OutOfBounds i
  | Some a =>
      s ← load a i;
      match s with Some s => Ok s | None => OutOfBounds i end
  end.

Definition linenoiseHistoryAdd (line : string) (h : historyState)
  : result (historyState * Z) :=
  if history_max_len h =? 0 then Ok (h, 0)
  else
    (* Initialization on first call. *)
    let a := match history h with
             | None => replicate (Z.to_nat (history_max_len h)) None
             | Some a => a
             end in
    let h := set_history a h in
    (* Don't add duplicated lines. *)
    dup ← (if negb (history_len h =? 0)
           then s ← history_at h (history_len h - 1); Ok (String.eqb s line)
           else Ok false);
    if dup : bool then Ok (h, 0)
    else
      let linecopy := Some line in
      h ← (if history_len h =? history_max_len h
           then a ← memmove a 0 1 (history_max_len h - 1);
                Ok (set_history_len (history_len h - 1) (set_history a h))
           else Ok h);
      a ← store (default [] (history h)) (history_len h) linecopy;
      Ok (set_history_len (history_len h + 1) (set_history a h), 1).

Definition linenoiseHistorySetMaxLen (n : Z) (h : historyState)
  : result (historyState * Z) :=
  if n <? 1 then Ok (h, 0)
  else
    h ← match history h with
        | Some a =>
            let tocopy := history_len h in
            let new := replicate (Z.to_nat n) None in
            (* If we can't copy everything, free the elements we'll not use. *)
            let tocopy := if n <? tocopy then n else tocopy in
            new ← memcpy new 0 (drop (Z.to_nat (history_len h - tocopy)) a) tocopy;
            Ok (set_history new h)
        | None => Ok h
        end;
    let h := set_history_max_len n h in
    let h := if history_max_len h <? history_len h
             then set_history_len (history_max_len h) h else h in
    Ok (h, 1).

(** ** History navigation *)

Definition LINENOISE_HISTORY_NEXT : Z := 0.
Definition LINENOISE_HISTORY_PREV : Z := 1.

Definition linenoiseEditHistoryNext (l : linenoiseState) (h : historyState) (dir : Z)
  : result (linenoiseState * historyState) :=
  if 1 <? history_len h then
    (* Update the current history entry before to overwrite it with the
       next one. *)
    s ← strdup (buf l);
    a ← store (default [] (history h)) (history_len h - 1 - history_index l) (Some s);
    let h := set_history a h in
    (* Show the new entry *)
    let l := set_history_index
               (int (history_index l + (if dir =? LINENOISE_HISTORY_PREV then 1 else -1))) l in
    if history_index l <? 0 then Ok (set_history_index 0 l, h)
    else if history_len h <=? history_index l
    then Ok (set_history_index (history_len h - 1) l, h)
    else
      s ← history_at h (history_len h - 1 - history_index l);
      b ← strncpy (buf l) s (buflen l);
      b ← store b (size_t (buflen l - 1)) NUL;
      n ← strlen b;
      Ok (set_pos n (set_len n (set_buf b l)), h)
  else Ok (l, h).

(** ** The key decoder

    [linenoiseEdit] reads the terminal until a line is accepted, the
    input ends, or the user interrupts.  The terminal input is the list
    of the bytes still to be read; [read] at its end returns 0 and leaves
    the destination as it was.  No completion callback is registered
    ([completionCallback == NULL], its initial value) and terminal writes
    succeed. *)

(** [enum KEY_ACTION] *)
Definition CTRL_A : Z := 1.
Definition CTRL_B : Z := 2.
Definition CTRL_C : Z := 3.
Definition CTRL_D : Z := 4.
Definition CTRL_E : Z := 5.
Definition CTRL_F : Z := 6.
Definition CTRL_H : Z := 8.
Definition TAB : Z := 9.
Definition LINE_FEED : Z := 10.
Definition CTRL_K : Z := 11.
Definition CTRL_L : Z := 12.
Definition ENTER : Z := 13.
Definition CTRL_N : Z := 14.
Definition CTRL_P : Z := 16.
Definition CTRL_T : Z := 20.
Definition CTRL_U : Z := 21.
Definition CTRL_W : Z := 23.
Definition ESC : Z := 27.
Definition BACKSPACE : Z := 127.

(** A [char] converted to [int] ([char] is signed). *)
Definition char_to_int (c : ascii) : Z :=
  let n := Z.of_nat (nat_of_ascii c) in
  if n <? 128 then n else n - 256.

(** [defaultReadCode]: at most one byte; returns [(nread, cbuf, c, rest)]. *)
Definition defaultReadCode (input : list ascii) : Z * list ascii * Z * list ascii :=
  match input with
  | [] => (0, replicate 32 NUL, 0, [])
  | x :: rest => (1, x :: replicate 31 NUL, char_to_int x, rest)
  end.

(** [read(l.ifd, seq+i, 1)]: the byte now in [seq[i]] and the input left. *)
Definition read_seq (old : ascii) (input : list ascii) : ascii * list ascii :=
  match input with
  | [] => (old, [])
  | x :: rest => (x, rest)
  end.

(** What one turn of the loop of [linenoiseEdit] decides. *)
Inductive turn : Type :=
| Break                (* [break]: read the next key *)
| Return (r : Z).      (* [return r] *)

Section Decoder.

Context (enc : encoding).
Context (mlmode : bool).
(** What [seq] holds before anything is read into it. *)
Context (junk : ascii).

Definition is_char (c : ascii) (s : string) : bool :=
  match s with
  | String x EmptyString => Ascii.eqb c x
  | _ => false
  end.

(** [case ESC] *)
Definition escape_sequence (l : linenoiseState) (h : historyState) (input : list ascii)
  : result (linenoiseState * historyState * list ascii) :=
  let '(seq0, input) := read_seq junk input in
  (* ESC ? sequences *)
  if negb (is_char seq0 "[") && negb (is_char seq0 "0") then
    if is_char seq0 "f" then
      l ← linenoiseEditMoveWordEnd l; Ok (l, h, input)
    else if is_char seq0 "b" then
      l ← linenoiseEditMoveWordStart l; Ok (l, h, input)
    else if is_char seq0 "d" then
      l ← linenoiseEditDeleteNextWord l; Ok (l, h, input)
    else Ok (l, h, input)
  else
    let '(seq1, input) := read_seq junk input in
    (* ESC [ sequences. *)
    if is_char seq0 "[" then
      if (Z.of_nat (nat_of_ascii "0") <=? char_to_int seq1)
         && (char_to_int seq1 <=? Z.of_nat (nat_of_ascii "9")) then
        (* Extended escape, read additional byte. *)
        let '(seq2, input) := read_seq junk input in
        if is_char seq2 "~" then
          if is_char seq1 "3" then
            l ← linenoiseEditDelete enc l; Ok (l, h, input)
          else Ok (l, h, input)
        else Ok (l, h, input)
      else
        if is_char seq1 "A" then
          '(l, h) ← linenoiseEditHistoryNext l h LINENOISE_HISTORY_PREV; Ok (l, h, input)
        else if is_char seq1 "B" then
          '(l, h) ← linenoiseEditHistoryNext l h LINENOISE_HISTORY_NEXT; Ok (l, h, input)
        else if is_char seq1 "C" then Ok (linenoiseEditMoveRight enc l, h, input)
        else if is_char seq1 "D" then Ok (linenoiseEditMoveLeft enc l, h, input)
        else if is_char seq1 "H" then Ok (linenoiseEditMoveHome l, h, input)
        else if is_char seq1 "F" then Ok (linenoiseEditMoveEnd l, h, input)
        else if is_char seq1 "d" then
          l ← linenoiseEditDeleteNextWord l; Ok (l, h, input)
        else if is_char seq1 "1" then Ok (linenoiseEditMoveHome l, h, input)
        else if is_char seq1 "4" then Ok (linenoiseEditMoveEnd l, h, input)
        else Ok (l, h, input)
    (* ESC O sequences. *)
    else if is_char seq0 "O" then
      if is_char seq1 "H" then Ok (linenoiseEditMoveHome l, h, input)
      else if is_char seq1 "F" then Ok (linenoiseEditMoveEnd l, h, input)
      else Ok (l, h, input)
    else Ok (l, h, input).

(** [history_len--; free(history[history_len]);] *)
Definition drop_newest (h : historyState) : result historyState :=
  let h := set_history_len (int (history_len h - 1)) h in
  a ← store (default [] (history h)) (history_len h) None;
  Ok (set_history a h).

(** The [switch(c)] of [linenoiseEdit]. *)
Definition dispatch (c : Z) (cbuf : list ascii) (nread : Z)
    (l : linenoiseState) (h : historyState) (input : list ascii)
  : result (turn * linenoiseState * historyState * list ascii) :=
  if (c =? LINE_FEED) || (c =? ENTER) then
    h ← drop_newest h;
    let l := if mlmode then linenoiseEditMoveEnd l else l in
    Ok (Return (int (len l)), l, h, input)
  else if c =? CTRL_C then Ok (Return (-1), l, h, input)
  else if (c =? BACKSPACE) || (c =? 8) then
    l ← linenoiseEditBackspace enc l; Ok (Break, l, h, input)
  else if c =? CTRL_D then
    if 0 <? len l then
      l ← linenoiseEditDelete enc l; Ok (Break, l, h, input)
    else
      h ← drop_newest h; Ok (Return (-1), l, h, input)
  else if c =? CTRL_T then
    l ← ctrl_T l; Ok (Break, l, h, input)
  else if c =? CTRL_B then Ok (Break, linenoiseEditMoveLeft enc l, h, input)
  else if c =? CTRL_F then Ok (Break, linenoiseEditMoveRight enc l, h, input)
  else if c =? CTRL_P then
    '(l, h) ← linenoiseEditHistoryNext l h LINENOISE_HISTORY_PREV; Ok (Break, l, h, input)
  else if c =? CTRL_N then
    '(l, h) ← linenoiseEditHistoryNext l h LINENOISE_HISTORY_NEXT; Ok (Break, l, h, input)
  else if c =? ESC then
    '(l, h, input) ← escape_sequence l h input; Ok (Break, l, h, input)
  else if c =? CTRL_U then
    l ← ctrl_U l; Ok (Break, l, h, input)
  else if c =? CTRL_K then
    l ← ctrl_K l; Ok (Break, l, h, input)
  else if c =? CTRL_A then Ok (Break, linenoiseEditMoveHome l, h, input)
  else if c =? CTRL_E then Ok (Break, linenoiseEditMoveEnd l, h, input)
  else if c =? CTRL_L then Ok (Break, l, h, input)
  else if c =? CTRL_W then
    l ← linenoiseEditDeletePrevWord l; Ok (Break, l, h, input)
  else
    '(l, r) ← linenoiseEditInsert false l cbuf nread;
    if negb (r =? 0) then Ok (Return (-1), l, h, input)
    else Ok (Break, l, h, input).

(** [while(1) { ... }] *)
Fixpoint edit_loop (fuel : nat) (l : linenoiseState) (h : historyState)
    (input : list ascii) : result (Z * linenoiseState * historyState * list ascii) :=
  match fuel with
  | O => OutOfFuel
  | S fuel' =>
      let '(nread, cbuf, c, input) := defaultReadCode input in
      if nread <=? 0 then Ok (int (len l), l, h, input)
      else
        '(t, l, h, input) ← dispatch c cbuf nread l h input;
        match t with
        | Return r => Ok (r, l, h, input)
        | Break => edit_loop fuel' l h input
        end
  end.

(** [linenoiseEdit(stdin_fd, stdout_fd, buf, buflen, prompt)] *)
Definition linenoiseEdit (b : list ascii) (buflen : Z) (h : historyState)
    (input : list ascii) : result (Z * linenoiseState * historyState * list ascii) :=
  let l := mkState b buflen 0 0 0 in
  (* Buffer starts empty. *)
  b ← store (buf l) 0 NUL;
  let l := set_buf b l in
  (* Make sure there is always space for the nulterm *)
  let l := mkState (buf l) (size_t (buflen - 1)) (pos l) (len l) (history_index l) in
  (* The latest history entry is always our current buffer, that
     initially is just an empty string. *)
  '(h, _) ← linenoiseHistoryAdd EmptyString h;
  edit_loop (S (length input)) l h input.

End Decoder.

(** ** Render arithmetic

    The prompt enters the two refresh functions only through
    [pcollen = promptTextColumnLen(l->prompt, ...)], its width in
    columns, and the terminal through [l->cols]. *)

Section Render.

Context (enc : encoding).

Fixpoint columnPos_loop (fuel : nat) (b : list ascii) (buf_len p off ret : Z)
  : result Z :=
  match fuel with
  | O => OutOfFuel
  | S fuel' =>
      if off <? p then
        let '(n, col_len) := nextCharLen enc b buf_len off in
        columnPos_loop fuel' b buf_len p (size_t (off + n)) (size_t (ret + col_len))
      else Ok ret
  end.

(** Column length from the beginning of the buffer to byte position [p]. *)
Definition columnPos (b : list ascii) (buf_len p : Z) : result Z :=
  columnPos_loop (fuel_of p) b buf_len p 0 0.

Fixpoint columnPosForMultiLine_loop (fuel : nat) (b : list ascii)
    (buf_len p cols off colwid ret : Z) : result Z :=
  match fuel with
  | O => OutOfFuel
  | S fuel' =>
      if off <? buf_len then
        let '(n, col_len) := nextCharLen enc b buf_len off in
        let dif := int (int (colwid + col_len) - int cols) in
        let '(ret, colwid) :=
          if 0 <? dif then (size_t (ret + dif), col_len)
          else if dif =? 0 then (ret, 0)
          else (ret, size_t (colwid + col_len)) in
        if p <=? off then Ok ret
        else columnPosForMultiLine_loop fuel' b buf_len p cols
               (size_t (off + n)) colwid (size_t (ret + col_len))
      else Ok ret
  end.

(** Column length from the beginning of the buffer to byte position
    [p], for multiline mode. *)
Definition columnPosForMultiLine (b : list ascii) (buf_len p cols ini_pos : Z)
  : result Z :=
  columnPosForMultiLine_loop (fuel_of buf_len) b buf_len p cols 0 ini_pos 0.

(** [refreshMultiLine]: [rows], the rows used by the current buffer. *)
Definition refreshMultiLine_rows (l : linenoiseState) (pcollen cols : Z) : result Z :=
  r ← columnPosForMultiLine (buf l) (len l) (len l) cols pcollen;
  let colpos := int r in
  Ok (int (size_t (pcollen + colpos + cols - 1) / cols)).

(** [refreshSingleLine]: the two loops that clip the window.  The local
    pointer [buf] is the offset [off] into the array of the line. *)
Fixpoint clip_left (fuel : nat) (b : list ascii) (pcollen cols off n p : Z)
  : result (Z * Z * Z) :=
  match fuel with
  | O => OutOfFuel
  | S fuel' =>
      cp ← columnPos (drop (Z.to_nat off) b) n p;
      if cols <=? size_t (pcollen + cp) then
        let chlen := int (fst (nextCharLen enc (drop (Z.to_nat off) b) n 0)) in
        clip_left fuel' b pcollen cols (off + chlen) (size_t (n - chlen)) (size_t (p - chlen))
      else Ok (off, n, p)
  end.

Fixpoint clip_right (fuel : nat) (b : list ascii) (pcollen cols off n : Z)
  : result Z :=
  match fuel with
  | O => OutOfFuel
  | S fuel' =>
      cp ← columnPos (drop (Z.to_nat off) b) n n;
      if cols <? size_t (pcollen + cp) then
        clip_right fuel' b pcollen cols off
          (size_t (n - fst (prevCharLen enc (drop (Z.to_nat off) b) n n)))
      else Ok n
  end.

(** The window [refreshSingleLine] writes: where it starts in the line,
    its length in bytes, and the cursor relative to its start. *)
Definition refreshSingleLine_window (l : linenoiseState) (pcollen cols : Z)
  : result (Z * Z * Z) :=
  '(off, n, p) ← clip_left (fuel_of (pos l)) (buf l) pcollen cols 0 (len l) (pos l);
  n ← clip_right (fuel_of n) (buf l) pcollen cols off n;
  Ok (off, n, p).

End Render.

(** ** Sessions used in the examples *)

(** An array of [cap] bytes that holds [s] and is zero after it. *)
Definition c_array (s : string) (cap : nat) : list ascii :=
  take cap (list_ascii_of_string s ++ replicate cap NUL).

(** The editing state of a session whose buffer has [cap] bytes, once
    [linenoiseEdit] has decremented [buflen], with [s] typed and the
    cursor at [p]. *)
Definition editing (s : string) (cap : nat) (p : Z) : linenoiseState :=
  mkState (c_array s cap) (Z.of_nat cap - 1) p (Z.of_nat (String.length s)) 0.

(** Keys as the bytes the terminal sends. *)
Definition keys (s : string) : list ascii := list_ascii_of_string s.
Definition key (k : Z) : ascii := ascii_of_nat (Z.to_nat k).

(** The text of the line: the bytes before the terminator. *)
Definition line (l : linenoiseState) : result string := strdup (buf l).

(** The byte at [buf[len]], where the terminator belongs. *)
Definition terminator (l : linenoiseState) : result ascii := load (buf l) (len l).

(** The entries of the history, oldest first. *)
Definition entries (h : historyState) : list (option string) :=
  take (Z.to_nat (history_len h)) (default [] (history h)).

(** A history array of [history_max_len] slots that holds [ss]. *)
Definition history_of (max_len : Z) (ss : list string) : historyState :=
  mkHistory max_len (size ss)
    (Some (take (Z.to_nat max_len) ((Some <$> ss) ++ replicate (Z.to_nat max_len) None))).

(** ** Operations as data: sequences of editing operations *)

Inductive edit_op : Type :=
| Insert (cbuf : list ascii) (clen : Z)
| Delete
| Backspace
| MoveLeft
| MoveRight
| MoveHome
| MoveEnd
| MoveWordStart
| MoveWordEnd.

Definition apply_op (enc : encoding) (o : edit_op) (l : linenoiseState)
  : result linenoiseState :=
  match o with
  | Insert cbuf clen => r ← linenoiseEditInsert false l cbuf clen; Ok (fst r)
  | Delete => linenoiseEditDelete enc l
  | Backspace => linenoiseEditBackspace enc l
  | MoveLeft => Ok (linenoiseEditMoveLeft enc l)
  | MoveRight => Ok (linenoiseEditMoveRight enc l)
  | MoveHome => Ok (linenoiseEditMoveHome l)
  | MoveEnd => Ok (linenoiseEditMoveEnd l)
  | MoveWordStart => linenoiseEditMoveWordStart l
  | MoveWordEnd => linenoiseEditMoveWordEnd l
  end.

Fixpoint apply_ops (enc : encoding) (os : list edit_op) (l : linenoiseState)
  : result linenoiseState :=
  match os with
  | [] => Ok l
  | o :: os' => l' ← apply_op enc o l; apply_ops enc os' l'
  end.

(** The state [linenoiseEdit] starts from, for a buffer of [cap] bytes. *)
Definition session_start (b : list ascii) : result linenoiseState :=
  b' ← store b 0 NUL;
  Ok (mkState b' (size_t (size b - 1)) 0 0 0).

(** [cursor <= length < capacity] *)
Definition cursor_length_capacity (cap : Z) (l : linenoiseState) : Prop :=
  0 <= pos l <= len l /\ len l < cap.

(** The capacity of the buffer of a session: [linenoiseEdit] keeps
    [buflen] one below the size of the array it was given, so that the
    terminator always has its byte. *)
Definition capacity (l : linenoiseState) : Z := buflen l + 1.

(** ** The history, abstractly *)

(** The history array of [h] holds exactly the lines [ss], oldest first. *)
Definition history_holds (h : historyState) (ss : list string) : Prop :=
  history_len h = size ss /\ history_len h <= history_max_len h /\
  match history h with
  | None => ss = []
  | Some a => size a = history_max_len h /\ take (length ss) a = Some <$> ss
  end.

Definition is_newest (line : string) (ss : list string) : bool :=
  match last ss with Some s => String.eqb s line | None => false end.

(** [Add(line)] in the words of the specification: nothing happens when
    the capacity is zero or [line] is the newest entry; otherwise [line]
    is appended, after the oldest entry is evicted from a full store. *)
Definition Add_spec (max_len : Z) (line : string) (ss : list string) : list string :=
  if max_len =? 0 then ss
  else if is_newest line ss then ss
  else (if size ss =? max_len then drop 1 ss else ss) ++ [line].

(** ** Encodings used in the statements *)

(** Every character is one column wide and lies inside the buffer. *)
Definition single_column (enc : encoding) : Prop :=
  forall (b : list ascii) (n p : Z),
    0 <= p < n ->
    1 <= fst (nextCharLen enc b n p) <= n - p /\ snd (nextCharLen enc b n p) = 1.

(** An encoding with double-width characters, in the manner of UTF-8: a
    byte from 0xE0 on starts a character of three bytes and two columns,
    any other byte is a character of one byte and one column. *)
Definition is_wide_lead (c : option ascii) : bool :=
  match c with
  | Some c => 224 <=? Z.of_nat (nat_of_ascii c)
  | None => false
  end.

Definition wideNextCharLen (b : list ascii) (buf_len p : Z) : Z * Z :=
  if is_wide_lead (b !! Z.to_nat p) then (3, 2) else (1, 1).

Definition widePrevCharLen (b : list ascii) (buf_len p : Z) : Z * Z :=
  if (3 <=? p) && is_wide_lead (b !! Z.to_nat (p - 3)) then (3, 2) else (1, 1).

Definition wideEncoding : encoding :=
  {| prevCharLen := widePrevCharLen; nextCharLen := wideNextCharLen |}.

(** Three characters of three bytes each (E6 97 A5, E6 9C AC, E8 AA 9E). *)
Definition wide_line : string :=
  string_of_list_ascii
    (ascii_of_nat <$> [230; 151; 165; 230; 156; 172; 232; 170; 158]%nat).

(** ** Lines as sequences of characters *)

(** The characters of a line, each with its length in bytes and its
    width in columns. *)
Fixpoint bytes_of (cs : list (Z * Z)) : Z :=
  match cs with
  | [] => 0
  | c :: cs' => fst c + bytes_of cs'
  end.

Fixpoint columns_of (cs : list (Z * Z)) : Z :=
  match cs with
  | [] => 0
  | c :: cs' => snd c + columns_of cs'
  end.

Definition char_ok (c : Z * Z) : Prop := 1 <= fst c < 2 ^ 31 /\ 0 <= snd c.

(** [enc] reads the line in [b] as the characters [cs]: in any window
    of the line that starts and ends between two characters,
    [nextCharLen] finds each character at its place, and [prevCharLen]
    finds the length of the last one at the end. *)
Definition reads_as (enc : encoding) (b : list ascii) (cs : list (Z * Z)) : Prop :=
  Forall char_ok cs
  /\ forall (pre mid : list (Z * Z)) (c : Z * Z) (rest post : list (Z * Z)),
       cs = pre ++ mid ++ c :: rest ++ post ->
       nextCharLen enc (drop (Z.to_nat (bytes_of pre)) b)
         (bytes_of (mid ++ c :: rest)) (bytes_of mid) = c
       /\ (rest = [] ->
           fst (prevCharLen enc (drop (Z.to_nat (bytes_of pre)) b)
                  (bytes_of (mid ++ [c])) (bytes_of (mid ++ [c]))) = fst c).

(** ** Well-formed editing states *)

(** The cursor is in the line, the line is shorter than the capacity, and
    the array has at least the capacity. *)
Definition state_ok (l : linenoiseState) : Prop :=
  cursor_length_capacity (capacity l) l
  /\ capacity l <= size (buf l) /\ size (buf l) < 2 ^ 63.

(** An insertion takes its [clen] bytes from inside [cbuf]. *)
Definition op_ok (o : edit_op) : Prop :=
  match o with
  | Insert cbuf clen => 0 <= clen <= size cbuf /\ size cbuf < 2 ^ 63
  | _ => True
  end.

(** ** Keys that are text

    The keys that [linenoiseEdit]'s switch has a case for; every other
    key reaches [default:] and is inserted in the line. *)
Definition control_keys : list Z :=
  [LINE_FEED; ENTER; CTRL_C; BACKSPACE; 8; CTRL_D; CTRL_T; CTRL_B; CTRL_F; CTRL_P;
   CTRL_N; ESC; CTRL_U; CTRL_K; CTRL_A; CTRL_E; CTRL_L; CTRL_W].

Definition is_text_key (x : ascii) : bool :=
  negb (existsb (Z.eqb (char_to_int x)) control_keys).

(** What a session leaves of a history that held [ss]: the scratch entry
    that [linenoiseEdit] adds for the line being typed, and that Enter
    removes, stands for the newest entry when that one is empty, and
    pushes the oldest one out of a full history. *)
Definition after_session (max_len : Z) (ss : list string) : list string :=
  if is_newest EmptyString ss then removelast ss
  else if size ss =? max_len then drop 1 ss
  else ss.

(** ** The prompt

    A prompt may hold escape sequences that take no column on the
    terminal.  [strlenPerceived] and [promptTextColumnLen] each count
    the rest. *)

(** ['\x1b'] *)
Definition ESC_byte : ascii := "027"%char.

(** [*str >= 0x40 && *str <= 0x7E] *)
Definition in_final_range (c : ascii) : bool :=
  (64 <=? char_to_int c) && (char_to_int c <=? 126).

(** [strlenPerceived]: [str] is what the array holds from the pointer
    on, [i] the index of its first byte. *)
Fixpoint strlenPerceived_loop (str : list ascii) (i : Z) (escaping : bool) (len : Z)
  : result Z :=
  match str with
  | [] => OutOfBounds i
  | c :: rest =>
      if Ascii.eqb c NUL then Ok len
      else if escaping then
        (* was terminating char reached? *)
        strlenPerceived_loop rest (i + 1) (negb (in_final_range c)) len
      else if Ascii.eqb c ESC_byte then
        match rest with
        | [] => OutOfBounds (i + 1)
        | c1 :: rest' =>
            if Ascii.eqb c1 "["
            then strlenPerceived_loop rest' (i + 2) true len
            else strlenPerceived_loop rest (i + 1) true len
        end
      else strlenPerceived_loop rest (i + 1) false (int (len + 1))
  end.

(** Get the length of the string ignoring escape-sequences; [None] is
    the NULL pointer. *)
Definition strlenPerceived (str : option (list ascii)) : result Z :=
  match str with
  | None => Ok 0
  | Some b => strlenPerceived_loop b 0 false 0
  end.

(** The bytes that end an escape sequence for [isAnsiEscape]. *)
Definition is_final (c : ascii) : bool :=
  existsb (Ascii.eqb c)
    ["A"; "B"; "C"; "D"; "E"; "F"; "G"; "H"; "J"; "K"; "S"; "T"; "f"; "m"]%char.

Fixpoint isAnsiEscape_loop (fuel : nat) (b : list ascii) (buf_len off : Z)
  : result (option Z) :=
  match fuel with
  | O => OutOfFuel
  | S fuel' =>
      if off <? buf_len then
        c ← load b off;
        let off := size_t (off + 1) in
        if is_final c then Ok (Some off)
        else isAnsiEscape_loop fuel' b buf_len off
      else Ok None
  end.

(** Check if text is an ANSI escape sequence: [Some len] is the return
    value 1 with [*len = len], [None] the return value 0. *)
Definition isAnsiEscape (b : list ascii) (buf_len : Z) : result (option Z) :=
  if 2 <? buf_len then
    c0 ← load b 0;
    c1 ← load b 1;
    if Ascii.eqb c0 ESC_byte && Ascii.eqb c1 "["
    then isAnsiEscape_loop (fuel_of (buf_len - 2)) b buf_len 2
    else Ok None
  else Ok None.

Fixpoint promptTextColumnLen_loop (fuel : nat) (prompt : list ascii) (plen : Z)
    (b : list ascii) (buf_len off : Z) : result (list ascii * Z) :=
  match fuel with
  | O => OutOfFuel
  | S fuel' =>
      if off <? plen then
        r ← isAnsiEscape (drop (Z.to_nat off) prompt) (size_t (plen - off));
        match r with
        | Some n =>
            promptTextColumnLen_loop fuel' prompt plen b buf_len (size_t (off + n))
        | None =>
            c ← load prompt off;
            b ← store b buf_len c;
            promptTextColumnLen_loop fuel' prompt plen b (size_t (buf_len + 1))
              (size_t (off + 1))
        end
      else Ok (b, buf_len)
  end.

(** Get column length of prompt text.  The local array [buf] has
    [LINENOISE_MAX_LINE] bytes, which hold [junk] before they are
    written. *)
Definition promptTextColumnLen (enc : encoding) (junk : ascii) (prompt : list ascii)
    (plen : Z) : result Z :=
  '(b, buf_len) ← promptTextColumnLen_loop (fuel_of plen) prompt plen
                    (replicate (Z.to_nat LINENOISE_MAX_LINE) junk) 0 0;
  columnPos enc b buf_len buf_len.

(** A prompt in pieces: text, and escape sequences ESC [ ... final. *)
Inductive piece : Type :=
| Text (s : list ascii)
| Csi (params : list ascii) (final : ascii).

Definition bytes_of_piece (p : piece) : list ascii :=
  match p with
  | Text s => s
  | Csi params final => ESC_byte :: "["%char :: params ++ [final]
  end.

Definition visible (p : piece) : list ascii :=
  match p with
  | Text s => s
  | Csi _ _ => []
  end.

Definition prompt_bytes (ps : list piece) : list ascii := concat (bytes_of_piece <$> ps).
Definition prompt_text (ps : list piece) : list ascii := concat (visible <$> ps).

(** The pieces as [promptTextColumnLen] tells them apart: text holds no
    ESC, and a sequence runs to its first final byte. *)
Definition piece_ok (p : piece) : Prop :=
  match p with
  | Text s => Forall (fun c => c <> ESC_byte) s
  | Csi params final => is_final final = true /\ Forall (fun c => is_final c = false) params
  end.

(** The pieces as [strlenPerceived] tells them apart: text holds no ESC,
    and a sequence runs to its first byte between 0x40 and 0x7E. *)
Definition piece_perceived (p : piece) : Prop :=
  match p with
  | Text s => Forall (fun c => c <> ESC_byte /\ c <> NUL) s
  | Csi params final =>
      in_final_range final = true
      /\ Forall (fun c => in_final_range c = false /\ c <> NUL) params
  end.

(** ** Completions from the history *)

(** [tolower], in the C locale. *)
Definition tolower (c : ascii) : ascii :=
  let n := nat_of_ascii c in
  if ((65 <=? n) && (n <=? 90))%nat then ascii_of_nat (n + 32) else c.

(** [strncasecmp(s1, s2, n)] on strings that end at their terminator:
    the difference of the first two bytes that differ once in lower
    case, among the first [n]. *)
Fixpoint strncasecmp (s1 s2 : string) (n : nat) : Z :=
  match n with
  | O => 0
  | S n' =>
      match s1, s2 with
      | EmptyString, EmptyString => 0
      | EmptyString, String c2 _ => - Z.of_nat (nat_of_ascii (tolower c2))
      | String c1 _, EmptyString => Z.of_nat (nat_of_ascii (tolower c1))
      | String c1 r1, String c2 r2 =>
          let d := Z.of_nat (nat_of_ascii (tolower c1))
                   - Z.of_nat (nat_of_ascii (tolower c2)) in
          if d =? 0 then strncasecmp r1 r2 n' else d
      end
  end.

(** [linenoiseCompletions]: [cvec] is the array behind the pointer. *)
Record linenoiseCompletions : Type := mkCompletions {
  lc_len : Z;
  cvec : list string
}.

(** [realloc] keeps the [len] entries that were there; the copy of
    [str] goes after them. *)
Definition linenoiseAddCompletion (lc : linenoiseCompletions) (str : string)
  : linenoiseCompletions :=
  mkCompletions (size_t (lc_len lc + 1)) (take (Z.to_nat (lc_len lc)) (cvec lc) ++ [str]).

Fixpoint linenoiseAddHistoryCompletions_loop (fuel : nat) (b : string) (n : nat)
    (h : historyState) (i : Z) (lc : linenoiseCompletions) : result linenoiseCompletions :=
  match fuel with
  | O => OutOfFuel
  | S fuel' =>
      if i <? history_len h then
        e ← history_at h i;
        let lc := if strncasecmp e b n =? 0 then linenoiseAddCompletion lc e else lc in
        linenoiseAddHistoryCompletions_loop fuel' b n h (int (i + 1)) lc
      else Ok lc
  end.

(** Adds matching history entries as tab completions. *)
Definition linenoiseAddHistoryCompletions (b : string) (h : historyState)
    (lc : linenoiseCompletions) : result linenoiseCompletions :=
  match history h with
  | None => Ok lc
  | Some _ =>
      linenoiseAddHistoryCompletions_loop (fuel_of (history_len h)) b (String.length b)
        h 0 lc
  end.

(** [s] starts with [b], letter case apart. *)
Fixpoint starts_with (b s : string) : bool :=
  match b, s with
  | EmptyString, _ => true
  | String _ _, EmptyString => false
  | String c b', String x s' => Ascii.eqb (tolower x) (tolower c) && starts_with b' s'
  end.

(** A string as C has it: no byte of it is zero. *)
Definition c_string (s : string) : Prop :=
  Forall (fun c => c <> NUL) (list_ascii_of_string s).

(** ** The history file

    The file is the list of its bytes.  [fopen] is taken to return the
    file, or NULL; permissions ([umask], [chmod]) are left out. *)

Definition NEWLINE : ascii := "010"%char.
Definition CARRIAGE_RETURN : ascii := "013"%char.

(** [fprintf(fp, "%s\n", history[j])], for every entry. *)
Fixpoint linenoiseHistorySave_loop (fuel : nat) (h : historyState) (j : Z)
    (out : list ascii) : result (list ascii) :=
  match fuel with
  | O => OutOfFuel
  | S fuel' =>
      if j <? history_len h then
        e ← history_at h j;
        linenoiseHistorySave_loop fuel' h (int (j + 1))
          (out ++ list_ascii_of_string e ++ [NEWLINE])
      else Ok out
  end.

(** Save the history in the specified file: the status, and the file
    written.  [fopen_ok] says whether [fopen] returned a file. *)
Definition linenoiseHistorySave (fopen_ok : bool) (h : historyState)
  : result (Z * option (list ascii)) :=
  if fopen_ok then
    out ← linenoiseHistorySave_loop (fuel_of (history_len h)) h 0 [];
    Ok (0, Some out)
  else Ok (-1, None).

(** What [fgets] reads: at most [k] bytes, up to a newline and with it. *)
Fixpoint fgets_read (k : nat) (input : list ascii) : list ascii * list ascii :=
  match k with
  | O => ([], input)
  | S k' =>
      match input with
      | [] => ([], [])
      | c :: rest =>
          if Ascii.eqb c NEWLINE then ([c], rest)
          else let '(r, rest') := fgets_read k' rest in (c :: r, rest')
      end
  end.

(** [fgets(b, n, stream)] for [n > 1]: [None] is NULL, at the end of the
    stream. *)
Definition fgets (b : list ascii) (n : Z) (input : list ascii)
  : result (option (list ascii) * list ascii) :=
  let '(r, rest) := fgets_read (Z.to_nat (n - 1)) input in
  match r with
  | [] => Ok (None, rest)
  | _ :: _ => b' ← memcpy b 0 (r ++ [NUL]) (size r + 1); Ok (Some b', rest)
  end.

(** [strchr(b, c)]: the index of the first [c] in the string. *)
Fixpoint strchr_from (b : list ascii) (c : ascii) (i : Z) : result (option Z) :=
  match b with
  | [] => OutOfBounds i
  | x :: b' =>
      if Ascii.eqb x c then Ok (Some i)
      else if Ascii.eqb x NUL then Ok None
      else strchr_from b' c (i + 1)
  end.

Definition strchr (b : list ascii) (c : ascii) : result (option Z) := strchr_from b c 0.

Fixpoint linenoiseHistoryLoad_loop (fuel : nat) (b : list ascii) (input : list ascii)
    (h : historyState) : result historyState :=
  match fuel with
  | O => OutOfFuel
  | S fuel' =>
      '(r, input) ← fgets b LINENOISE_MAX_LINE input;
      match r with
      | None => Ok h
      | Some b =>
          p ← strchr b CARRIAGE_RETURN;
          p ← (match p with Some _ => Ok p | None => strchr b NEWLINE end);
          b ← (match p with Some i => store b i NUL | None => Ok b end);
          line ← strdup b;
          '(h, _) ← linenoiseHistoryAdd line h;
          linenoiseHistoryLoad_loop fuel' b input h
      end
  end.

(** Load the history from the specified file; [None] is a file that
    [fopen] does not find.  The local buffer holds [junk] at first. *)
Definition linenoiseHistoryLoad (file : option (list ascii)) (junk : ascii)
    (h : historyState) : result (Z * historyState) :=
  match file with
  | None => Ok (-1, h)
  | Some input =>
      h ← linenoiseHistoryLoad_loop (S (length input))
            (replicate (Z.to_nat LINENOISE_MAX_LINE) junk) input h;
      Ok (0, h)
  end.

(** The file of the lines [ss]. *)
Definition file_of (ss : list string) : list ascii :=
  concat ((fun s => list_ascii_of_string s ++ [NEWLINE]) <$> ss).

(** A line that a file gives back as it is: no byte of it ends a line or
    a string, and it fits in the buffer with its newline. *)
Definition file_line (s : string) : Prop :=
  Forall (fun c => c <> NUL /\ c <> NEWLINE /\ c <> CARRIAGE_RETURN) (list_ascii_of_string s)
  /\ size (list_ascii_of_string s) + 2 <= LINENOISE_MAX_LINE.

(** No line is equal to the one before it. *)
Fixpoint no_repeat (ss : list string) : bool :=
  match ss with
  | [] => true
  | s :: t => match t with
              | [] => true
              | s' :: _ => negb (String.eqb s s') && no_repeat t
              end
  end.

(** ** What the refresh functions write

    The bytes a refresh writes to the terminal are gathered in an append
    buffer and written at once.  [prompt] is the string of the prompt,
    [cols] the width of the terminal; the hints callback gets the line
    and returns the hint with its colour and boldness, or nothing. *)

(** [snprintf(seq, 64, "%d", n)] for an [int]. *)
Definition decimal (n : Z) : list ascii :=
  list_ascii_of_string (NilZero.string_of_int (Z.to_int n)).

(** [abAppend(ab, s, len)]: [realloc] is taken to succeed. *)
Definition abAppend (ab s : list ascii) (n : Z) : result (list ascii) :=
  if (0 <=? n) && (n <=? size s) then Ok (ab ++ take (Z.to_nat n) s)
  else OutOfBounds n.

Definition abAppend_string (ab : list ascii) (s : string) : result (list ascii) :=
  abAppend ab (list_ascii_of_string s) (size (list_ascii_of_string s)).

Definition hints_callback : Type := string -> option (list ascii * Z * Z).

Section Refresh.

Context (enc : encoding).
Context (junk : ascii).
Context (hintsCallback : option hints_callback).

(** Helper of refreshSingleLine() and refreshMultiLine() to show hints
    to the right of the prompt. *)
Definition refreshShowHints (ab : list ascii) (l : linenoiseState) (cols pcollen : Z)
  : result (list ascii) :=
  cp ← columnPos enc (buf l) (len l) (len l);
  let collen := size_t (int pcollen + cp) in
  match hintsCallback with
  | Some callback =>
      if collen <? cols then
        line ← strdup (buf l);
        match callback line with
        | Some (hint, color, bold) =>
            let hintlen := int (size hint) in
            let hintmaxlen := int (size_t (cols - collen)) in
            let hintlen := if hintmaxlen <? hintlen then hintmaxlen else hintlen in
            let color := if (bold =? 1) && (color =? -1) then 37 else color in
            let styled := negb (color =? -1) || negb (bold =? 0) in
            let seq := if styled
                       then ESC_byte :: "["%char :: decimal bold ++ ";"%char :: decimal color
                            ++ list_ascii_of_string ";49m"
                       else [] in
            ab ← abAppend ab seq (size seq);
            ab ← abAppend ab hint hintlen;
            if styled then abAppend ab (ESC_byte :: list_ascii_of_string "[0m") 4
            else Ok ab
        | None => Ok ab
        end
      else Ok ab
  | None => Ok ab
  end.

(** Single line low level line refresh: the bytes written. *)
Definition refreshSingleLine (l : linenoiseState) (prompt : list ascii) (cols : Z)
  : result (list ascii) :=
  pcollen ← promptTextColumnLen enc junk prompt (size prompt);
  '(off, n, p) ← refreshSingleLine_window enc l pcollen cols;
  (* Cursor to left edge *)
  ab ← abAppend_string [] (String "013" EmptyString);
  (* Write the prompt and the current buffer content *)
  ab ← abAppend ab prompt (size prompt);
  ab ← abAppend ab (drop (Z.to_nat off) (buf l)) n;
  (* Show hits if any. *)
  ab ← refreshShowHints ab l cols pcollen;
  (* Erase to right *)
  ab ← abAppend ab (ESC_byte :: list_ascii_of_string "[0K") 4;
  (* Move cursor to original position. *)
  cp ← columnPos enc (drop (Z.to_nat off) (buf l)) n p;
  let seq := "013"%char :: ESC_byte :: "["%char
             :: decimal (int (size_t (cp + pcollen))) ++ ["C"%char] in
  abAppend ab seq (size seq).

(** The part of [struct linenoiseState] that only the multi-line
    refresh reads and writes. *)
Record renderState : Type := mkRender {
  oldcolpos : Z;     (* previous refresh cursor column position *)
  maxrows : Z        (* maximum num of rows used so far (multiline mode) *)
}.

(** Multi line low level line refresh: the state it leaves and the bytes
    written. *)
Definition refreshMultiLine (l : linenoiseState) (prompt : list ascii) (cols : Z)
    (rs : renderState) : result (renderState * list ascii) :=
  pcollen ← promptTextColumnLen enc junk prompt (size prompt);
  r ← columnPosForMultiLine enc (buf l) (len l) (len l) cols pcollen;
  let colpos := int r in
  (* rows used by current buf. *)
  let rows := int (size_t (pcollen + colpos + cols - 1) / cols) in
  (* cursor relative row. *)
  let rpos := int (size_t (pcollen + oldcolpos rs + cols) / cols) in
  let old_rows := int (maxrows rs) in
  (* Update maxrows if needed. *)
  let rs := if int (maxrows rs) <? rows then mkRender (oldcolpos rs) (size_t rows) else rs in
  (* First step: clear all the lines used before. To do so start by
     going to the last row. *)
  ab ← (if 0 <? int (old_rows - rpos)
        then let seq := ESC_byte :: "["%char :: decimal (int (old_rows - rpos)) ++ ["B"%char] in
             abAppend [] seq (size seq)
        else Ok []);
  (* Now for every row clear it, go up. *)
  let ab := ab ++ concat (replicate (Z.to_nat (int (old_rows - 1)))
                            ("013"%char :: ESC_byte :: list_ascii_of_string "[0K"
                             ++ ESC_byte :: list_ascii_of_string "[1A")) in
  (* Clean the top line. *)
  ab ← abAppend ab ("013"%char :: ESC_byte :: list_ascii_of_string "[0K") 5;
  (* Write the prompt and the current buffer content *)
  ab ← abAppend ab prompt (size prompt);
  ab ← abAppend ab (buf l) (len l);
  (* Show hits if any. *)
  ab ← refreshShowHints ab l cols pcollen;
  (* Get column length to cursor position *)
  r2 ← columnPosForMultiLine enc (buf l) (len l) (pos l) cols pcollen;
  let colpos2 := int r2 in
  (* If we are at the very end of the screen with our prompt, we need to
     emit a newline and move the prompt to the first column. *)
  let at_edge := negb (pos l =? 0) && (pos l =? len l)
                 && (size_t (colpos2 + pcollen) mod cols =? 0) in
  let ab := if at_edge then ab ++ ["010"%char; "013"%char] else ab in
  let rows := if at_edge then int (rows + 1) else rows in
  let rs := if at_edge && (int (maxrows rs) <? rows)
            then mkRender (oldcolpos rs) (size_t rows) else rs in
  (* Move cursor to right position: current cursor relative row. *)
  let rpos2 := int (size_t (pcollen + colpos2 + cols) / cols) in
  (* Go up till we reach the expected positon. *)
  ab ← (if 0 <? int (rows - rpos2)
        then let seq := ESC_byte :: "["%char :: decimal (int (rows - rpos2)) ++ ["A"%char] in
             abAppend ab seq (size seq)
        else Ok ab);
  (* Set column. *)
  let col := int (size_t (pcollen + colpos2) mod cols) in
  let seq := if negb (col =? 0)
             then "013"%char :: ESC_byte :: "["%char :: decimal col ++ ["C"%char]
             else ["013"%char] in
  ab ← abAppend ab seq (size seq);
  Ok (mkRender (size_t colpos2) (maxrows rs), ab).

(** Calls the two low level functions refreshSingleLine() or
    refreshMultiLine() according to the selected mode. *)
Definition refreshLine (mlmode : bool) (l : linenoiseState) (prompt : list ascii)
    (cols : Z) (rs : renderState) : result (renderState * list ascii) :=
  if mlmode then refreshMultiLine l prompt cols rs
  else ab ← refreshSingleLine l prompt cols; Ok (rs, ab).

End Refresh.

(** A hints callback that proposes the same hint, in magenta, for every
    line. *)
Definition hint_world : hints_callback :=
  fun _ => Some (list_ascii_of_string " world", 35, 0).

(** ** Lines read without editing

    The standard input is the list of the bytes still to be read; the
    end of the list is the end of the file. *)

(** [realloc(line, n)], when it succeeds: the bytes that were there are
    kept, the others are not set. *)
Definition realloc (junk : ascii) (line : option (list ascii)) (n : Z) : list ascii :=
  take (Z.to_nat n) (default [] line ++ replicate (Z.to_nat n) junk).

(** [line[i] = c], where [line] may be NULL. *)
Definition store_at (line : option (list ascii)) (i : Z) (c : ascii)
  : result (list ascii) :=
  match line with
  | Some b => store b i c
  | None => OutOfBounds i
  end.

(** [if (len == maxlen) { ... }]: the block is doubled when it is full,
    and is 32 bytes at first.  [realloc_ok n] tells whether the
    allocation of [n] bytes succeeds; [None] is the return of NULL. *)
Definition linenoiseNoTTY_grow (realloc_ok : Z -> bool) (junk : ascii)
    (line : option (list ascii)) (len maxlen : Z) : option (option (list ascii) * Z) :=
  if len =? maxlen then
    let maxlen := if maxlen =? 0 then 16 else maxlen in
    let maxlen := size_t (maxlen * 2) in
    if realloc_ok maxlen then Some (Some (realloc junk line maxlen), maxlen)
    else None
  else Some (line, maxlen).

(** The loop of [linenoiseNoTTY].  The result is the line, or NULL, and
    the input that is left. *)
Fixpoint linenoiseNoTTY_loop (realloc_ok : Z -> bool) (junk : ascii) (input : list ascii)
    (line : option (list ascii)) (len maxlen : Z) {struct input}
  : result (option (list ascii) * list ascii) :=
  match linenoiseNoTTY_grow realloc_ok junk line len maxlen with
  | None => Ok (None, input)
  | Some (line, maxlen) =>
      match input with
      | [] =>
          (* c == EOF *)
          if len =? 0 then Ok (None, [])
          else b ← store_at line len NUL; Ok (Some b, [])
      | c :: rest =>
          if Ascii.eqb c NEWLINE then b ← store_at line len NUL; Ok (Some b, rest)
          else
            b ← store_at line len c;
            linenoiseNoTTY_loop realloc_ok junk rest (Some b) (size_t (len + 1)) maxlen
      end
  end.

(** This function is called when linenoise() is called with the standard
    input file descriptor not attached to a TTY. *)
Definition linenoiseNoTTY (realloc_ok : Z -> bool) (junk : ascii) (input : list ascii)
  : result (option (list ascii) * list ascii) :=
  linenoiseNoTTY_loop realloc_ok junk input None 0 0.

(** ** The main entry point

    What the program gets from its environment: whether the standard
    input is a terminal, the value of [TERM], whether the terminal
    attributes can be read and set, and whether an allocation succeeds.
    What is written to the standard output, the prompt and the new line
    after the line, is left out, as it is for the editing operations. *)

Record environment : Type := mkEnvironment {
  isatty : bool;
  TERM : option string;
  tcgetattr_ok : bool;
  tcsetattr_ok : bool;
  realloc_ok : Z -> bool
}.

(** [strcasecmp(s1, s2)] on strings that end at their terminator. *)
Fixpoint strcasecmp (s1 s2 : string) : Z :=
  match s1, s2 with
  | EmptyString, EmptyString => 0
  | EmptyString, String c2 _ => - Z.of_nat (nat_of_ascii (tolower c2))
  | String c1 _, EmptyString => Z.of_nat (nat_of_ascii (tolower c1))
  | String c1 r1, String c2 r2 =>
      let d := Z.of_nat (nat_of_ascii (tolower c1))
               - Z.of_nat (nat_of_ascii (tolower c2)) in
      if d =? 0 then strcasecmp r1 r2 else d
  end.

Definition unsupported_term : list string := ["dumb"; "cons25"; "emacs"]%string.

Fixpoint isUnsupportedTerm_loop (term : string) (terms : list string) : Z :=
  match terms with
  | [] => 0
  | t :: terms =>
      if strcasecmp term t =? 0 then 1 else isUnsupportedTerm_loop term terms
  end.

(** Return true if the terminal name is in the list of terminals we know
    are not able to understand basic escape sequences. *)
Definition isUnsupportedTerm (term : option string) : Z :=
  match term with
  | None => 0
  | Some term => isUnsupportedTerm_loop term unsupported_term
  end.

(** Raw mode: the value returned.  The attributes that are set are not
    part of the model, in which the input is the bytes that the
    terminal sends in raw mode. *)
Definition enableRawMode (env : environment) : Z :=
  if negb (isatty env) then -1
  else if negb (tcgetattr_ok env) then -1
  else if negb (tcsetattr_ok env) then -1
  else 0.

(** [while(len && (buf[len-1] == '\n' || buf[len-1] == '\r'))] of
    [linenoise]. *)
Fixpoint linenoise_strip (fuel : nat) (b : list ascii) (len : Z) : result (list ascii) :=
  match fuel with
  | O => OutOfFuel
  | S fuel' =>
      if len =? 0 then Ok b
      else
        c ← load b (len - 1);
        if Ascii.eqb c NEWLINE || Ascii.eqb c CARRIAGE_RETURN then
          let len := size_t (len - 1) in
          b ← store b len NUL;
          linenoise_strip fuel' b len
        else Ok b
  end.

(** [strdup(b)] as the block it allocates. *)
Definition strdup_block (b : list ascii) : result (list ascii) :=
  s ← strdup b;
  Ok (list_ascii_of_string s ++ [NUL]).

Section Linenoise.

Context (enc : encoding) (mlmode : bool) (junk : ascii).

(** This function calls the line editing function linenoiseEdit() using
    the STDIN file descriptor set in raw mode. *)
Definition linenoiseRaw (env : environment) (b : list ascii) (buflen : Z)
    (h : historyState) (input : list ascii)
  : result (Z * list ascii * historyState * list ascii) :=
  if buflen =? 0 then Ok (-1, b, h, input)
  else if enableRawMode env =? -1 then Ok (-1, b, h, input)
  else
    '(count, l, h, input) ← linenoiseEdit enc mlmode junk b buflen h input;
    Ok (count, buf l, h, input).

(** The high level function that is the main API of the linenoise
    library: the line, or NULL, the history and the input that is
    left. *)
Definition linenoise (env : environment) (h : historyState) (input : list ascii)
  : result (option (list ascii) * historyState * list ascii) :=
  let b := replicate (Z.to_nat LINENOISE_MAX_LINE) junk in
  if negb (isatty env) then
    (* Not a tty: read from file / pipe. *)
    '(r, input) ← linenoiseNoTTY (realloc_ok env) junk input;
    Ok (r, h, input)
  else if negb (isUnsupportedTerm (TERM env) =? 0) then
    '(r, input) ← fgets b LINENOISE_MAX_LINE input;
    match r with
    | None => Ok (None, h, input)
    | Some b =>
        len ← strlen b;
        b ← linenoise_strip (fuel_of len) b len;
        r ← strdup_block b;
        Ok (Some r, h, input)
    end
  else
    '(count, b, h, input) ← linenoiseRaw env b LINENOISE_MAX_LINE h input;
    if count =? -1 then Ok (None, h, input)
    else r ← strdup_block b; Ok (Some r, h, input).

End Linenoise.

(** A string with its capital letters made small. *)
Fixpoint lowercase (s : string) : string :=
  match s with
  | EmptyString => EmptyString
  | String c r => String (tolower c) (lowercase r)
  end.

(** ** Completion

    [completionCallback(buf, &lc)] is given the line and the empty list
    of completions, and gives the list back.  The refreshes and the
    beep, which only write to the terminal, are left out. *)
Definition completion_callback : Type :=
  string -> linenoiseCompletions -> linenoiseCompletions.

(** [snprintf(b, n, "%s", e)]: the buffer, and the value returned, which
    is the length of [e] whether or not it fits. *)
Definition snprintf_s (b : list ascii) (n : Z) (e : string) : result (list ascii * Z) :=
  let es := list_ascii_of_string e in
  if n =? 0 then Ok (b, int (size es))
  else
    let k := Z.min (size es) (n - 1) in
    b ← memcpy b 0 es k;
    b ← store b k NUL;
    Ok (b, int (size es)).

(** The loop of [completeLine]: [i] is the completion that is shown,
    or [lc.len] when the line itself is.  The result is
    [(nread, cbuf, c, l, rest)]. *)
Fixpoint completeLine_loop (fuel : nat) (lc : linenoiseCompletions) (l : linenoiseState)
    (i : Z) (input : list ascii)
  : result (Z * list ascii * Z * linenoiseState * list ascii) :=
  match fuel with
  | O => OutOfFuel
  | S fuel' =>
      (* Show completion or original buffer *)
      _ ← (if i <? lc_len lc then load (cvec lc) i else Ok EmptyString);
      let '(nread, cbuf, c, input) := defaultReadCode input in
      if nread <=? 0 then Ok (nread, cbuf, -1, l, input)
      else if c =? TAB then
        completeLine_loop fuel' lc l (size_t (i + 1) mod size_t (lc_len lc + 1)) input
      else if c =? ESC then Ok (nread, cbuf, c, l, input)
      else if i <? lc_len lc then
        (* Update buffer and return *)
        e ← load (cvec lc) i;
        '(b, nwritten) ← snprintf_s (buf l) (buflen l) e;
        Ok (nread, cbuf, c,
            mkState b (buflen l) (size_t nwritten) (size_t nwritten) (history_index l),
            input)
      else Ok (nread, cbuf, c, l, input)
  end.

(** This is an helper function for linenoiseEdit() and is called when the
    user types the <tab> key in order to complete the string currently in
    the input. *)
Definition completeLine (completionCallback : completion_callback) (l : linenoiseState)
    (cbuf : list ascii) (input : list ascii)
  : result (Z * list ascii * Z * linenoiseState * list ascii) :=
  text ← strdup (buf l);
  let lc := completionCallback text (mkCompletions 0 []) in
  if lc_len lc =? 0 then Ok (0, cbuf, 0, l, input)
  else completeLine_loop (S (length input)) lc l 0 input.

(** A completion callback that proposes two commands, whatever the
    line. *)
Definition complete_commands : completion_callback :=
  fun _ lc => linenoiseAddCompletion (linenoiseAddCompletion lc "hello"%string)
               "history"%string.

(** ** Key codes

    [linenoisePrintKeyCodes] does not return at the end of the input,
    where [read] gives 0 again and again: the loop has a fuel, and the
    input and what has been written are what the function returns. *)

(** [isprint], in the C locale. *)
Definition isprint (c : Z) : bool := (32 <=? c) && (c <=? 126).

(** [printf("%02x", n)] for an [int]. *)
Definition hex2 (n : Z) : list ascii :=
  let s := list_ascii_of_string
             (HexadecimalString.NilZero.string_of_uint
                (N.to_hex_uint (Z.to_N (n mod 2 ^ 32)))) in
  if (length s <? 2)%nat then "0"%char :: s else s.

(** What is printed for a key. *)
Definition key_code_line (c : ascii) : list ascii :=
  "'"%char :: (if isprint (char_to_int c) then c else "?"%char)
  :: list_ascii_of_string "' " ++ hex2 (char_to_int c)
  ++ list_ascii_of_string " (" ++ decimal (char_to_int c)
  ++ list_ascii_of_string ") (type quit to exit)" ++ [NEWLINE; CARRIAGE_RETURN].

(** [memcmp(a, b, n) == 0] *)
Fixpoint bytes_eqb (a b : list ascii) : bool :=
  match a, b with
  | [], [] => true
  | x :: a', y :: b' => Ascii.eqb x y && bytes_eqb a' b'
  | _, _ => false
  end.

Definition memcmp_eq (a b : list ascii) (n : Z) : result bool :=
  if (0 <=? n) && (n <=? size a) && (n <=? size b)
  then Ok (bytes_eqb (take (Z.to_nat n) a) (take (Z.to_nat n) b))
  else OutOfBounds n.

Fixpoint linenoisePrintKeyCodes_loop (fuel : nat) (quit : list ascii) (input : list ascii)
    (out : list ascii) : result (list ascii * list ascii) :=
  match fuel with
  | O => OutOfFuel
  | S fuel' =>
      match input with
      | [] => (* nread <= 0 *) linenoisePrintKeyCodes_loop fuel' quit [] out
      | c :: input =>
          (* shift string to left. *)
          quit ← memmove quit 0 1 3;
          (* Insert current char on the right. *)
          quit ← store quit 3 c;
          same ← memcmp_eq quit (list_ascii_of_string "quit") 4;
          if same : bool then Ok (out, input)
          else linenoisePrintKeyCodes_loop fuel' quit input (out ++ key_code_line c)
      end
  end.

(** What is printed first. *)
Definition key_codes_banner : list ascii :=
  list_ascii_of_string "Linenoise key codes debugging mode." ++ [NEWLINE]
  ++ list_ascii_of_string "Press keys to see scan codes. Type 'quit' at any time to exit."
  ++ [NEWLINE].

(** This special mode is used by linenoise in order to print scan codes
    on screen for debugging / development purposes. *)
Definition linenoisePrintKeyCodes (env : environment) (fuel : nat) (input : list ascii)
  : result (list ascii * list ascii) :=
  let out := key_codes_banner in
  if enableRawMode env =? -1 then Ok (out, input)
  else linenoisePrintKeyCodes_loop fuel (replicate 4 " "%char) input out.

(** The bytes [q], [u], [i], [t] in a row, somewhere in [l]. *)
Fixpoint starts_with_bytes (p l : list ascii) : bool :=
  match p, l with
  | [], _ => true
  | x :: p', y :: l' => Ascii.eqb x y && starts_with_bytes p' l'
  | _ :: _, [] => false
  end.

Fixpoint has_quit (l : list ascii) : bool :=
  starts_with_bytes (list_ascii_of_string "quit") l
  || match l with
     | [] => false
     | _ :: l' => has_quit l'
     end.

(** * Properties *)

(** ** Lists as arrays: lengths and lookups *)

Ltac norm_len :=
  repeat first
    [ rewrite length_app | rewrite length_insert | rewrite length_drop
    | rewrite length_replicate | rewrite length_fmap
    | rewrite length_take_le by (norm_len; lia)
    | rewrite length_take
    | progress cbn [length] ].

Ltac len_lia := unfold size in *; norm_len; lia.

Ltac look :=
  unfold size in *;
  repeat first
    [ rewrite lookup_app_l by len_lia
    | rewrite lookup_app_r by len_lia
    | rewrite lookup_take_lt by len_lia
    | rewrite lookup_take_ge by len_lia
    | rewrite lookup_drop
    | rewrite list_lookup_insert_ne by len_lia
    | rewrite list_lookup_insert_eq by len_lia ];
  norm_len.

Ltac step_state :=
  cbn [mbind result_bind set_buf set_pos set_len set_history_index
       buf pos len buflen history_index].

(** ** Machine integers and memory accesses *)

Lemma size_t_id (z : Z) : 0 <= z < 2 ^ 64 -> size_t z = z.
Proof. intros H. unfold size_t. apply Z.mod_small. exact H. Qed.

Lemma int_id (z : Z) : - 2 ^ 31 <= z < 2 ^ 31 -> int z = z.
Proof. intros H. unfold int. rewrite Z.mod_small; lia. Qed.

Lemma load_outside {A : Type} (b : list A) (i : Z) :
  size b <= i -> load b i = OutOfBounds i.
Proof.
  intros H. unfold load.
  destruct (0 <=? i); simpl; [|reflexivity].
  destruct (Z.ltb_spec i (size b)); [lia | reflexivity].
Qed.

Lemma load_inside {A : Type} (b : list A) (i : Z) (c : A) :
  0 <= i -> b !! Z.to_nat i = Some c -> load b i = Ok c.
Proof.
  intros Hi Hc. unfold load.
  pose proof (lookup_lt_Some _ _ _ Hc) as Hlt.
  destruct (Z.leb_spec 0 i); [|lia].
  destruct (Z.ltb_spec i (size b)) as [_|Hge]; simpl.
  - rewrite Hc. reflexivity.
  - unfold size in Hge. lia.
Qed.

Lemma load_Ok_inv {A : Type} (b : list A) (i : Z) (c : A) :
  load b i = Ok c -> 0 <= i < size b /\ b !! Z.to_nat i = Some c.
Proof.
  unfold load. intros H.
  destruct (Z.leb_spec 0 i); simpl in H; [|discriminate].
  destruct (Z.ltb_spec i (size b)); simpl in H; [|discriminate].
  destruct (b !! Z.to_nat i); [|discriminate].
  injection H as ->. auto.
Qed.

Lemma store_inside {A : Type} (b : list A) (i : Z) (c : A) :
  0 <= i < size b -> store b i c = Ok (<[Z.to_nat i := c]> b).
Proof.
  intros H. unfold store.
  destruct (Z.leb_spec 0 i); [|lia].
  destruct (Z.ltb_spec i (size b)); [reflexivity|lia].
Qed.

Lemma memmove_inside {A : Type} (b : list A) (dst src n : Z) :
  0 <= n -> 0 <= src -> src + n <= size b -> 0 <= dst -> dst + n <= size b ->
  memmove b dst src n
  = Ok (take (Z.to_nat dst) b ++ take (Z.to_nat n) (drop (Z.to_nat src) b)
        ++ drop (Z.to_nat (dst + n)) b).
Proof.
  intros. unfold memmove.
  repeat match goal with
         | |- context [?a <=? ?c] => destruct (Z.leb_spec a c); [|lia]
         end.
  reflexivity.
Qed.

Lemma memcpy_inside {A : Type} (b : list A) (dst : Z) (src : list A) (n : Z) :
  0 <= n <= size src -> 0 <= dst -> dst + n <= size b ->
  memcpy b dst src n
  = Ok (take (Z.to_nat dst) b ++ take (Z.to_nat n) src ++ drop (Z.to_nat (dst + n)) b).
Proof.
  intros. unfold memcpy.
  repeat match goal with
         | |- context [?a <=? ?c] => destruct (Z.leb_spec a c); [|lia]
         end.
  reflexivity.
Qed.

Lemma load_is_Ok {A : Type} (b : list A) (i : Z) :
  0 <= i < size b -> exists c, load b i = Ok c.
Proof.
  intros H. destruct (lookup_lt_is_Some_2 b (Z.to_nat i)) as [c Hc]; [len_lia|].
  exists c. apply load_inside; [lia|exact Hc].
Qed.

Lemma store_Ok_inv {A : Type} (b b' : list A) (i : Z) (c : A) :
  store b i c = Ok b' -> 0 <= i < size b /\ b' = <[Z.to_nat i := c]> b.
Proof.
  unfold store. intros H.
  destruct (Z.leb_spec 0 i); simpl in H; [|discriminate].
  destruct (Z.ltb_spec i (size b)); simpl in H; [|discriminate].
  injection H as <-. auto.
Qed.

Lemma load_store_eq {A : Type} (b b' : list A) (i : Z) (c : A) :
  store b i c = Ok b' -> load b' i = Ok c.
Proof.
  intros H. apply store_Ok_inv in H as [Hi ->].
  apply load_inside; [lia|]. apply list_lookup_insert_eq. len_lia.
Qed.

Lemma store_size {A : Type} (b b' : list A) (i : Z) (c : A) :
  store b i c = Ok b' -> size b' = size b.
Proof. intros H. apply store_Ok_inv in H as [_ ->]. len_lia. Qed.

Lemma load_store_ne {A : Type} (b b' : list A) (i j : Z) (c : A) :
  store b i c = Ok b' -> 0 <= j -> i <> j -> load b' j = load b j.
Proof.
  intros H Hj Hne. apply store_Ok_inv in H as [Hi ->].
  unfold load. replace (size (<[Z.to_nat i:=c]> b)) with (size b) by len_lia.
  rewrite list_lookup_insert_ne by lia. reflexivity.
Qed.

Lemma memmove_Ok_inv {A : Type} (b b' : list A) (dst src n : Z) :
  memmove b dst src n = Ok b' ->
  0 <= n /\ 0 <= src /\ src + n <= size b /\ 0 <= dst /\ dst + n <= size b
  /\ b' = take (Z.to_nat dst) b ++ take (Z.to_nat n) (drop (Z.to_nat src) b)
          ++ drop (Z.to_nat (dst + n)) b.
Proof.
  unfold memmove. intros H.
  destruct (Z.leb_spec 0 n); simpl in H; [|discriminate].
  destruct (Z.leb_spec 0 src); simpl in H; [|discriminate].
  destruct (Z.leb_spec (src + n) (size b)); simpl in H; [|discriminate].
  destruct (Z.leb_spec 0 dst); simpl in H; [|discriminate].
  destruct (Z.leb_spec (dst + n) (size b)); simpl in H; [|discriminate].
  injection H as <-. auto 10.
Qed.

Lemma memmove_size {A : Type} (b b' : list A) (dst src n : Z) :
  memmove b dst src n = Ok b' -> size b' = size b.
Proof. intros H. apply memmove_Ok_inv in H as (? & ? & ? & ? & ? & ->). len_lia. Qed.

Lemma load_memmove {A : Type} (b b' : list A) (dst src n k : Z) :
  memmove b dst src n = Ok b' -> 0 <= k < n -> load b' (dst + k) = load b (src + k).
Proof.
  intros H Hk. pose proof (memmove_size _ _ _ _ _ H) as Hsz.
  apply memmove_Ok_inv in H as (? & ? & ? & ? & ? & Hb').
  unfold load. rewrite Hsz.
  destruct (Z.leb_spec 0 (dst + k)); [|lia].
  destruct (Z.leb_spec 0 (src + k)); [|lia].
  destruct (Z.ltb_spec (dst + k) (size b)); [|lia].
  destruct (Z.ltb_spec (src + k) (size b)); [|lia].
  cbn [andb]. subst b'.
  rewrite lookup_app_r by len_lia.
  rewrite lookup_app_l by len_lia.
  rewrite lookup_take_lt by len_lia.
  rewrite lookup_drop.
  match goal with
  | |- context [b !! ?i] => replace i with (Z.to_nat (src + k)) by len_lia
  end.
  destruct (b !! Z.to_nat (src + k)) eqn:E; [reflexivity|].
  apply lookup_ge_None in E. len_lia.
Qed.

Lemma memcpy_size {A : Type} (b b' src : list A) (dst n : Z) :
  memcpy b dst src n = Ok b' -> size b' = size b.
Proof.
  unfold memcpy. intros H.
  destruct (Z.leb_spec 0 n); simpl in H; [|discriminate].
  destruct (Z.leb_spec n (size src)); simpl in H; [|discriminate].
  destruct (Z.leb_spec 0 dst); simpl in H; [|discriminate].
  destruct (Z.leb_spec (dst + n) (size b)); simpl in H; [|discriminate].
  injection H as <-. len_lia.
Qed.

(** Inversion of a bind. *)
Lemma bind_Ok {A B : Type} (r : result A) (k : A -> result B) (y : B) :
  (x ← r; k x) = Ok y -> exists x, r = Ok x /\ k x = Ok y.
Proof. destruct r; cbn; intros H; [eauto|discriminate|discriminate]. Qed.

Ltac inv_bind H :=
  repeat match type of H with
         | (mbind _ _) = Ok _ =>
             let x := fresh "x" in
             let Hx := fresh "Hx" in
             let H' := fresh "H" in
             apply bind_Ok in H as (x & Hx & H'); rename H' into H
         end.

(** ** The scans of the word operations *)

(** The scans stay between the cursor and the end they move to. *)

Lemma scan_right_bounds (sp : bool) (b : list ascii) (n : Z) (fuel : nat) :
  n <= size b -> n < 2 ^ 64 ->
  forall p, 0 <= p <= n -> (Z.to_nat (n - p) < fuel)%nat ->
  exists p', scan_right sp fuel b n p = Ok p' /\ p <= p' <= n.
Proof.
  intros Hn Hn'. induction fuel as [|fuel IH]; intros p Hp Hfuel; [lia|].
  cbn [scan_right]. destruct (Z.ltb_spec p n).
  - destruct (load_is_Ok b p ltac:(lia)) as [c ->]. cbn [mbind result_bind].
    destruct (Bool.eqb (is_space c) sp).
    + rewrite size_t_id by lia.
      destruct (IH (p + 1)) as (p' & -> & Hp'); [lia|lia|].
      exists p'. split; [reflexivity|lia].
    + exists p. split; [reflexivity|lia].
  - exists p. split; [reflexivity|lia].
Qed.

Lemma scan_left_bounds (sp : bool) (b : list ascii) (fuel : nat) :
  size b < 2 ^ 64 ->
  forall p, 0 <= p <= size b -> (Z.to_nat p < fuel)%nat ->
  exists p', scan_left sp fuel b p = Ok p' /\ 0 <= p' <= p.
Proof.
  intros Hb. induction fuel as [|fuel IH]; intros p Hp Hfuel; [lia|].
  cbn [scan_left]. destruct (Z.ltb_spec 0 p).
  - rewrite size_t_id by lia.
    destruct (load_is_Ok b (p - 1) ltac:(lia)) as [c ->]. cbn [mbind result_bind].
    destruct (Bool.eqb (is_space c) sp).
    + destruct (IH (p - 1)) as (p' & -> & Hp'); [lia|lia|].
      exists p'. split; [reflexivity|lia].
    + exists p. split; [reflexivity|lia].
  - exists p. split; [reflexivity|lia].
Qed.

Lemma scan_left_at_bounds (b : list ascii) (fuel : nat) :
  size b < 2 ^ 64 ->
  forall p, 0 <= p < size b -> (Z.to_nat p < fuel)%nat ->
  exists p', scan_left_at fuel b p = Ok p' /\ 0 <= p' <= p.
Proof.
  intros Hb. induction fuel as [|fuel IH]; intros p Hp Hfuel; [lia|].
  cbn [scan_left_at]. destruct (Z.ltb_spec 0 p).
  - destruct (load_is_Ok b p ltac:(lia)) as [c ->]. cbn [mbind result_bind].
    destruct (is_space c).
    + rewrite size_t_id by lia.
      destruct (IH (p - 1)) as (p' & -> & Hp'); [lia|lia|].
      exists p'. split; [reflexivity|lia].
    + exists p. split; [reflexivity|lia].
  - exists p. split; [reflexivity|lia].
Qed.

(** ** Insertion *)

Lemma session_start_capacity (b : list ascii) (l : linenoiseState) :
  session_start b = Ok l -> size b < 2 ^ 64 ->
  capacity l = size b /\ size (buf l) = size b /\ pos l = 0 /\ len l = 0.
Proof.
  unfold session_start, store. intros H Hb.
  destruct ((0 <=? 0) && (0 <? size b)) eqn:E; [|discriminate].
  apply andb_prop in E as [_ E]. apply Z.ltb_lt in E.
  cbn in H. injection H as <-. unfold capacity. cbn.
  rewrite size_t_id by lia. repeat split; len_lia.
Qed.

(** C3, as amended.  An insertion of [clen] bytes that would bring the
    length to the capacity or beyond (the last byte of the buffer is
    kept for the terminator) changes nothing and returns 0.  Any other
    insertion puts the bytes at the cursor, in front of what followed it,
    moves the cursor and the length forward by [clen], and writes the
    terminator after the line. *)
Theorem linenoiseEditInsert_capacity (wfail : bool) (l : linenoiseState)
    (cbuf : list ascii) (clen : Z) :
  0 <= pos l <= len l -> capacity l <= size (buf l) ->
  0 <= clen <= size cbuf -> len l + clen < 2 ^ 64 ->
  (capacity l <= len l + clen -> linenoiseEditInsert wfail l cbuf clen = Ok (l, 0))
  /\ (len l + clen < capacity l ->
      exists b,
        linenoiseEditInsert wfail l cbuf clen
        = Ok (mkState b (buflen l) (pos l + clen) (len l + clen) (history_index l),
              if wfail && (len l =? pos l) then -1 else 0)
        /\ take (Z.to_nat (len l + clen)) b
           = take (Z.to_nat (pos l)) (buf l) ++ take (Z.to_nat clen) cbuf
             ++ take (Z.to_nat (len l - pos l)) (drop (Z.to_nat (pos l)) (buf l))
        /\ load b (len l + clen) = Ok NUL).
Proof.
  destruct l as [b bl p n hi]; unfold capacity; simpl.
  intros Hpos Hcap Hclen Hno. unfold linenoiseEditInsert; simpl.
  rewrite (size_t_id (n + clen)) by lia.
  split; intros Hc.
  - destruct (Z.leb_spec (n + clen) bl); [lia|reflexivity].
  - destruct (Z.leb_spec (n + clen) bl); [|lia].
    rewrite (size_t_id clen) by lia.
    rewrite (size_t_id (p + clen)) by lia.
    destruct (Z.eqb_spec n p) as [->|Hne].
    + rewrite memcpy_inside by lia. step_state.
      rewrite store_inside by len_lia. step_state.
      eexists; split; [destruct wfail; reflexivity|]. split.
      * rewrite Z.sub_diag, take_0, app_nil_r.
        rewrite take_insert_ge by lia.
        rewrite app_assoc. rewrite take_app_length'; [reflexivity|].
        len_lia.
      * apply load_inside; [lia|]. apply list_lookup_insert_eq. len_lia.
    + rewrite (size_t_id (n - p)) by lia.
      rewrite memmove_inside by lia. step_state.
      rewrite memcpy_inside by (try lia; len_lia). step_state.
      rewrite store_inside by len_lia. step_state.
      eexists; split; [rewrite andb_false_r; reflexivity|]. split.
      * rewrite take_insert_ge by lia.
        apply list_eq. intros i.
        destruct (decide (i < Z.to_nat (n + clen))%nat) as [Hi|Hi].
        2:{ rewrite lookup_take_ge by lia. symmetry. apply lookup_ge_None. len_lia. }
        rewrite lookup_take_lt by lia.
        destruct (decide (i < Z.to_nat p)%nat).
        { look; first [reflexivity | f_equal; len_lia]. }
        destruct (decide (i < Z.to_nat (p + clen))%nat).
        { look; first [reflexivity | f_equal; len_lia]. }
        look; first [reflexivity | f_equal; len_lia].
      * apply load_inside; [lia|]. apply list_lookup_insert_eq. len_lia.
Qed.

Lemma linenoiseEditInsert_capacity_witness :
  let l := editing "ab" 4 1 in
  (capacity l <= len l + 1 -> linenoiseEditInsert false l ["d"%char] 1 = Ok (l, 0))
  /\ (len l + 1 < capacity l ->
      exists b,
        linenoiseEditInsert false l ["d"%char] 1
        = Ok (mkState b (buflen l) (pos l + 1) (len l + 1) (history_index l),
              if false && (len l =? pos l) then -1 else 0)
        /\ take (Z.to_nat (len l + 1)) b
           = take (Z.to_nat (pos l)) (buf l) ++ take (Z.to_nat 1) ["d"%char]
             ++ take (Z.to_nat (len l - pos l)) (drop (Z.to_nat (pos l)) (buf l))
        /\ load b (len l + 1) = Ok NUL).
Proof.
  apply (linenoiseEditInsert_capacity false (editing "ab" 4 1) ["d"%char] 1);
    unfold capacity, size; simpl; lia.
Defined.

(** C3, as it is stated, fails where the insertion brings the length
    exactly to the capacity.  In a session on a buffer of 4 bytes, once
    "abc" is typed, one more byte does not make the length exceed the
    capacity, and yet nothing is inserted: the line, the length and the
    cursor stay as they are. *)
Lemma Insert_reaching_the_capacity_is_refused :
  exists r l h,
    linenoiseEdit defaultEncoding false NUL (replicate 4 NUL) 4 history_init (keys "abc")
    = Ok (r, l, h, [])
    /\ size (buf l) = 4 /\ capacity l = 4 /\ pos l = 3 /\ len l = 3
    /\ linenoiseEditInsert false l ["d"%char] 1 = Ok (l, 0)
    /\ ~ (~ capacity l < len l + 1 ->
          exists l' r',
            linenoiseEditInsert false l ["d"%char] 1 = Ok (l', r')
            /\ pos l' = pos l + 1 /\ len l' = len l + 1).
Proof.
  eexists _, _, _. split; [vm_compute; reflexivity|].
  do 5 (split; [reflexivity|]).
  intros H. destruct H as (l' & r' & Hrun & Hpos & _).
  - vm_compute. discriminate.
  - vm_compute in Hrun. injection Hrun as <- _. vm_compute in Hpos. discriminate.
Qed.

(** ** The invariant of the editing state *)

Lemma linenoiseEditInsert_ok (wfail : bool) (l l' : linenoiseState)
    (cbuf : list ascii) (clen r : Z) :
  state_ok l -> 0 <= clen <= size cbuf -> size cbuf < 2 ^ 63 ->
  linenoiseEditInsert wfail l cbuf clen = Ok (l', r) ->
  state_ok l' /\ capacity l' = capacity l.
Proof.
  destruct l as [b bl p n hi]. unfold state_ok, cursor_length_capacity, capacity. cbn [buf buflen pos len].
  intros (Hinv & Hcap & Hsz) Hclen Hcb. unfold linenoiseEditInsert. step_state.
  rewrite (size_t_id (n + clen)) by lia.
  destruct (Z.leb_spec (n + clen) bl).
  2:{ intros [= <- <-]. cbn. lia. }
  rewrite (size_t_id clen), (size_t_id (p + clen)) by lia.
  destruct (Z.eqb_spec n p).
  - intros Hrun. inv_bind Hrun. apply memcpy_size in Hx. apply store_size in Hx0. cbn in Hx0.
    destruct wfail; cbn in Hrun; injection Hrun as <- <-; cbn; lia.
  - intros Hrun. inv_bind Hrun. apply memmove_size in Hx. apply memcpy_size in Hx0.
    apply store_size in Hx1. cbn in Hx1. injection Hrun as <- <-. cbn. lia.
Qed.

Lemma apply_op_ok (o : edit_op) (l l' : linenoiseState) :
  state_ok l -> op_ok o -> apply_op defaultEncoding o l = Ok l' ->
  state_ok l' /\ capacity l' = capacity l.
Proof.
  intros Hok Hop. pose proof Hok as ((Hpos & Hlen) & Hcap & Hsz).
  unfold capacity in *.
  destruct o; cbn [apply_op]; intros H.
  - inv_bind H. destruct x as [l1 r]. injection H as <-. cbn [fst].
    destruct Hop. eapply linenoiseEditInsert_ok; eauto.
  - (* Delete *)
    unfold linenoiseEditDelete in H. step_state.
    destruct (Z.ltb_spec 0 (len l)), (Z.ltb_spec (pos l) (len l)); cbn [andb] in H;
      try (injection H as <-; auto).
    cbn [defaultEncoding nextCharLen defaultNextCharLen fst] in H. change (int 1) with 1 in H.
    inv_bind H. injection H as <-. apply memmove_size in Hx. apply store_size in Hx0.
    unfold state_ok, cursor_length_capacity, capacity. cbn in *.
    rewrite size_t_id in * by lia. lia.
  - (* Backspace *)
    unfold linenoiseEditBackspace in H. step_state.
    destruct (Z.ltb_spec 0 (pos l)), (Z.ltb_spec 0 (len l)); cbn [andb] in H;
      try (injection H as <-; auto).
    cbn [defaultEncoding prevCharLen defaultPrevCharLen fst] in H. change (int 1) with 1 in H.
    inv_bind H. injection H as <-. apply memmove_size in Hx. apply store_size in Hx0.
    unfold state_ok, cursor_length_capacity, capacity. cbn in *.
    rewrite !size_t_id in * by lia. lia.
  - (* MoveLeft *)
    injection H as <-. unfold linenoiseEditMoveLeft.
    destruct (Z.ltb_spec 0 (pos l)); [|auto].
    unfold state_ok, cursor_length_capacity, capacity. cbn.
    rewrite size_t_id by lia. lia.
  - (* MoveRight *)
    injection H as <-. unfold linenoiseEditMoveRight.
    destruct (Z.eqb_spec (pos l) (len l)); cbn [negb]; [auto|].
    unfold state_ok, cursor_length_capacity, capacity. cbn.
    rewrite size_t_id by lia. lia.
  - injection H as <-. unfold linenoiseEditMoveHome.
    destruct (Z.eqb_spec (pos l) 0); cbn [negb]; [auto|].
    unfold state_ok, cursor_length_capacity, capacity. cbn. lia.
  - injection H as <-. unfold linenoiseEditMoveEnd.
    destruct (Z.eqb_spec (pos l) (len l)); cbn [negb]; [auto|].
    unfold state_ok, cursor_length_capacity, capacity. cbn. lia.
  - (* MoveWordStart: it returned, so the first read was inside *)
    unfold linenoiseEditMoveWordStart in H.
    destruct (Z.eqb_spec (len l) 0); [injection H as <-; auto|].
    inv_bind H. injection H as <-.
    apply load_Ok_inv in Hx as [Hx _].
    assert (0 < pos l).
    { destruct (Z.eq_dec (pos l) 0) as [E|]; [|lia].
      rewrite E in Hx. change (size_t (0 - 1)) with (2 ^ 64 - 1) in Hx. lia. }
    rewrite (size_t_id (pos l - 1)) in * by lia.
    set (p := if is_space x then pos l - 1 else pos l) in *.
    assert (0 <= p <= pos l) as Hp by (subst p; destruct (is_space x); lia).
    assert (0 <= x1 <= p) as Hx1'.
    { destruct (is_space x0); [|injection Hx1 as <-; lia].
      destruct (scan_left_at_bounds (buf l) (fuel_of p) ltac:(lia) p ltac:(lia)
                  ltac:(unfold fuel_of; lia)) as (p' & Hp' & ?).
      rewrite Hp' in Hx1. injection Hx1 as <-. lia. }
    destruct (scan_left_bounds false (buf l) (fuel_of x1) ltac:(lia) x1 ltac:(lia)
                ltac:(unfold fuel_of; lia)) as (p' & Hp' & ?).
    rewrite Hp' in Hx2. injection Hx2 as <-.
    unfold state_ok, cursor_length_capacity, capacity. cbn. lia.
  - (* MoveWordEnd *)
    unfold linenoiseEditMoveWordEnd in H.
    destruct (Z.eqb_spec (len l) 0); cbn [orb] in H; [injection H as <-; auto|].
    destruct (Z.leb_spec (len l) (pos l)); [injection H as <-; auto|].
    inv_bind H. injection H as <-.
    assert (pos l <= x0 <= len l) as Hx0'.
    { destruct (is_space x); [|injection Hx0 as <-; lia].
      destruct (scan_right_bounds true (buf l) (len l) (fuel_of (len l - pos l))
                  ltac:(lia) ltac:(lia) (pos l) ltac:(lia) ltac:(unfold fuel_of; lia))
        as (p' & Hp' & ?).
      rewrite Hp' in Hx0. injection Hx0 as <-. lia. }
    destruct (scan_right_bounds false (buf l) (len l) (fuel_of (len l - x0))
                ltac:(lia) ltac:(lia) x0 ltac:(lia) ltac:(unfold fuel_of; lia))
      as (p' & Hp' & ?).
    rewrite Hp' in Hx1. injection Hx1 as <-.
    unfold state_ok, cursor_length_capacity, capacity. cbn. lia.
Qed.

Lemma linenoiseEditInsert_defined (wfail : bool) (l : linenoiseState)
    (cbuf : list ascii) (clen : Z) :
  0 <= pos l <= len l -> len l < capacity l -> capacity l <= size (buf l) ->
  size (buf l) < 2 ^ 63 -> 0 <= clen <= size cbuf -> size cbuf < 2 ^ 63 ->
  exists l' r, linenoiseEditInsert wfail l cbuf clen = Ok (l', r).
Proof.
  destruct l as [b bl p n hi]; unfold capacity; cbn [buf buflen pos len].
  intros Hpos Hlen Hcap Hsz Hclen Hcb. unfold linenoiseEditInsert. step_state.
  rewrite (size_t_id (n + clen)) by lia.
  destruct (Z.leb_spec (n + clen) bl); [|eauto].
  rewrite (size_t_id clen), (size_t_id (p + clen)) by lia.
  destruct (Z.eqb_spec n p).
  - rewrite memcpy_inside by lia. step_state.
    rewrite store_inside by len_lia. step_state. destruct wfail; eauto.
  - rewrite (size_t_id (n - p)) by lia.
    rewrite memmove_inside by lia. step_state.
    rewrite memcpy_inside by (try lia; len_lia). step_state.
    rewrite store_inside by len_lia. step_state. eauto.
Qed.

Lemma apply_op_defined (o : edit_op) (l : linenoiseState) :
  state_ok l -> op_ok o ->
  (o = MoveWordStart -> len l = 0 \/ 0 < pos l) ->
  exists l', apply_op defaultEncoding o l = Ok l'.
Proof.
  intros ((Hpos & Hlen) & Hcap & Hsz) Hop Hmws. unfold capacity in *.
  destruct o; cbn [apply_op]; eauto.
  - (* Insert *)
    destruct Hop as [Hclen Hcb].
    destruct (linenoiseEditInsert_defined false l cbuf clen) as (l' & r & ->);
      [unfold capacity; lia..|].
    cbn. eauto.
  - (* Delete *)
    unfold linenoiseEditDelete.
    destruct (Z.ltb_spec 0 (len l)), (Z.ltb_spec (pos l) (len l)); cbn [andb]; eauto.
    cbn [defaultEncoding nextCharLen defaultNextCharLen fst]. change (int 1) with 1.
    rewrite !size_t_id by lia.
    rewrite memmove_inside by lia. step_state.
    rewrite store_inside by len_lia. cbn. eauto.
  - (* Backspace *)
    unfold linenoiseEditBackspace.
    destruct (Z.ltb_spec 0 (pos l)), (Z.ltb_spec 0 (len l)); cbn [andb]; eauto.
    cbn [defaultEncoding prevCharLen defaultPrevCharLen fst]. change (int 1) with 1.
    step_state. rewrite !size_t_id by lia.
    rewrite memmove_inside by lia. step_state.
    rewrite store_inside by len_lia. cbn. eauto.
  - (* MoveWordStart *)
    unfold linenoiseEditMoveWordStart.
    destruct (Z.eqb_spec (len l) 0); [eauto|].
    destruct Hmws as [?|Hp0]; [reflexivity|lia|].
    rewrite size_t_id by lia.
    destruct (load_is_Ok (buf l) (pos l - 1) ltac:(lia)) as [c ->]. cbn [mbind result_bind].
    set (p := if is_space c then pos l - 1 else pos l).
    assert (0 <= p <= pos l) as Hp by (subst p; destruct (is_space c); lia).
    destruct (load_is_Ok (buf l) p ltac:(lia)) as [c' ->]. cbn [mbind result_bind].
    assert (exists p1, (if is_space c' then scan_left_at (fuel_of p) (buf l) p else Ok p) = Ok p1
                       /\ 0 <= p1 <= p) as (p1 & -> & Hp1).
    { destruct (is_space c'); [|exists p; split; [reflexivity|lia]].
      apply scan_left_at_bounds; unfold fuel_of; lia. }
    cbn [mbind result_bind].
    destruct (scan_left_bounds false (buf l) (fuel_of p1) ltac:(lia) p1 ltac:(lia)
                ltac:(unfold fuel_of; lia)) as (p2 & -> & Hp2).
    cbn. eauto.
  - (* MoveWordEnd *)
    unfold linenoiseEditMoveWordEnd.
    destruct (Z.eqb_spec (len l) 0); cbn [orb]; [eauto|].
    destruct (Z.leb_spec (len l) (pos l)); [eauto|].
    destruct (load_is_Ok (buf l) (pos l) ltac:(lia)) as [c ->]. cbn [mbind result_bind].
    assert (exists p1, (if is_space c
                        then scan_right true (fuel_of (len l - pos l)) (buf l) (len l) (pos l)
                        else Ok (pos l)) = Ok p1
                       /\ pos l <= p1 <= len l) as (p1 & -> & Hp1).
    { destruct (is_space c); [|exists (pos l); split; [reflexivity|lia]].
      apply scan_right_bounds; unfold fuel_of; lia. }
    cbn [mbind result_bind].
    destruct (scan_right_bounds false (buf l) (len l) (fuel_of (len l - p1))
                ltac:(lia) ltac:(lia) p1 ltac:(lia) ltac:(unfold fuel_of; lia))
      as (p2 & -> & Hp2).
    cbn. eauto.
Qed.

Lemma session_start_ok (b : list ascii) :
  0 < size b < 2 ^ 63 ->
  exists l, session_start b = Ok l /\ state_ok l /\ capacity l = size b.
Proof.
  intros Hb. unfold session_start. rewrite store_inside by lia. cbn [mbind result_bind].
  eexists. split; [reflexivity|].
  unfold state_ok, cursor_length_capacity, capacity. cbn [buf pos len buflen].
  rewrite size_t_id by lia.
  assert (size (<[Z.to_nat 0:=NUL]> b) = size b) as -> by len_lia. lia.
Qed.

Lemma apply_ops_ok (os : list edit_op) :
  forall l l', state_ok l -> Forall op_ok os ->
    apply_ops defaultEncoding os l = Ok l' ->
    state_ok l' /\ capacity l' = capacity l.
Proof.
  induction os as [|o os IH]; intros l l' Hok Hos H; cbn [apply_ops] in H.
  - injection H as <-. auto.
  - apply bind_Ok in H as (l1 & H1 & H). inversion Hos; subst.
    destruct (apply_op_ok o l l1) as [Hok1 Hcap1]; [assumption..|].
    destruct (IH l1 l' Hok1) as [Hok' Hcap']; [assumption..|].
    split; [assumption|congruence].
Qed.

(** The invariant holds after every sequence of operations that runs to
    its end... *)
Lemma edit_invariant (b : list ascii) (os : list edit_op) (l' : linenoiseState) :
  0 < size b < 2 ^ 63 -> Forall op_ok os ->
  (l ← session_start b; apply_ops defaultEncoding os l) = Ok l' ->
  cursor_length_capacity (size b) l'.
Proof.
  intros Hb Hos H. destruct (session_start_ok b Hb) as (l & Hl & Hok & Hcap).
  rewrite Hl in H. cbn [mbind result_bind] in H.
  destruct (apply_ops_ok os l l' Hok Hos H) as [[Hinv _] Hcap'].
  rewrite <- Hcap, <- Hcap'. exact Hinv.
Qed.

(** ... and the only operation that does not is "word start" with the
    cursor at 0 in a line that is not empty. *)
Lemma apply_op_undefined (o : edit_op) (l : linenoiseState) :
  state_ok l -> op_ok o ->
  (forall l', apply_op defaultEncoding o l <> Ok l') ->
  o = MoveWordStart /\ pos l = 0 /\ len l <> 0.
Proof.
  intros Hok Hop Hno.
  destruct (Z.eq_dec (pos l) 0) as [Hp|Hp], (Z.eq_dec (len l) 0) as [Hl|Hl];
    try (destruct (apply_op_defined o l Hok Hop) as [l' Hl'];
         [destruct Hok as ((? & ?) & _); intros _; lia | exfalso; exact (Hno l' Hl')]).
  destruct o;
    try (destruct (apply_op_defined _ l Hok Hop) as [l' Hl'];
         [discriminate | exfalso; exact (Hno l' Hl')]).
  auto.
Qed.

(** C1 (the code departs from it).  In a session that starts empty, the
    keys a, Home, and "word start" end in a read outside the buffer: the
    state that follows is not defined, and neither is its cursor. *)
Theorem apply_ops_reaches_MoveWordStart_at_0 :
  let ops := [Insert ["a"%char] 1; MoveHome] in
  (exists l,
     (l0 ← session_start (replicate 16 NUL); apply_ops defaultEncoding ops l0) = Ok l
     /\ cursor_length_capacity 16 l /\ pos l = 0 /\ len l = 1)
  /\ (l0 ← session_start (replicate 16 NUL);
      apply_ops defaultEncoding (ops ++ [MoveWordStart]) l0)
     = OutOfBounds (2 ^ 64 - 1).
Proof.
  split; [|vm_compute; reflexivity].
  eexists. split; [vm_compute; reflexivity|].
  unfold cursor_length_capacity. simpl. lia.
Qed.

(** ** The terminator *)

Section Terminator.
Context (enc : encoding).

Lemma linenoiseEditInsert_terminator (wfail : bool) (l l' : linenoiseState)
    (cbuf : list ascii) (clen r : Z) :
  terminator l = Ok NUL ->
  linenoiseEditInsert wfail l cbuf clen = Ok (l', r) -> terminator l' = Ok NUL.
Proof.
  intros Ht. unfold linenoiseEditInsert.
  destruct (_ <=? _); [|intros [= <- _]; exact Ht].
  destruct (_ =? _); intros H; inv_bind H.
  - apply load_store_eq in Hx0. destruct wfail; injection H as <- _; exact Hx0.
  - apply load_store_eq in Hx1. injection H as <- _. exact Hx1.
Qed.

Lemma linenoiseEditDelete_terminator (l l' : linenoiseState) :
  terminator l = Ok NUL ->
  linenoiseEditDelete enc l = Ok l' -> terminator l' = Ok NUL.
Proof.
  intros Ht. unfold linenoiseEditDelete.
  destruct (_ && _); [|intros [= <-]; exact Ht].
  intros H; inv_bind H. apply load_store_eq in Hx0. injection H as <-. exact Hx0.
Qed.

Lemma linenoiseEditBackspace_terminator (l l' : linenoiseState) :
  terminator l = Ok NUL ->
  linenoiseEditBackspace enc l = Ok l' -> terminator l' = Ok NUL.
Proof.
  intros Ht. unfold linenoiseEditBackspace.
  destruct (_ && _); [|intros [= <-]; exact Ht].
  intros H; inv_bind H. apply load_store_eq in Hx0. injection H as <-. exact Hx0.
Qed.

Lemma ctrl_K_terminator (l l' : linenoiseState) :
  ctrl_K l = Ok l' -> terminator l' = Ok NUL.
Proof.
  unfold ctrl_K. intros H; inv_bind H. apply load_store_eq in Hx.
  injection H as <-. exact Hx.
Qed.

Lemma ctrl_U_terminator (l l' : linenoiseState) :
  ctrl_U l = Ok l' -> terminator l' = Ok NUL.
Proof.
  unfold ctrl_U. intros H; inv_bind H. apply load_store_eq in Hx.
  injection H as <-. exact Hx.
Qed.

Lemma ctrl_T_terminator (l l' : linenoiseState) :
  0 <= len l -> terminator l = Ok NUL ->
  ctrl_T l = Ok l' -> terminator l' = Ok NUL.
Proof.
  intros Hlen Ht. unfold ctrl_T.
  destruct (Z.ltb_spec 0 (pos l)), (Z.ltb_spec (pos l) (len l)); cbn [andb];
    try (intros [= <-]; exact Ht).
  intros Hrun; inv_bind Hrun.
  assert (terminator (set_buf x2 l) = Ok NUL) as Ht'.
  { unfold terminator in *. cbn [set_buf buf len].
    rewrite (load_store_ne _ _ _ _ _ Hx2) by lia.
    rewrite (load_store_ne _ _ _ _ _ Hx1) by lia. exact Ht. }
  injection Hrun as <-. destruct (negb _); exact Ht'.
Qed.

Lemma linenoiseEditDeletePrevWord_terminator (l l' : linenoiseState) :
  0 <= pos l <= len l -> len l < size (buf l) -> size (buf l) < 2 ^ 63 ->
  terminator l = Ok NUL ->
  linenoiseEditDeletePrevWord l = Ok l' -> terminator l' = Ok NUL.
Proof.
  intros Hpos Hlen Hsz Ht. unfold linenoiseEditDeletePrevWord.
  destruct (scan_left_bounds true (buf l) (fuel_of (pos l)) ltac:(lia) (pos l) ltac:(lia)
              ltac:(unfold fuel_of; lia)) as (p1 & -> & Hp1).
  cbn [mbind result_bind].
  destruct (scan_left_bounds false (buf l) (fuel_of p1) ltac:(lia) p1 ltac:(lia)
              ltac:(unfold fuel_of; lia)) as (p2 & -> & Hp2).
  cbn [mbind result_bind].
  rewrite (size_t_id (pos l - p2)), (size_t_id (len l - pos l + 1)),
    (size_t_id (len l - (pos l - p2))) by lia.
  intros H; inv_bind H. injection H as <-.
  unfold terminator in *. cbn [set_buf set_pos set_len buf len].
  replace (len l - (pos l - p2)) with (p2 + (len l - pos l)) by lia.
  rewrite (load_memmove _ _ _ _ _ (len l - pos l) Hx) by lia.
  replace (pos l + (len l - pos l)) with (len l) by lia. exact Ht.
Qed.

End Terminator.

(** C2 (the code departs from it).  [linenoiseEditDeleteNextWord] moves
    the bytes that follow the word, but not the terminator, and writes
    none: after it deletes "foo" from "foo bar", the length is 4 and
    [buf[4]] is the 'b' that was there before. *)
Theorem DeleteNextWord_leaves_the_old_byte :
  let l := editing "foo bar" 16 0 in
  terminator l = Ok NUL
  /\ exists l',
       linenoiseEditDeleteNextWord l = Ok l'
       /\ len l' = 4 /\ terminator l' = Ok "b"%char
       /\ line l' = Ok " barbar"%string.
Proof.
  split; [reflexivity|]. eexists. split; [vm_compute; reflexivity|].
  repeat split; reflexivity.
Qed.

(** ** Moving to the start of the word *)

(** For a cursor past 0, [linenoiseEditMoveWordStart] reads inside
    [0, len]: it runs to its end on the array cut after [buf[len]]. *)
Lemma MoveWordStart_reads_within (l : linenoiseState) :
  1 <= pos l <= len l -> len l < size (buf l) -> size (buf l) < 2 ^ 64 ->
  exists p,
    linenoiseEditMoveWordStart (set_buf (take (Z.to_nat (len l + 1)) (buf l)) l)
    = Ok (set_pos p (set_buf (take (Z.to_nat (len l + 1)) (buf l)) l))
    /\ 0 <= p <= pos l.
Proof.
  intros Hpos Hlen Hsz. unfold linenoiseEditMoveWordStart. step_state.
  set (b := take (Z.to_nat (len l + 1)) (buf l)).
  assert (size b = len l + 1) as Hb by (subst b; len_lia).
  destruct (Z.eqb_spec (len l) 0); [lia|].
  rewrite size_t_id by lia.
  destruct (load_is_Ok b (pos l - 1) ltac:(lia)) as [c ->]. cbn [mbind result_bind].
  set (p := if is_space c then pos l - 1 else pos l).
  assert (0 <= p <= pos l) as Hp by (subst p; destruct (is_space c); lia).
  destruct (load_is_Ok b p ltac:(lia)) as [c' ->]. cbn [mbind result_bind].
  assert (exists p1, (if is_space c' then scan_left_at (fuel_of p) b p else Ok p) = Ok p1
                     /\ 0 <= p1 <= p) as (p1 & -> & Hp1).
  { destruct (is_space c'); [|exists p; split; [reflexivity|lia]].
    apply scan_left_at_bounds; unfold fuel_of; lia. }
  cbn [mbind result_bind].
  destruct (scan_left_bounds false b (fuel_of p1) ltac:(lia) p1 ltac:(lia) ltac:(unfold fuel_of; lia))
    as (p2 & -> & Hp2).
  cbn [mbind result_bind]. exists p2. split; [reflexivity|lia].
Qed.

(** C10 (the code departs from it).  With the cursor at 0 in a line that
    is not empty, [linenoiseEditMoveWordStart] begins by reading
    [buf[pos-1]]: the index is [(size_t)-1], outside the buffer. *)
Theorem MoveWordStart_at_cursor_0 (l : linenoiseState) :
  len l <> 0 -> pos l = 0 -> size (buf l) < 2 ^ 64 ->
  linenoiseEditMoveWordStart l = OutOfBounds (2 ^ 64 - 1).
Proof.
  intros Hlen Hpos Hsize. unfold linenoiseEditMoveWordStart.
  destruct (Z.eqb_spec (len l) 0) as [E|_]; [contradiction|].
  rewrite Hpos. change (size_t (0 - 1)) with (2 ^ 64 - 1).
  rewrite load_outside by lia. reflexivity.
Qed.

Lemma MoveWordStart_at_cursor_0_witness :
  linenoiseEditMoveWordStart (editing "a" 16 0) = OutOfBounds (2 ^ 64 - 1).
Proof.
  apply MoveWordStart_at_cursor_0; [discriminate | reflexivity | reflexivity].
Defined.

(** ** The key decoder *)

(** After ESC, the byte 'O' is taken for a meta key: it is neither '[' nor
    the digit '0' that the test names.  No action is performed, and the
    byte that follows is left to be read as the next key. *)
Lemma escape_sequence_O (enc : encoding) (junk c : ascii) (l : linenoiseState)
    (h : historyState) (rest : list ascii) :
  escape_sequence enc junk l h ("O"%char :: c :: rest) = Ok (l, h, c :: rest).
Proof. reflexivity. Qed.

(** The branch written for ESC O is entered by ESC 0 only, where it does
    nothing. *)
Lemma escape_sequence_zero (enc : encoding) (junk c : ascii) (l : linenoiseState)
    (h : historyState) (rest : list ascii) :
  escape_sequence enc junk l h ("0"%char :: c :: rest) = Ok (l, h, rest).
Proof.
  unfold escape_sequence. cbn [read_seq is_char Ascii.eqb Bool.eqb negb andb].
  destruct (is_char c "H"), (is_char c "F"); reflexivity.
Qed.

(** The sibling sequence ESC [ H does move the cursor home. *)
Lemma escape_sequence_bracket_H (enc : encoding) (junk : ascii) (l : linenoiseState)
    (h : historyState) (rest : list ascii) :
  escape_sequence enc junk l h ("["%char :: "H"%char :: rest)
  = Ok (linenoiseEditMoveHome l, h, rest).
Proof. reflexivity. Qed.

(** The same read, reached from the keyboard: a, Ctrl-A, ESC b. *)
Lemma word_start_key_at_home :
  linenoiseEdit defaultEncoding false NUL (replicate 4096 NUL) 4096 history_init
    (keys "a" ++ [key CTRL_A; key ESC] ++ keys "b")
  = OutOfBounds (2 ^ 64 - 1).
Proof. vm_compute. reflexivity. Qed.

(** The lost terminator, reached from the keyboard: after "foo bar",
    Ctrl-A, ESC d and Enter, [linenoiseEdit] returns the length 4, and the
    buffer that [linenoise] then copies holds 7 characters. *)
Lemma delete_next_word_key_then_enter :
  exists l h,
    linenoiseEdit defaultEncoding false NUL (replicate 4096 NUL) 4096 history_init
      (keys "foo bar" ++ [key CTRL_A; key ESC] ++ keys "d" ++ [key ENTER])
    = Ok (4, l, h, [])
    /\ line l = Ok " barbar"%string.
Proof. eexists _, _. split; vm_compute; reflexivity. Qed.

(** C4 (the code departs from it).  Typing "ab" and then ESC O H leaves
    the cursor at the end and the letter H in the line; the claim has the
    cursor moved home, to 0, and the line still "ab". *)
Theorem ESC_O_H_types_an_H :
  let input := keys "ab" ++ [key ESC] ++ keys "OH" in
  exists r l h,
    linenoiseEdit defaultEncoding false NUL (replicate 4096 NUL) 4096 history_init input
    = Ok (r, l, h, [])
    /\ line l = Ok "abH"%string /\ pos l = 3 /\ len l = 3.
Proof.
  eexists _, _, _. split; [vm_compute; reflexivity|].
  split; [vm_compute; reflexivity|]. split; reflexivity.
Qed.

(** ** The history store *)

Lemma history_holds_newest (h : historyState) (ss : list string) :
  history_holds h ss -> history_len h <> 0 ->
  exists s, last ss = Some s /\ history_at h (history_len h - 1) = Ok s.
Proof.
  intros (Hlen & Hmax & Ha) Hne.
  destruct (history h) as [a|] eqn:E.
  2:{ subst ss. simpl in Hlen. unfold size in Hlen. simpl in Hlen. lia. }
  destruct Ha as [Hsz Htake].
  destruct (last ss) as [s|] eqn:El.
  2:{ apply last_None in El. subst ss. unfold size in Hlen; simpl in Hlen. lia. }
  exists s. split; [reflexivity|].
  unfold history_at. rewrite E.
  rewrite last_lookup in El.
  assert (a !! Z.to_nat (history_len h - 1) = Some (Some s)) as Hl.
  { rewrite <- (lookup_take_lt a (length ss)) by len_lia.
    rewrite Htake, list_lookup_fmap.
    replace (Z.to_nat (history_len h - 1)) with (pred (length ss)) by len_lia.
    rewrite El. reflexivity. }
  rewrite (load_inside a (history_len h - 1) (Some s)); [reflexivity|len_lia|exact Hl].
Qed.

Lemma last_Add_spec (m : Z) (line : string) (ss : list string) :
  m <> 0 -> last (Add_spec m line ss) = Some line.
Proof.
  intros Hm. unfold Add_spec, is_newest.
  destruct (Z.eqb_spec m 0); [contradiction|].
  destruct (last ss) as [s|] eqn:E.
  - destruct (String.eqb_spec s line) as [->|_]; [exact E|apply last_snoc].
  - apply last_snoc.
Qed.

(** [linenoiseHistoryAdd] does to the array what [Add_spec] does to the
    list of lines. *)
Lemma linenoiseHistoryAdd_holds (line : string) (h : historyState) (ss : list string) :
  history_holds h ss ->
  exists h' r,
    linenoiseHistoryAdd line h = Ok (h', r)
    /\ history_max_len h' = history_max_len h
    /\ history_holds h' (Add_spec (history_max_len h) line ss)
    /\ (history_max_len h = 0 \/ last ss = Some line -> h' = h /\ r = 0).
Proof.
  intros Hh. pose proof Hh as (Hlen & Hmax & Ha).
  unfold linenoiseHistoryAdd, Add_spec.
  destruct (Z.eqb_spec (history_max_len h) 0) as [E0|E0].
  { exists h, 0. auto. }
  cbn [history_len set_history history_max_len].
  destruct (Z.eqb_spec (history_len h) 0) as [El|El]; cbn [negb].
  - (* the store is empty *)
    assert (ss = []) as -> by (destruct ss; [reflexivity|unfold size in *; simpl in *; lia]).
    cbn [mbind result_bind].
    cbn [is_newest last].
    replace (if size [] =? history_max_len h then drop 1 [] else [])
      with (@nil string) by (destruct (_ =? _); reflexivity).
    rewrite El. destruct (Z.eqb_spec 0 (history_max_len h)); [lia|].
    cbn [mbind result_bind history set_history default].
    set (a := match history h with Some a => a | None => _ end).
    assert (size a = history_max_len h) as Hsz.
    { subst a. destruct (history h); [apply Ha|]. unfold size. rewrite length_replicate. lia. }
    rewrite store_inside by (cbn; lia). cbn [mbind result_bind].
    eexists _, _. split; [reflexivity|]. split; [reflexivity|]. split.
    + repeat split; cbn; [rewrite El; reflexivity|lia|len_lia|].
      rewrite El. destruct a; [unfold size in *; simpl in *; lia|reflexivity].
    + intros [?|?]; [lia|discriminate].
  - destruct (history_holds_newest h ss Hh El) as (s & Hs & Hat).
    destruct (history h) as [a|] eqn:E.
    2:{ subst ss. discriminate. }
    destruct Ha as [Hsz Htake].
    replace (set_history a h) with h by (destruct h; simpl in *; subst; reflexivity).
    rewrite Hat. cbn [mbind result_bind].
    destruct (String.eqb_spec s line) as [->|Hne].
    + exists h, 0. unfold is_newest. rewrite Hs, String.eqb_refl. auto.
    + unfold is_newest. rewrite Hs. destruct (String.eqb_spec s line); [contradiction|].
      rewrite <- Hlen.
      destruct (Z.eqb_spec (history_len h) (history_max_len h)) as [Ef|Ef].
      * (* the store is full: the oldest line goes *)
        rewrite memmove_inside by len_lia.
        cbn [mbind result_bind history set_history set_history_len default history_len].
        rewrite store_inside by (cbn; len_lia).
        cbn [mbind result_bind].
        eexists _, _. split; [reflexivity|]. split; [reflexivity|]. split.
        2:{ intros [?|?]; [lia|congruence]. }
        repeat split; cbn; [len_lia|lia|len_lia|].
        apply list_eq. intros i. rewrite fmap_app, fmap_drop, <- Htake.
        destruct (decide (i < length ss - 1)%nat).
        { look. f_equal. len_lia. }
        destruct (decide (i = length ss - 1)%nat) as [->|].
        { rewrite lookup_take_lt by len_lia.
          replace (Z.to_nat (history_len h - 1)) with (length ss - 1)%nat by len_lia.
          rewrite list_lookup_insert_eq by len_lia.
          rewrite lookup_app_r by len_lia.
          replace (length ss - 1 - length (drop 1 (take (length ss) a)))%nat
            with 0%nat by len_lia.
          reflexivity. }
        rewrite lookup_take_ge by len_lia. symmetry. apply lookup_ge_None. len_lia.
      * cbn [mbind result_bind history set_history set_history_len default history_len].
        rewrite E. cbn [default].
        rewrite store_inside by (cbn; len_lia). cbn [mbind result_bind].
        eexists _, _. split; [reflexivity|]. split; [reflexivity|]. split.
        2:{ intros [?|?]; [lia|congruence]. }
        repeat split; cbn; [len_lia|lia|len_lia|].
        rewrite fmap_app, <- Htake. cbn.
        replace (Z.to_nat (history_len h)) with (length ss) by len_lia.
        replace (length (ss ++ [line])) with (S (length ss)) by len_lia.
        erewrite take_S_r.
        2:{ apply list_lookup_insert_eq. len_lia. }
        rewrite take_insert_ge by lia. reflexivity.
Qed.

(** C5.  On a store that holds the lines [ss], [linenoiseHistoryAdd]
    leaves the store as it is (and returns 0) when the capacity is zero or
    the line is the newest entry; otherwise the store then holds [ss],
    less its oldest line if it was full, followed by the line.  Adding the
    same line once more changes nothing; "x", "y", "x" added to the empty
    store make three entries. *)
Theorem linenoiseHistoryAdd_refines (line : string) (h : historyState)
    (ss : list string) :
  history_holds h ss ->
  (exists h' r,
     linenoiseHistoryAdd line h = Ok (h', r)
     /\ history_max_len h' = history_max_len h
     /\ history_holds h' (Add_spec (history_max_len h) line ss)
     /\ (history_max_len h = 0 \/ last ss = Some line -> h' = h /\ r = 0)
     /\ linenoiseHistoryAdd line h' = Ok (h', 0))
  /\ ('(h1, _) ← linenoiseHistoryAdd "x" history_init;
      '(h2, _) ← linenoiseHistoryAdd "y" h1;
      '(h3, _) ← linenoiseHistoryAdd "x" h2;
      Ok (history_len h1, history_len h2, history_len h3)) = Ok (1, 2, 3).
Proof.
  intros Hh. split; [|vm_compute; reflexivity].
  destruct (linenoiseHistoryAdd_holds line h ss Hh) as (h' & r & Hadd & Hmax & Hh' & Hsame).
  exists h', r. do 4 (split; [assumption|]).
  destruct (linenoiseHistoryAdd_holds line h' _ Hh') as (h'' & r' & Hadd' & _ & _ & Hsame').
  destruct (Z.eq_dec (history_max_len h) 0) as [E|E].
  - destruct Hsame' as [-> ->]; [left; congruence|exact Hadd'].
  - destruct Hsame' as [-> ->]; [right; apply last_Add_spec; exact E|exact Hadd'].
Qed.

Lemma linenoiseHistoryAdd_refines_witness :
  (exists h' r,
     linenoiseHistoryAdd "b" (history_of 100 ["a"%string]) = Ok (h', r)
     /\ history_max_len h' = history_max_len (history_of 100 ["a"%string])
     /\ history_holds h'
          (Add_spec (history_max_len (history_of 100 ["a"%string])) "b" ["a"%string])
     /\ (history_max_len (history_of 100 ["a"%string]) = 0
         \/ last ["a"%string] = Some "b"%string
         -> h' = history_of 100 ["a"%string] /\ r = 0)
     /\ linenoiseHistoryAdd "b" h' = Ok (h', 0))
  /\ ('(h1, _) ← linenoiseHistoryAdd "x" history_init;
      '(h2, _) ← linenoiseHistoryAdd "y" h1;
      '(h3, _) ← linenoiseHistoryAdd "x" h2;
      Ok (history_len h1, history_len h2, history_len h3)) = Ok (1, 2, 3).
Proof.
  apply (linenoiseHistoryAdd_refines "b" (history_of 100 ["a"%string]) ["a"%string]).
  repeat split; try reflexivity. unfold history_of, size. simpl. lia.
Defined.

(** C6.  [linenoiseHistorySetMaxLen] refuses a length below 1, returning
    0 with the store as it was.  For a length [n] of at least 1 it
    returns 1, [n] is the new maximum, and the store holds the newest [n]
    of its lines, in their order (all of them when there are no more than
    [n]). *)
Theorem linenoiseHistorySetMaxLen_newest (n : Z) (h : historyState)
    (ss : list string) :
  history_holds h ss ->
  (n < 1 -> linenoiseHistorySetMaxLen n h = Ok (h, 0))
  /\ (1 <= n ->
      exists h',
        linenoiseHistorySetMaxLen n h = Ok (h', 1)
        /\ history_max_len h' = n
        /\ history_holds h' (drop (length ss - Z.to_nat n) ss)).
Proof.
  intros (Hlen & Hmax & Ha). unfold linenoiseHistorySetMaxLen.
  split; intros Hn.
  - destruct (Z.ltb_spec n 1); [reflexivity|lia].
  - destruct (Z.ltb_spec n 1); [lia|].
    destruct (history h) as [a|] eqn:E.
    + destruct Ha as [Hsz Htake].
      set (tocopy := if n <? history_len h then n else history_len h).
      assert (0 <= tocopy <= history_len h /\ tocopy <= n
              /\ Z.to_nat (history_len h - tocopy) = (length ss - Z.to_nat n)%nat)
        as (Ht1 & Ht2 & Ht3).
      { subst tocopy. destruct (Z.ltb_spec n (history_len h)); len_lia. }
      rewrite memcpy_inside by len_lia.
      cbn [mbind result_bind set_history set_history_max_len history_max_len history_len].
      eexists. split; [reflexivity|]. split.
      { destruct (_ <? _); reflexivity. }
      assert ((if n <? history_len h
               then set_history_len n _ else _)
              = mkHistory n tocopy
                  (Some (take (Z.to_nat 0) (replicate (Z.to_nat n) None)
                         ++ take (Z.to_nat tocopy) (drop (Z.to_nat (history_len h - tocopy)) a)
                         ++ drop (Z.to_nat (0 + tocopy)) (replicate (Z.to_nat n) None))))
        as ->.
      { subst tocopy. destruct (Z.ltb_spec n (history_len h)); reflexivity. }
      repeat split; cbn [history_len history_max_len history]; [len_lia|lia|len_lia|].
      rewrite Ht3. change (Z.to_nat 0) with 0%nat. rewrite take_0, app_nil_l.
      rewrite take_app_le by len_lia.
      rewrite take_ge by len_lia.
      rewrite fmap_drop, <- Htake.
      rewrite take_drop_commute. f_equal. f_equal. len_lia.
    + subst ss. cbn [mbind result_bind set_history_max_len history_max_len history_len].
      eexists. split; [reflexivity|]. split.
      { destruct (_ <? _); reflexivity. }
      destruct (Z.ltb_spec n (history_len h)); [unfold size in *; simpl in *; lia|].
      repeat split; cbn; [exact Hlen|unfold size in *; simpl in *; lia|rewrite E; reflexivity].
Qed.

Lemma linenoiseHistorySetMaxLen_newest_witness :
  (2 < 1 -> linenoiseHistorySetMaxLen 2 (history_of 100 ["a"; "b"; "c"]%string)
            = Ok (history_of 100 ["a"; "b"; "c"]%string, 0))
  /\ (1 <= 2 ->
      exists h',
        linenoiseHistorySetMaxLen 2 (history_of 100 ["a"; "b"; "c"]%string) = Ok (h', 1)
        /\ history_max_len h' = 2
        /\ history_holds h' (drop (length ["a"; "b"; "c"]%string - Z.to_nat 2)
                               ["a"; "b"; "c"]%string)).
Proof.
  apply (linenoiseHistorySetMaxLen_newest 2 (history_of 100 ["a"; "b"; "c"]%string)
           ["a"; "b"; "c"]%string).
  repeat split; try reflexivity. unfold history_of, size. simpl. lia.
Defined.

(** ** History navigation *)

(** A buffer of [cap] bytes that holds the one character [y]. *)
Lemma c_array_char (y : ascii) (k : nat) :
  c_array (String y EmptyString) (S k) = y :: replicate k NUL.
Proof.
  unfold c_array. cbn [list_ascii_of_string app take]. f_equal.
  rewrite take_replicate. f_equal. lia.
Qed.

Lemma strdup_char (y : ascii) (rest : list ascii) :
  y <> NUL -> strdup (y :: NUL :: rest) = Ok (String y EmptyString).
Proof.
  intros Hy. unfold strdup, strlen. cbn [strlen_from].
  destruct (Ascii.eqb_spec y NUL) as [E|_]; [contradiction|].
  reflexivity.
Qed.

(** One step of history navigation on a line of one character [y] that
    shows an entry of one character [x], in a buffer of [k + 3] bytes. *)
Lemma linenoiseEditHistoryNext_char (x y : ascii) (k : nat) (i : Z)
    (h : historyState) (a a' : list (option string)) (dir : Z) :
  Z.of_nat k + 3 < 2 ^ 64 -> x <> NUL -> y <> NUL ->
  1 < history_len h -> history h = Some a ->
  let i' := int (i + (if dir =? LINENOISE_HISTORY_PREV then 1 else -1)) in
  0 <= i' < history_len h ->
  store a (history_len h - 1 - i) (Some (String y EmptyString)) = Ok a' ->
  load a' (history_len h - 1 - i') = Ok (Some (String x EmptyString)) ->
  linenoiseEditHistoryNext
    (mkState (c_array (String y EmptyString) (k + 3)) (Z.of_nat (k + 3) - 1) 1 1 i) h dir
  = Ok (mkState (c_array (String x EmptyString) (k + 3)) (Z.of_nat (k + 3) - 1) 1 1 i',
        set_history a' h).
Proof.
  intros Hk Hx Hy Hlen Ha i' Hi' Hst Hld.
  unfold linenoiseEditHistoryNext.
  destruct (Z.ltb_spec 1 (history_len h)); [|lia].
  replace (k + 3)%nat with (S (S (S k))) by lia.
  rewrite !c_array_char. cbn [buf history_index replicate].
  rewrite strdup_char by exact Hy. cbn [mbind result_bind].
  rewrite Ha. change (default [] (Some a)) with a. rewrite Hst. cbn [mbind result_bind].
  step_state. fold i'.
  destruct (Z.ltb_spec i' 0); [lia|].
  cbn [history_len set_history].
  destruct (Z.leb_spec (history_len h) i'); [lia|].
  unfold history_at. cbn [history history_len set_history]. rewrite Hld. cbn [mbind result_bind].
  unfold strncpy.
  assert (size (y :: NUL :: NUL :: replicate k NUL) = Z.of_nat k + 3) as Hsz
    by (unfold size; cbn [length]; rewrite length_replicate; lia).
  rewrite Hsz.
  destruct (Z.leb_spec 0 (Z.of_nat (S (S (S k))) - 1)); [|lia].
  destruct (Z.leb_spec (Z.of_nat (S (S (S k))) - 1) (Z.of_nat k + 3)); [|lia].
  cbn [andb negb mbind result_bind].
  replace (Z.to_nat (Z.of_nat (S (S (S k))) - 1)) with (S (S k)) by lia.
  cbn [list_ascii_of_string app take drop].
  rewrite take_replicate, Nat.min_l by lia.
  assert (replicate (S k) NUL ++ drop k (NUL :: replicate k NUL)
          = replicate (S (S k)) NUL) as ->.
  { change (NUL :: replicate k NUL) with (replicate (S k) NUL).
    rewrite drop_replicate. replace (S k - k)%nat with 1%nat by lia.
    change (replicate 1 NUL) with [NUL].
    rewrite <- replicate_cons_app. reflexivity. }
  rewrite size_t_id by lia.
  unfold store.
  assert (size (x :: replicate (S (S k)) NUL) = Z.of_nat k + 3) as Hsz'
    by (unfold size; cbn [length]; rewrite length_replicate; lia).
  rewrite Hsz'.
  destruct (Z.leb_spec 0 (Z.of_nat (S (S (S k))) - 1 - 1)); [|lia].
  destruct (Z.ltb_spec (Z.of_nat (S (S (S k))) - 1 - 1) (Z.of_nat k + 3)); [|lia].
  cbn [andb mbind result_bind].
  replace (Z.to_nat (Z.of_nat (S (S (S k))) - 1 - 1)) with (S k) by lia.
  assert (<[S k:=NUL]> (x :: replicate (S (S k)) NUL)
          = x :: NUL :: NUL :: replicate k NUL) as ->.
  { change (<[S k:=NUL]> (x :: replicate (S (S k)) NUL))
      with (x :: <[k:=NUL]> (replicate (S (S k)) NUL)).
    f_equal. change (NUL :: NUL :: replicate k NUL) with (replicate (S (S k)) NUL).
    apply list_insert_id. apply lookup_replicate_2. lia. }
  step_state.
  unfold strlen. cbn [strlen_from].
  destruct (Ascii.eqb_spec x NUL) as [E|_]; [contradiction|].
  reflexivity.
Qed.

Ltac show_entry :=
  first [ lia | discriminate | reflexivity
        | vm_compute; first [reflexivity | split; congruence] ].

(** C9.  With "a" and "b" in the history and the newest slot standing for
    the line being typed, "c": previous, previous, next, next shows "b",
    "a", "b", and brings the session back exactly as it was, the line "c",
    the cursor at its end and the history index 0.  This holds for every
    buffer of at least 3 bytes, whatever the newest slot held. *)
Theorem history_navigation_round_trip (scratch : string) (cap : nat) :
  (3 <= cap)%nat -> Z.of_nat cap < 2 ^ 64 ->
  let h := history_of LINENOISE_DEFAULT_HISTORY_MAX_LEN ["a"; "b"; scratch]%string in
  let l := editing "c" cap 1 in
  exists l1 h1 l2 h2 l3 h3 h4,
    linenoiseEditHistoryNext l h LINENOISE_HISTORY_PREV = Ok (l1, h1)
    /\ linenoiseEditHistoryNext l1 h1 LINENOISE_HISTORY_PREV = Ok (l2, h2)
    /\ linenoiseEditHistoryNext l2 h2 LINENOISE_HISTORY_NEXT = Ok (l3, h3)
    /\ linenoiseEditHistoryNext l3 h3 LINENOISE_HISTORY_NEXT = Ok (l, h4)
    /\ line l1 = Ok "b"%string /\ line l2 = Ok "a"%string /\ line l3 = Ok "b"%string
    /\ line l = Ok "c"%string /\ history_index l = 0 /\ pos l = len l
    /\ entries h4 = [Some "a"; Some "b"; Some "c"]%string.
Proof.
  intros Hcap Hmax. cbv zeta.
  destruct cap as [|[|[|k]]]; [lia..|].
  replace (S (S (S k))) with (k + 3)%nat by lia.
  assert (Z.of_nat k + 3 < 2 ^ 64) as Hk by lia.
  unfold editing. cbn [String.length]. change (Z.of_nat 1) with 1.
  eexists _, _, _, _, _, _, _.
  split; [eapply (linenoiseEditHistoryNext_char "b" "c" k 0); show_entry|].
  split; [eapply (linenoiseEditHistoryNext_char "a" "b" k); show_entry|].
  split; [eapply (linenoiseEditHistoryNext_char "b" "a" k); show_entry|].
  split; [eapply (linenoiseEditHistoryNext_char "c" "b" k); show_entry|].
  replace (k + 3)%nat with (S (S (S k))) by lia.
  unfold line. rewrite !c_array_char. cbn [buf replicate history_index pos len].
  rewrite !strdup_char by done.
  repeat split.
Qed.

(** The buffer of 4096 bytes that [linenoise] edits in, with an empty
    newest slot as [linenoiseHistoryAdd] of the empty line leaves it. *)
Lemma history_navigation_round_trip_witness :
  let h := history_of LINENOISE_DEFAULT_HISTORY_MAX_LEN ["a"; "b"; EmptyString]%string in
  let l := editing "c" 4096 1 in
  exists l1 h1 l2 h2 l3 h3 h4,
    linenoiseEditHistoryNext l h LINENOISE_HISTORY_PREV = Ok (l1, h1)
    /\ linenoiseEditHistoryNext l1 h1 LINENOISE_HISTORY_PREV = Ok (l2, h2)
    /\ linenoiseEditHistoryNext l2 h2 LINENOISE_HISTORY_NEXT = Ok (l3, h3)
    /\ linenoiseEditHistoryNext l3 h3 LINENOISE_HISTORY_NEXT = Ok (l, h4)
    /\ line l1 = Ok "b"%string /\ line l2 = Ok "a"%string /\ line l3 = Ok "b"%string
    /\ line l = Ok "c"%string /\ history_index l = 0 /\ pos l = len l
    /\ entries h4 = [Some "a"; Some "b"; Some "c"]%string.
Proof.
  apply (history_navigation_round_trip EmptyString 4096); [lia | reflexivity].
Defined.

(** ** Rows of the multi-line refresh *)

Section SingleColumn.

Context (enc : encoding) (Henc : single_column enc).
Context (b : list ascii) (n W : Z).
Context (HW : 0 < W) (Hn : n + W < 2 ^ 31).

(** As long as the column the line starts in is inside the row, the
    loop of [columnPosForMultiLine] never takes its forced wrap: it
    counts what the loop of [columnPos] counts. *)
Lemma column_loops_agree (fuel : nat) :
  forall off colwid r1 r2,
    0 <= off <= n -> (Z.to_nat (n - off) < fuel)%nat ->
    0 <= colwid < W -> 0 <= r1 -> 0 <= r2 ->
    r1 + (n - off) < 2 ^ 31 -> r2 + (n - off) < 2 ^ 31 ->
    exists K, 0 <= K <= n - off
      /\ columnPos_loop enc fuel b n n off r1 = Ok (r1 + K)
      /\ columnPosForMultiLine_loop enc fuel b n n W off colwid r2 = Ok (r2 + K).
Proof using Henc HW Hn.
  induction fuel as [|fuel IH]; intros off colwid r1 r2 Hoff Hfuel Hcw Hr1 Hr2 Hb1 Hb2; [lia|].
  cbn [columnPos_loop columnPosForMultiLine_loop].
  destruct (Z.ltb_spec off n) as [Hlt|Hge].
  2:{ exists 0. rewrite !Z.add_0_r. split; [lia|]. split; reflexivity. }
  destruct (Henc b n off ltac:(lia)) as [Hk Hc].
  destruct (nextCharLen enc b n off) as [k c]. cbn [fst snd] in Hk, Hc. subst c.
  rewrite (int_id (colwid + 1)), (int_id W), (int_id (colwid + 1 - W)) by lia.
  rewrite (size_t_id (off + k)), (size_t_id (r1 + 1)) by lia.
  destruct (Z.ltb_spec 0 (colwid + 1 - W)); [lia|].
  destruct (Z.leb_spec n off); [lia|].
  destruct (Z.eqb_spec (colwid + 1 - W) 0); rewrite (size_t_id (r2 + 1)) by lia.
  - destruct (IH (off + k) 0 (r1 + 1) (r2 + 1)) as (K & HK & H1 & H2); try lia.
    exists (K + 1). rewrite H1, H2. split; [lia|]. split; f_equal; lia.
  - rewrite (size_t_id (colwid + 1)) by lia.
    destruct (IH (off + k) (colwid + 1) (r1 + 1) (r2 + 1)) as (K & HK & H1 & H2); try lia.
    exists (K + 1). rewrite H1, H2. split; [lia|]. split; f_equal; lia.
Qed.

End SingleColumn.

Lemma defaultEncoding_single_column : single_column defaultEncoding.
Proof. intros b n p Hp. cbn. lia. Qed.

(** C8, as amended.  When every character is one column wide and the
    prompt is narrower than the terminal, the rows that [refreshMultiLine]
    computes for a line of [C] columns are the ceiling of [(P + C) / W]:
    the number [rows] with [W * (rows - 1) < P + C <= W * rows].  With no
    prompt, 10 columns and 25 characters that is 3 rows. *)
Theorem refreshMultiLine_rows_single_column (enc : encoding) (l : linenoiseState)
    (P W : Z) :
  single_column enc -> 0 <= len l -> 0 <= P < W -> P + len l + W < 2 ^ 31 ->
  (exists C rows,
     columnPos enc (buf l) (len l) (len l) = Ok C
     /\ refreshMultiLine_rows enc l P W = Ok rows
     /\ W * (rows - 1) < P + C <= W * rows)
  /\ (let l := editing "aaaaaaaaaaaaaaaaaaaaaaaaa" 32 25 in
      columnPos defaultEncoding (buf l) (len l) (len l) = Ok 25
      /\ refreshMultiLine_rows defaultEncoding l 0 10 = Ok 3).
Proof.
  intros Henc Hlen HP Hb. split; [|split; reflexivity].
  unfold refreshMultiLine_rows, columnPos, columnPosForMultiLine, fuel_of.
  destruct (column_loops_agree enc Henc (buf l) (len l) W ltac:(lia) ltac:(lia)
              (S (Z.to_nat (len l))) 0 P 0 0) as (K & HK & H1 & H2); try lia.
  rewrite H1, H2. cbn [mbind result_bind]. rewrite !Z.add_0_l.
  exists K, ((P + K + W - 1) / W).
  split; [reflexivity|].
  rewrite (int_id K) by lia. rewrite (size_t_id (P + K + W - 1)) by lia.
  assert (0 <= (P + K + W - 1) / W <= P + K + W - 1).
  { split; [apply Z.div_pos; lia|]. apply Z.div_le_upper_bound; nia. }
  rewrite int_id by lia. split; [reflexivity|].
  pose proof (Z.div_mod (P + K + W - 1) W ltac:(lia)).
  pose proof (Z.mod_pos_bound (P + K + W - 1) W ltac:(lia)).
  lia.
Qed.

Lemma refreshMultiLine_rows_single_column_witness :
  (exists C rows,
     columnPos defaultEncoding (buf (editing "hello world" 32 5)) 11 11 = Ok C
     /\ refreshMultiLine_rows defaultEncoding (editing "hello world" 32 5) 2 5 = Ok rows
     /\ 5 * (rows - 1) < 2 + C <= 5 * rows)
  /\ (let l := editing "aaaaaaaaaaaaaaaaaaaaaaaaa" 32 25 in
      columnPos defaultEncoding (buf l) (len l) (len l) = Ok 25
      /\ refreshMultiLine_rows defaultEncoding l 0 10 = Ok 3).
Proof.
  apply (refreshMultiLine_rows_single_column defaultEncoding (editing "hello world" 32 5) 2 5).
  - exact defaultEncoding_single_column.
  - simpl. lia.
  - lia.
  - simpl. lia.
Defined.

(** C8, as it is stated, fails for characters that are two columns wide:
    three of them make 6 columns, which on a terminal 3 columns wide is
    the ceiling of 6 / 3, 2 rows; but a character that would straddle the
    end of a row is moved to the next one, so that the line occupies 3
    rows, and 3 is what [refreshMultiLine] computes. *)
Lemma rows_of_wide_characters :
  let l := editing wide_line 16 9 in
  columnPos wideEncoding (buf l) (len l) (len l) = Ok 6
  /\ refreshMultiLine_rows wideEncoding l 0 3 = Ok 3
  /\ ~ (3 * (3 - 1) < 0 + 6 <= 3 * 3).
Proof. split; [reflexivity|]. split; [reflexivity|]. lia. Qed.

(** A prompt as wide as the terminal or wider is outside the amended
    claim: [columnPosForMultiLine] is given the width of the prompt as the
    starting column, not its remainder, and takes the first character for
    a forced wrap.  With a prompt of 15 columns on a terminal of 10, one
    character gives 3 rows, where 16 columns fill 2. *)
Lemma rows_with_a_wide_prompt :
  let l := editing "a" 16 1 in
  columnPos defaultEncoding (buf l) (len l) (len l) = Ok 1
  /\ refreshMultiLine_rows defaultEncoding l 15 10 = Ok 3
  /\ (15 + 1 + 10 - 1) / 10 = 2.
Proof. repeat split; reflexivity. Qed.

(** ** The window of the single-line refresh *)

Lemma columnPos_loop_default (fuel : nat) (b : list ascii) (n p : Z) :
  forall off ret,
    0 <= off <= p -> (Z.to_nat (p - off) < fuel)%nat ->
    0 <= ret -> p < 2 ^ 64 -> ret + (p - off) < 2 ^ 64 ->
    columnPos_loop defaultEncoding fuel b n p off ret = Ok (ret + (p - off)).
Proof.
  induction fuel as [|fuel IH]; intros off ret Hoff Hfuel Hret Hp Hb; [lia|].
  cbn [columnPos_loop defaultEncoding nextCharLen defaultNextCharLen].
  destruct (Z.ltb_spec off p).
  - rewrite (size_t_id (off + 1)), (size_t_id (ret + 1)) by lia.
    rewrite IH by lia. f_equal. lia.
  - f_equal. lia.
Qed.

Lemma columnPos_default (b : list ascii) (n p : Z) :
  0 <= p < 2 ^ 64 -> columnPos defaultEncoding b n p = Ok p.
Proof.
  intros Hp. unfold columnPos, fuel_of.
  rewrite columnPos_loop_default by lia. f_equal. lia.
Qed.

Lemma clip_left_default (b : list ascii) (P W : Z) (fuel : nat) :
  0 <= P < W -> W < 2 ^ 63 ->
  forall off n p,
    0 <= p <= n -> n < 2 ^ 63 -> (Z.to_nat p < fuel)%nat ->
    exists d, 0 <= d <= p
      /\ clip_left defaultEncoding fuel b P W off n p = Ok (off + d, n - d, p - d)
      /\ P + (p - d) < W.
Proof.
  intros HP HW. induction fuel as [|fuel IH]; intros off n p Hp Hn Hfuel; [lia|].
  cbn [clip_left]. rewrite columnPos_default by lia. cbn [mbind result_bind].
  rewrite (size_t_id (P + p)) by lia.
  destruct (Z.leb_spec W (P + p)).
  - cbn [defaultEncoding nextCharLen defaultNextCharLen fst].
    change (int 1) with 1.
    rewrite (size_t_id (n - 1)), (size_t_id (p - 1)) by lia.
    destruct (IH (off + 1) (n - 1) (p - 1)) as (d & Hd & Hclip & Hlt); try lia.
    exists (d + 1). rewrite Hclip. split; [lia|]. split; [|lia].
    do 2 f_equal; [f_equal|]; lia.
  - exists 0. rewrite Z.add_0_r, !Z.sub_0_r. split; [lia|]. split; [reflexivity|lia].
Qed.

Lemma clip_right_default (b : list ascii) (P W off : Z) (fuel : nat) :
  0 <= P < W -> W < 2 ^ 63 ->
  forall n,
    0 <= n < 2 ^ 63 -> (Z.to_nat n < fuel)%nat ->
    exists n', clip_right defaultEncoding fuel b P W off n = Ok n'
      /\ n' = Z.min n (W - P).
Proof.
  intros HP HW. induction fuel as [|fuel IH]; intros n Hn Hfuel; [lia|].
  cbn [clip_right]. rewrite columnPos_default by lia. cbn [mbind result_bind].
  rewrite (size_t_id (P + n)) by lia.
  destruct (Z.ltb_spec W (P + n)).
  - cbn [defaultEncoding prevCharLen defaultPrevCharLen fst].
    rewrite (size_t_id (n - 1)) by lia.
    destruct (IH (n - 1)) as (n' & Hclip & Hmin); try lia.
    exists n'. split; [exact Hclip|lia].
  - exists n. split; [reflexivity|lia].
Qed.

(** With the default encoding the window is the one a count of bytes
    gives: the cursor is brought down to at most [W - P - 1] bytes from
    the start of the window, and the window is cut at [W - P] bytes. *)
Lemma refreshSingleLine_window_default (l : linenoiseState) (P W : Z) :
  0 <= pos l <= len l -> len l < 2 ^ 63 -> 0 <= P < W -> W < 2 ^ 63 ->
  exists d,
    refreshSingleLine_window defaultEncoding l P W
    = Ok (d, Z.min (len l - d) (W - P), pos l - d)
    /\ 0 <= d <= pos l /\ P + (pos l - d) < W.
Proof.
  intros Hpos Hlen HP HW. unfold refreshSingleLine_window, fuel_of.
  destruct (clip_left_default (buf l) P W (S (Z.to_nat (pos l))) HP HW 0 (len l) (pos l))
    as (d & Hd & Hleft & Hlt); try lia.
  rewrite Hleft. cbn [mbind result_bind].
  destruct (clip_right_default (buf l) P W (0 + d) (S (Z.to_nat (len l - d))) HP HW (len l - d))
    as (n' & Hright & Hmin); try lia.
  rewrite Hright. cbn [mbind result_bind].
  exists d. subst n'. rewrite Z.add_0_l. split; [reflexivity|lia].
Qed.

(** *** Any encoding that reads the line as a sequence of characters *)

Lemma bytes_of_app (xs ys : list (Z * Z)) :
  bytes_of (xs ++ ys) = bytes_of xs + bytes_of ys.
Proof. induction xs as [|x xs IH]; cbn; [reflexivity|]. rewrite IH. lia. Qed.

Lemma columns_of_app (xs ys : list (Z * Z)) :
  columns_of (xs ++ ys) = columns_of xs + columns_of ys.
Proof. induction xs as [|x xs IH]; cbn; [reflexivity|]. rewrite IH. lia. Qed.

Lemma bytes_of_length (cs : list (Z * Z)) :
  Forall char_ok cs -> Z.of_nat (length cs) <= bytes_of cs.
Proof. induction 1 as [|c cs [Hc _] _ IH]; cbn [bytes_of length]; lia. Qed.

Lemma columns_of_nonneg (cs : list (Z * Z)) : Forall char_ok cs -> 0 <= columns_of cs.
Proof. induction 1 as [|c cs [_ Hc] _ IH]; cbn [columns_of]; lia. Qed.

Ltac sums :=
  repeat first
    [ rewrite bytes_of_app | rewrite columns_of_app
    | progress cbn [bytes_of columns_of fst snd] ].

Ltac sums_in H :=
  repeat first
    [ rewrite bytes_of_app in H | rewrite columns_of_app in H
    | progress cbn [bytes_of columns_of fst snd] in H ].

(** Facts about the parts of a line that is read as [cs]. *)
Ltac parts Hok Hcs :=
  let H := fresh "Hparts" in
  pose proof Hok as H; rewrite Hcs in H; rewrite ?Forall_app, ?Forall_cons in H;
  repeat match type of H with
         | _ /\ _ => let H1 := fresh "Hp" in destruct H as [H1 H]
         end;
  repeat match goal with
         | Hp : Forall char_ok _ /\ _ |- _ => destruct Hp as [? ?]
         | Hp : char_ok _ /\ _ |- _ => destruct Hp as [? ?]
         | Hp : Forall char_ok ?xs |- _ =>
             lazymatch goal with
             | _ : Z.of_nat (length xs) <= bytes_of xs |- _ => fail
             | _ => pose proof (bytes_of_length xs Hp); pose proof (columns_of_nonneg xs Hp)
             end
         | Hc : char_ok (_, _) |- _ => destruct Hc as [? ?]
         end;
  cbn [fst snd] in *.

Section Window.

Context (enc : encoding) (b : list ascii) (cs : list (Z * Z)).
Context (Hreads : reads_as enc b cs).
Context (Hbytes : bytes_of cs < 2 ^ 63) (Hcols : columns_of cs < 2 ^ 63).

Lemma columnPos_loop_reads (pre w2 post : list (Z * Z)) (n p : Z) (fuel : nat) :
  forall done todo off ret,
    cs = pre ++ (done ++ todo) ++ w2 ++ post ->
    n = bytes_of ((done ++ todo) ++ w2) -> p = bytes_of (done ++ todo) ->
    off = bytes_of done ->
    (length todo < fuel)%nat -> 0 <= ret -> ret + columns_of todo < 2 ^ 64 ->
    columnPos_loop enc fuel (drop (Z.to_nat (bytes_of pre)) b) n p off ret
    = Ok (ret + columns_of todo).
Proof using Hreads Hbytes.
  destruct Hreads as [Hok Hnext].
  induction fuel as [|fuel IH]; intros done todo off ret Hcs Hn Hp Hoff Hfuel Hret Hr; [lia|].
  assert (bytes_of cs = bytes_of pre + bytes_of done + bytes_of todo + bytes_of w2 + bytes_of post)
    as Hsum by (rewrite Hcs; sums; lia).
  cbn [columnPos_loop].
  destruct todo as [|[k w] todo]; parts Hok Hcs.
  - sums_in Hp. destruct (Z.ltb_spec off p); [lia|]. f_equal. cbn. lia.
  - sums_in Hp. sums_in Hr. sums_in Hsum.
    destruct (Hnext pre done (k, w) (todo ++ w2) post) as [Hnx _].
    { rewrite Hcs. rewrite <- !app_assoc. reflexivity. }
    replace (bytes_of (done ++ (k, w) :: todo ++ w2)) with n in Hnx
      by (rewrite Hn, <- app_assoc; reflexivity).
    rewrite <- Hoff in Hnx.
    destruct (Z.ltb_spec off p); [|lia].
    rewrite Hnx.
    rewrite (size_t_id (off + k)), (size_t_id (ret + w)) by lia.
    rewrite (IH (done ++ [(k, w)]) todo); [f_equal; sums; lia|..]; sums; try lia.
    + rewrite Hcs. rewrite <- !app_assoc. reflexivity.
    + rewrite Hn. sums. lia.
    + cbn [length] in Hfuel. lia.
Qed.

(** The columns of the first part of a window. *)
Lemma columnPos_reads (pre w1 w2 post : list (Z * Z)) :
  cs = pre ++ w1 ++ w2 ++ post ->
  columnPos enc (drop (Z.to_nat (bytes_of pre)) b) (bytes_of (w1 ++ w2)) (bytes_of w1)
  = Ok (columns_of w1).
Proof using Hreads Hbytes Hcols.
  intros Hcs. pose proof Hreads as [Hok _]. parts Hok Hcs.
  assert (columns_of cs = columns_of pre + columns_of w1 + columns_of w2 + columns_of post)
    as Hsum by (rewrite Hcs; sums; lia).
  unfold columnPos, fuel_of.
  rewrite (columnPos_loop_reads pre w2 post _ _ _ [] w1 0 0); try reflexivity; try lia.
  - rewrite Hcs, <- app_assoc. reflexivity.
Qed.

Context (P W : Z) (HP : 0 <= P < W) (HW : W < 2 ^ 63).

Lemma clip_left_reads (w2 : list (Z * Z)) (fuel : nat) :
  forall pre w1 off n p,
    cs = pre ++ w1 ++ w2 ->
    off = bytes_of pre -> n = bytes_of (w1 ++ w2) -> p = bytes_of w1 ->
    (length w1 < fuel)%nat ->
    exists pre' w1',
      pre ++ w1 = pre' ++ w1'
      /\ clip_left enc fuel b P W off n p
         = Ok (bytes_of pre', bytes_of (w1' ++ w2), bytes_of w1')
      /\ P + columns_of w1' < W.
Proof using Hreads Hbytes Hcols HP HW.
  pose proof Hreads as [Hok Hnext].
  induction fuel as [|fuel IH]; intros pre w1 off n p Hcs Hoff Hn Hp Hfuel; [lia|].
  assert (bytes_of cs = bytes_of pre + bytes_of w1 + bytes_of w2) as Hsum
    by (rewrite Hcs; sums; lia).
  assert (columns_of cs = columns_of pre + columns_of w1 + columns_of w2) as Hsumc
    by (rewrite Hcs; sums; lia).
  cbn [clip_left].
  replace (columnPos enc (drop (Z.to_nat off) b) n p) with (Ok (columns_of w1)).
  2:{ subst off n p. symmetry. apply (columnPos_reads pre w1 w2 []).
      rewrite app_nil_r. exact Hcs. }
  cbn [mbind result_bind].
  destruct w1 as [|[k w] w1]; parts Hok Hcs.
  - cbn [columns_of]. rewrite size_t_id by lia.
    destruct (Z.leb_spec W (P + 0)); [lia|].
    exists pre, []. subst off n p. split; [reflexivity|]. split; [reflexivity|]. cbn. lia.
  - sums_in Hsum. sums_in Hsumc. cbn [columns_of snd]. rewrite size_t_id by lia.
    destruct (Z.leb_spec W (P + (w + columns_of w1))).
    + destruct (Hnext pre [] (k, w) (w1 ++ w2) []) as [Hnx _].
      { rewrite app_nil_r. exact Hcs. }
      cbn [app bytes_of fst] in Hnx.
      replace (nextCharLen enc (drop (Z.to_nat off) b) n 0) with (k, w)
        by (rewrite <- Hnx, Hoff, Hn; reflexivity).
      cbn [fst]. rewrite (int_id k) by lia.
      assert (n = k + bytes_of w1 + bytes_of w2) as Hn' by (rewrite Hn; sums; lia).
      assert (p = k + bytes_of w1) as Hp' by (rewrite Hp; sums; lia).
      rewrite (size_t_id (n - k)), (size_t_id (p - k)) by lia.
      destruct (IH (pre ++ [(k, w)]) w1 (off + k) (n - k) (p - k))
        as (pre' & w1' & Heq & Hclip & Hlt); sums; try lia.
      { rewrite Hcs, <- app_assoc. reflexivity. }
      { cbn [length] in Hfuel. lia. }
      exists pre', w1'. split; [rewrite <- Heq, <- app_assoc; reflexivity|].
      split; [exact Hclip|exact Hlt].
    + exists pre, ((k, w) :: w1). subst off n p.
      split; [reflexivity|]. split; [reflexivity|cbn [columns_of snd]; lia].
Qed.

Lemma clip_right_reads (pre w1 : list (Z * Z)) (fuel : nat) :
  P + columns_of w1 < W ->
  forall w2 post n,
    cs = pre ++ w1 ++ w2 ++ post -> n = bytes_of (w1 ++ w2) ->
    (length w2 < fuel)%nat ->
    exists w2' w2'',
      w2 = w2' ++ w2''
      /\ clip_right enc fuel b P W (bytes_of pre) n = Ok (bytes_of (w1 ++ w2'))
      /\ P + columns_of (w1 ++ w2') <= W.
Proof using Hreads Hbytes Hcols HP HW.
  pose proof Hreads as [Hok Hnext]. intros Hw1.
  induction fuel as [|fuel IH]; intros w2 post n Hcs Hn Hfuel; [lia|].
  assert (bytes_of cs = bytes_of pre + bytes_of w1 + bytes_of w2 + bytes_of post) as Hsum
    by (rewrite Hcs; sums; lia).
  assert (columns_of cs = columns_of pre + columns_of w1 + columns_of w2 + columns_of post)
    as Hsumc by (rewrite Hcs; sums; lia).
  cbn [clip_right].
  replace (columnPos enc (drop (Z.to_nat (bytes_of pre)) b) n n)
    with (Ok (columns_of (w1 ++ w2))).
  2:{ subst n. symmetry.
      pose proof (columnPos_reads pre (w1 ++ w2) [] post) as Hcp.
      rewrite app_nil_r in Hcp. apply Hcp.
      rewrite Hcs, <- !app_assoc. reflexivity. }
  cbn [mbind result_bind].
  destruct w2 as [|[k w] w2 _] using rev_ind; parts Hok Hcs.
  - rewrite app_nil_r in *. rewrite size_t_id by lia.
    destruct (Z.ltb_spec W (P + columns_of w1)); [lia|].
    exists [], []. rewrite !app_nil_r. split; [reflexivity|]. split; [subst n; reflexivity|lia].
  - sums_in Hsum. sums_in Hsumc.
    assert (columns_of (w1 ++ w2 ++ [(k, w)]) = columns_of w1 + columns_of w2 + w) as Hc'
      by (sums; lia).
    assert (n = bytes_of w1 + bytes_of w2 + k) as Hn' by (rewrite Hn; sums; lia).
    rewrite Hc'. rewrite size_t_id by lia.
    destruct (Z.ltb_spec W (P + (columns_of w1 + columns_of w2 + w))).
    + destruct (Hnext pre (w1 ++ w2) (k, w) [] post) as [_ Hpv].
      { rewrite Hcs, <- !app_assoc. reflexivity. }
      specialize (Hpv eq_refl). cbn [fst] in Hpv.
      replace (fst (prevCharLen enc (drop (Z.to_nat (bytes_of pre)) b) n n)) with k
        by (rewrite <- Hpv, Hn, <- app_assoc; reflexivity).
      rewrite (size_t_id (n - k)) by lia.
      destruct (IH w2 ((k, w) :: post) (n - k))
        as (w2' & w2'' & Heq & Hclip & Hle); sums; try lia.
      { rewrite Hcs, <- !app_assoc. reflexivity. }
      { rewrite length_app in Hfuel. cbn [length] in Hfuel. lia. }
      exists w2', (w2'' ++ [(k, w)]). split; [rewrite Heq, <- app_assoc; reflexivity|].
      split; [exact Hclip|exact Hle].
    + exists (w2 ++ [(k, w)]), []. rewrite app_nil_r. split; [reflexivity|].
      split; [subst n; reflexivity|lia].
Qed.

End Window.

Lemma defaultEncoding_reads_as (b : list ascii) (n : nat) :
  reads_as defaultEncoding b (replicate n (1, 1)).
Proof.
  split.
  - apply Forall_replicate. unfold char_ok. cbn. lia.
  - intros pre mid c rest post Hcs.
    assert (c = (1, 1)) as ->.
    { apply (elem_of_replicate_inv c n (1, 1)). rewrite Hcs.
      rewrite !elem_of_app, elem_of_cons. auto. }
    split; reflexivity.
Qed.

Lemma wideEncoding_reads_wide_line :
  reads_as wideEncoding (c_array wide_line 16) [(3, 2); (3, 2); (3, 2)].
Proof.
  split.
  - repeat constructor; cbn; lia.
  - intros pre mid c rest post Hcs.
    destruct pre as [|? [|? [|? [|? ?]]]]; destruct mid as [|? [|? [|? [|? ?]]]];
      destruct rest as [|? [|? [|? [|? ?]]]]; destruct post as [|? [|? [|? [|? ?]]]];
      cbn [app] in Hcs; try discriminate Hcs; simplify_eq;
      (split; [vm_compute; reflexivity | intros ?; try discriminate; vm_compute; reflexivity]).
Qed.

Lemma window_of_wide_characters :
  refreshSingleLine_window wideEncoding (editing wide_line 16 6) 1 4 = Ok (3, 3, 3).
Proof. reflexivity. Qed.

(** C7.  Let the encoding read the line as a sequence of characters, the
    cursor standing between two of them, and let the prompt be narrower
    than the terminal.  Then the two loops of [refreshSingleLine] end, and
    the window they leave (from byte [off] of the line, [n] bytes long)
    contains the cursor and is at most [W - P] columns wide. *)
Theorem refreshSingleLine_window_contains_cursor (enc : encoding) (l : linenoiseState)
    (before after : list (Z * Z)) (P W : Z) :
  reads_as enc (buf l) (before ++ after) ->
  pos l = bytes_of before -> len l = bytes_of (before ++ after) ->
  len l < 2 ^ 63 -> columns_of (before ++ after) < 2 ^ 63 ->
  0 <= P < W -> W < 2 ^ 63 ->
  exists off n p cw,
    refreshSingleLine_window enc l P W = Ok (off, n, p)
    /\ 0 <= off /\ off + p = pos l /\ 0 <= p <= n /\ off + n <= len l
    /\ columnPos enc (drop (Z.to_nat off) (buf l)) n n = Ok cw
    /\ cw <= W - P.
Proof.
  intros Hreads Hpos Hlen Hb Hc HP HW. rewrite Hlen in Hb.
  pose proof Hreads as [Hok _].
  unfold refreshSingleLine_window, fuel_of.
  assert (Z.of_nat (length before) <= bytes_of before) as Hlb.
  { apply bytes_of_length. apply Forall_app in Hok. tauto. }
  destruct (clip_left_reads enc (buf l) _ Hreads Hb Hc P W HP HW after
              (S (Z.to_nat (pos l))) [] before 0 (len l) (pos l))
    as (pre' & w1' & Heq & Hleft & Hlt); try assumption; try reflexivity; try lia.
  rewrite Hleft. cbn [mbind result_bind].
  cbn [app] in Heq.
  assert (Forall char_ok pre' /\ Forall char_ok w1' /\ Forall char_ok after)
    as (Hpre' & Hw1' & Hafter).
  { rewrite Heq in Hok. rewrite !Forall_app in Hok. tauto. }
  pose proof (bytes_of_length _ Hpre'). pose proof (bytes_of_length _ Hw1').
  pose proof (bytes_of_length _ Hafter).
  destruct (clip_right_reads enc (buf l) _ Hreads Hb Hc P W HP HW pre' w1'
              (S (Z.to_nat (bytes_of (w1' ++ after)))) Hlt after [] (bytes_of (w1' ++ after)))
    as (w2' & w2'' & Heq2 & Hright & Hle); try reflexivity.
  { rewrite app_nil_r, Heq, <- app_assoc. reflexivity. }
  { rewrite bytes_of_app. lia. }
  rewrite Hright. cbn [mbind result_bind].
  assert (Forall char_ok w2' /\ Forall char_ok w2'') as (Hw2' & Hw2'').
  { rewrite Heq2 in Hafter. apply Forall_app in Hafter. tauto. }
  pose proof (bytes_of_length _ Hw2'). pose proof (bytes_of_length _ Hw2'').
  exists (bytes_of pre'), (bytes_of (w1' ++ w2')), (bytes_of w1'), (columns_of (w1' ++ w2')).
  split; [reflexivity|].
  assert (columnPos enc (drop (Z.to_nat (bytes_of pre')) (buf l))
            (bytes_of (w1' ++ w2')) (bytes_of (w1' ++ w2'))
          = Ok (columns_of (w1' ++ w2'))) as Hcp.
  { pose proof (columnPos_reads enc (buf l) _ Hreads Hb Hc pre' (w1' ++ w2') [] w2'') as Hcp.
    rewrite app_nil_r in Hcp. apply Hcp.
    rewrite Heq, Heq2, <- !app_assoc. reflexivity. }
  rewrite Hcp, Hpos, Hlen, Heq, Heq2. sums_in Hle. sums.
  repeat split; lia.
Qed.

Lemma refreshSingleLine_window_contains_cursor_witness :
  exists off n p cw,
    refreshSingleLine_window wideEncoding (editing wide_line 16 6) 1 4 = Ok (off, n, p)
    /\ 0 <= off /\ off + p = pos (editing wide_line 16 6) /\ 0 <= p <= n
    /\ off + n <= len (editing wide_line 16 6)
    /\ columnPos wideEncoding
         (drop (Z.to_nat off) (buf (editing wide_line 16 6))) n n = Ok cw
    /\ cw <= 4 - 1.
Proof.
  apply (refreshSingleLine_window_contains_cursor wideEncoding (editing wide_line 16 6)
           [(3, 2); (3, 2)] [(3, 2)] 1 4).
  - exact wideEncoding_reads_wide_line.
  - reflexivity.
  - reflexivity.
  - simpl. lia.
  - simpl. lia.
  - lia.
  - lia.
Defined.

(** ** Words *)

Lemma is_space_SPACE (c : ascii) : is_space c = true <-> c = SPACE.
Proof. unfold is_space. apply Ascii.eqb_eq. Qed.

(** Where the scans stop, and what they pass over. *)

Lemma scan_right_stops (sp : bool) (b : list ascii) (n : Z) (fuel : nat) :
  n <= size b -> n < 2 ^ 64 ->
  forall p p', 0 <= p <= n -> scan_right sp fuel b n p = Ok p' ->
    p <= p' <= n
    /\ (forall j, p <= j < p' -> exists c, load b j = Ok c /\ is_space c = sp)
    /\ (p' = n \/ exists c, load b p' = Ok c /\ is_space c = negb sp).
Proof.
  intros Hn Hn'. induction fuel as [|fuel IH]; intros p p' Hp H; [discriminate|].
  cbn [scan_right] in H. destruct (Z.ltb_spec p n).
  - inv_bind H. destruct (Bool.eqb (is_space x) sp) eqn:E.
    + rewrite size_t_id in H by lia. apply IH in H as (Hp' & Hall & Hstop); [|lia].
      split; [lia|]. split; [|exact Hstop].
      intros j Hj. destruct (Z.eq_dec j p) as [->|Hne].
      * exists x. split; [exact Hx|]. apply Bool.eqb_prop. exact E.
      * apply Hall. lia.
    + injection H as <-. split; [lia|]. split; [intros j Hj; lia|].
      right. exists x. split; [exact Hx|].
      destruct (is_space x), sp; cbn in *; congruence.
  - injection H as <-. split; [lia|]. split; [intros j Hj; lia|]. left. lia.
Qed.

Lemma scan_left_stops (sp : bool) (b : list ascii) (fuel : nat) :
  size b < 2 ^ 64 ->
  forall p p', 0 <= p <= size b -> scan_left sp fuel b p = Ok p' ->
    0 <= p' <= p
    /\ (forall j, p' <= j < p -> exists c, load b j = Ok c /\ is_space c = sp)
    /\ (p' = 0 \/ exists c, load b (p' - 1) = Ok c /\ is_space c = negb sp).
Proof.
  intros Hb. induction fuel as [|fuel IH]; intros p p' Hp H; [discriminate|].
  cbn [scan_left] in H. destruct (Z.ltb_spec 0 p).
  - rewrite size_t_id in H by lia. inv_bind H.
    destruct (Bool.eqb (is_space x) sp) eqn:E.
    + apply IH in H as (Hp' & Hall & Hstop); [|lia].
      split; [lia|]. split; [|exact Hstop].
      intros j Hj. destruct (Z.eq_dec j (p - 1)) as [->|Hne].
      * exists x. split; [exact Hx|]. apply Bool.eqb_prop. exact E.
      * apply Hall. lia.
    + injection H as <-. split; [lia|]. split; [intros j Hj; lia|].
      right. exists x. split; [exact Hx|].
      destruct (is_space x), sp; cbn in *; congruence.
  - injection H as <-. split; [lia|]. split; [intros j Hj; lia|]. left. lia.
Qed.

Lemma not_space (c : ascii) : is_space c = false <-> c <> SPACE.
Proof.
  rewrite <- is_space_SPACE. destruct (is_space c); split; congruence.
Qed.



(** X2.  Alt-b ([linenoiseEditMoveWordStart]) with the cursor past the
    start of the line moves it back, to the start of the line or to just
    after a space. *)
Theorem linenoiseEditMoveWordStart_lands (l : linenoiseState) :
  1 <= pos l <= len l -> len l < size (buf l) -> size (buf l) < 2 ^ 64 ->
  exists p,
    linenoiseEditMoveWordStart l = Ok (set_pos p l)
    /\ 0 <= p < pos l
    /\ (p = 0 \/ load (buf l) (p - 1) = Ok SPACE).
Proof.
  intros Hpos Hlen Hsz. unfold linenoiseEditMoveWordStart.
  destruct (Z.eqb_spec (len l) 0); [lia|].
  rewrite size_t_id by lia.
  destruct (load_is_Ok (buf l) (pos l - 1) ltac:(lia)) as [c Hc]. rewrite Hc.
  cbn [mbind result_bind].
  set (p0 := if is_space c then pos l - 1 else pos l).
  assert (0 <= p0 <= pos l) as Hp0 by (subst p0; destruct (is_space c); lia).
  destruct (load_is_Ok (buf l) p0 ltac:(lia)) as [c' Hc']. rewrite Hc'.
  cbn [mbind result_bind].
  assert (exists p1, (if is_space c' then scan_left_at (fuel_of p0) (buf l) p0 else Ok p0)
                     = Ok p1 /\ 0 <= p1 <= p0) as (p1 & -> & Hp1).
  { destruct (is_space c'); [|exists p0; split; [reflexivity|lia]].
    apply scan_left_at_bounds; unfold fuel_of; lia. }
  cbn [mbind result_bind].
  destruct (scan_left_bounds false (buf l) (fuel_of p1) ltac:(lia) p1 ltac:(lia)
              ltac:(unfold fuel_of; lia)) as (p2 & Hrun & _).
  rewrite Hrun. cbn [mbind result_bind].
  apply scan_left_stops in Hrun as (Hp2 & _ & Hstop); [|lia..].
  assert (p2 = 0 \/ load (buf l) (p2 - 1) = Ok SPACE) as Hstart.
  { destruct Hstop as [->|(c2 & Hc2 & Hsp)]; [left; reflexivity|].
    right. apply is_space_SPACE in Hsp. congruence. }
  exists p2. split; [reflexivity|]. split; [|exact Hstart].
  destruct (Z.eq_dec p2 (pos l)) as [E|]; [|lia]. exfalso.
  assert (p0 = pos l) as E0 by lia.
  destruct Hstart as [|Hsp]; [lia|]. rewrite E, Hc in Hsp. injection Hsp as ->.
  subst p0. change (is_space SPACE) with true in E0. cbv iota in E0. lia.
Qed.

Lemma linenoiseEditMoveWordStart_lands_witness :
  exists p,
    linenoiseEditMoveWordStart (editing "foo bar" 16 6) = Ok (set_pos p (editing "foo bar" 16 6))
    /\ 0 <= p < 6
    /\ (p = 0 \/ load (buf (editing "foo bar" 16 6)) (p - 1) = Ok SPACE).
Proof.
  apply (linenoiseEditMoveWordStart_lands (editing "foo bar" 16 6));
    unfold size; simpl; lia.
Defined.



(** X4.  The Delete key is Right followed by Backspace: with the cursor
    before the end of the line, [linenoiseEditDelete] gives the state that
    [linenoiseEditMoveRight] and then [linenoiseEditBackspace] give, when
    characters are single bytes. *)
Theorem linenoiseEditDelete_is_MoveRight_Backspace (l : linenoiseState) :
  0 <= pos l < len l -> len l < 2 ^ 64 ->
  linenoiseEditDelete defaultEncoding l
  = linenoiseEditBackspace defaultEncoding (linenoiseEditMoveRight defaultEncoding l).
Proof.
  intros Hpos Hlen.
  unfold linenoiseEditDelete, linenoiseEditBackspace, linenoiseEditMoveRight.
  cbn [defaultEncoding nextCharLen prevCharLen defaultNextCharLen defaultPrevCharLen fst].
  change (int 1) with 1.
  destruct (Z.eqb_spec (pos l) (len l)); [lia|]. cbn [negb].
  cbn [set_pos pos len buf buflen history_index].
  rewrite (size_t_id (pos l + 1)) by lia.
  destruct (Z.ltb_spec 0 (len l)); [|lia].
  destruct (Z.ltb_spec (pos l) (len l)); [|lia].
  destruct (Z.ltb_spec 0 (pos l + 1)); [|lia]. cbn [andb].
  replace (pos l + 1 - 1) with (pos l) by lia.
  replace (len l - (pos l + 1)) with (len l - pos l - 1) by lia.
  rewrite (size_t_id (pos l)) by lia.
  destruct (memmove (buf l) (pos l) (pos l + 1) (size_t (len l - pos l - 1)));
    reflexivity.
Qed.

Lemma linenoiseEditDelete_is_MoveRight_Backspace_witness :
  linenoiseEditDelete defaultEncoding (editing "abc" 8 1)
  = linenoiseEditBackspace defaultEncoding
      (linenoiseEditMoveRight defaultEncoding (editing "abc" 8 1)).
Proof.
  apply (linenoiseEditDelete_is_MoveRight_Backspace (editing "abc" 8 1)); simpl; lia.
Defined.

(** X5.  Backspace undoes the insertion of a character: after
    [linenoiseEditInsert] of one byte and [linenoiseEditBackspace], the
    cursor, the length and the bytes of the line are what they were, and
    the line is terminated. *)
Theorem linenoiseEditInsert_then_Backspace (wfail : bool) (l : linenoiseState)
    (cbuf : list ascii) :
  0 <= pos l <= len l -> len l + 1 < capacity l -> capacity l <= size (buf l) ->
  size (buf l) < 2 ^ 63 -> 1 <= size cbuf ->
  exists l1 r l2,
    linenoiseEditInsert wfail l cbuf 1 = Ok (l1, r)
    /\ pos l1 = pos l + 1 /\ len l1 = len l + 1
    /\ linenoiseEditBackspace defaultEncoding l1 = Ok l2
    /\ pos l2 = pos l /\ len l2 = len l /\ buflen l2 = buflen l
    /\ take (Z.to_nat (len l)) (buf l2) = take (Z.to_nat (len l)) (buf l)
    /\ terminator l2 = Ok NUL.
Proof.
  destruct l as [b bl p n hi]. unfold capacity, terminator. cbn [buf buflen pos len].
  intros Hpos Hroom Hcap Hsz Hcb.
  unfold linenoiseEditInsert. step_state.
  rewrite (size_t_id (n + 1)) by lia.
  destruct (Z.leb_spec (n + 1) bl); [|lia].
  change (size_t 1) with 1. rewrite (size_t_id (p + 1)) by lia.
  assert (exists b1,
            (if n =? p
             then memcpy b p cbuf 1
             else b0 ← memmove b (p + 1) p (size_t (n - p)); memcpy b0 p cbuf 1) = Ok b1
            /\ size b1 = size b
            /\ forall i, (i < Z.to_nat n)%nat ->
                 (if decide (i < Z.to_nat p)%nat then b1 !! i
                  else b1 !! S i) = b !! i) as (b1 & Hb1 & Hsz1 & Hget).
  { destruct (Z.eqb_spec n p) as [->|Hne].
    - rewrite memcpy_inside by lia. eexists. split; [reflexivity|]. split; [len_lia|].
      intros i Hi. destruct (decide _); [|lia].
      look. reflexivity.
    - rewrite (size_t_id (n - p)) by lia. rewrite memmove_inside by lia.
      cbn [mbind result_bind]. rewrite memcpy_inside by (try lia; len_lia).
      eexists. split; [reflexivity|]. split; [len_lia|].
      intros i Hi. destruct (decide _).
      + look. reflexivity.
      + look. first [reflexivity | f_equal; len_lia]. }
  assert (exists l1 r,
            (if n =? p
             then b0 ← memcpy b p cbuf 1;
                  b2 ← store b0 (n + 1) NUL;
                  (if wfail
                   then Ok (mkState b2 bl (p + 1) (n + 1) hi, -1)
                   else Ok (mkState b2 bl (p + 1) (n + 1) hi, 0))
             else b0 ← memmove b (p + 1) p (size_t (n - p));
                  b2 ← memcpy b0 p cbuf 1;
                  b3 ← store b2 (n + 1) NUL;
                  Ok (mkState b3 bl (p + 1) (n + 1) hi, 0)) = Ok (l1, r)
            /\ l1 = mkState (<[Z.to_nat (n + 1) := NUL]> b1) bl (p + 1) (n + 1) hi)
    as (l1 & r & Hl1 & El1).
  { destruct (n =? p); revert Hb1; intros Hb1.
    - rewrite Hb1. cbn [mbind result_bind]. rewrite store_inside by lia.
      cbn [mbind result_bind]. destruct wfail; eauto.
    - apply bind_Ok in Hb1 as (b0 & -> & Hb1). cbn [mbind result_bind].
      rewrite Hb1. cbn [mbind result_bind]. rewrite store_inside by lia.
      cbn [mbind result_bind]. eauto. }
  exists l1, r. subst l1.
  set (b2 := <[Z.to_nat (n + 1):=NUL]> b1) in *.
  assert (size b2 = size b) as Hsz2 by (subst b2; len_lia).
  assert (linenoiseEditBackspace defaultEncoding (mkState b2 bl (p + 1) (n + 1) hi)
          = Ok (mkState
                  (<[Z.to_nat n:=NUL]>
                     (take (Z.to_nat p) b2 ++ take (Z.to_nat (n - p)) (drop (Z.to_nat (p + 1)) b2)
                      ++ drop (Z.to_nat (p + (n - p))) b2)) bl p n hi)) as Hbs.
  { unfold linenoiseEditBackspace.
    cbn [defaultEncoding prevCharLen defaultPrevCharLen fst buf pos len].
    change (int 1) with 1.
    destruct (Z.ltb_spec 0 (p + 1)); [|lia]. destruct (Z.ltb_spec 0 (n + 1)); [|lia].
    cbn [andb]. replace (n + 1 - (p + 1)) with (n - p) by lia.
    replace (p + 1 - 1) with p by lia.
    rewrite (size_t_id (n - p)) by lia.
    rewrite memmove_inside by lia. step_state.
    replace (n + 1 - 1) with n by lia.
    rewrite (size_t_id p), (size_t_id n) by lia.
    rewrite store_inside by len_lia. reflexivity. }
  eexists. split; [exact Hl1|]. cbn [pos len buf buflen].
  do 2 (split; [reflexivity|]). split; [exact Hbs|]. cbn [pos len buf buflen].
  do 3 (split; [reflexivity|]). split.
  - apply list_eq. intros i.
    destruct (decide (i < Z.to_nat n)%nat) as [Hi|Hi].
    2:{ rewrite !lookup_take_ge by lia. reflexivity. }
    rewrite !lookup_take_lt by lia. specialize (Hget i Hi).
    rewrite <- Hget. unfold size in *.
    rewrite list_lookup_insert_ne by lia.
    destruct (decide (i < Z.to_nat p)%nat).
    + rewrite lookup_app_l by len_lia. rewrite lookup_take_lt by lia.
      subst b2. rewrite list_lookup_insert_ne by lia. reflexivity.
    + rewrite lookup_app_r by len_lia. rewrite lookup_app_l by len_lia.
      rewrite lookup_take_lt by len_lia. rewrite lookup_drop.
      subst b2. rewrite list_lookup_insert_ne by len_lia. f_equal. len_lia.
  - apply load_inside; [lia|]. apply list_lookup_insert_eq. len_lia.
Qed.

Lemma linenoiseEditInsert_then_Backspace_witness :
  exists l1 r l2,
    linenoiseEditInsert false (editing "ab" 8 1) ["x"%char] 1 = Ok (l1, r)
    /\ pos l1 = 1 + 1 /\ len l1 = 2 + 1
    /\ linenoiseEditBackspace defaultEncoding l1 = Ok l2
    /\ pos l2 = 1 /\ len l2 = 2 /\ buflen l2 = 7
    /\ take (Z.to_nat 2) (buf l2) = take (Z.to_nat 2) (buf (editing "ab" 8 1))
    /\ terminator l2 = Ok NUL.
Proof.
  apply (linenoiseEditInsert_then_Backspace false (editing "ab" 8 1) ["x"%char]);
    unfold capacity, size; simpl; lia.
Defined.

(** ** Sessions *)

Lemma dispatch_text (enc : encoding) (mlmode : bool) (junk x : ascii)
    (cbuf : list ascii) (nread : Z) (l : linenoiseState) (h : historyState)
    (input : list ascii) :
  is_text_key x = true ->
  dispatch enc mlmode junk (char_to_int x) cbuf nread l h input
  = ('(l, r) ← linenoiseEditInsert false l cbuf nread;
     if negb (r =? 0) then Ok (Return (-1), l, h, input) else Ok (Break, l, h, input)).
Proof.
  unfold is_text_key, control_keys. cbn [existsb]. intros H.
  apply negb_true_iff in H.
  repeat match type of H with
         | (_ || _)%bool = false => apply orb_false_elim in H as [? H]
         end.
  unfold dispatch.
  repeat match goal with
         | E : (?a =? ?k) = false |- context [?a =? ?k] => rewrite E
         end.
  reflexivity.
Qed.

(** A byte typed at the end of the line. *)
Lemma linenoiseEditInsert_at_end (l : linenoiseState) (x : ascii) :
  pos l = len l -> 0 <= len l <= buflen l -> buflen l < size (buf l) ->
  size (buf l) < 2 ^ 63 ->
  linenoiseEditInsert false l (x :: replicate 31 NUL) 1
  = Ok (if len l + 1 <=? buflen l
        then mkState (<[Z.to_nat (len l + 1):=NUL]> (<[Z.to_nat (len l):=x]> (buf l)))
               (buflen l) (len l + 1) (len l + 1) (history_index l)
        else l, 0).
Proof.
  destruct l as [b bl p n hi]. cbn [buf buflen pos len history_index].
  intros -> Hlen Hbl Hsz. unfold linenoiseEditInsert. step_state.
  rewrite (size_t_id (n + 1)) by lia.
  destruct (Z.leb_spec (n + 1) bl); [|reflexivity].
  rewrite Z.eqb_refl. change (size_t 1) with 1.
  rewrite memcpy_inside by (unfold size in *; cbn [length]; lia). step_state.
  rewrite store_inside by len_lia. cbn [mbind result_bind].
  do 3 f_equal.
  rewrite (insert_take_drop b) by len_lia.
  change (Z.to_nat 1) with 1%nat. cbn [take app]. rewrite take_0. cbn [app].
  replace (S (Z.to_nat n)) with (Z.to_nat (n + 1)) by lia. reflexivity.
Qed.

Section Typing.

Context (enc : encoding) (mlmode : bool) (junk : ascii).

(** Text typed at the end of the line is appended to it, as far as the
    buffer has room. *)
Lemma edit_loop_text (s : list ascii) :
  forall l,
    pos l = len l -> 0 <= len l <= buflen l -> buflen l < size (buf l) ->
    size (buf l) < 2 ^ 63 -> load (buf l) (len l) = Ok NUL ->
    forallb is_text_key s = true ->
    exists l',
      (forall k h rest,
         edit_loop enc mlmode junk (length s + k) l h (s ++ rest)
         = edit_loop enc mlmode junk k l' h rest)
      /\ buflen l' = buflen l /\ size (buf l') = size (buf l)
      /\ history_index l' = history_index l
      /\ pos l' = len l' /\ len l' = Z.min (len l + size s) (buflen l)
      /\ take (Z.to_nat (len l')) (buf l')
         = take (Z.to_nat (len l')) (take (Z.to_nat (len l)) (buf l) ++ s)
      /\ load (buf l') (len l') = Ok NUL.
Proof using Type.
  induction s as [|x s IH]; intros l Hpos Hlen Hbl Hsz Hterm Htext.
  - exists l. split; [intros; reflexivity|].
    unfold size. cbn [length]. rewrite app_nil_r.
    repeat split; try reflexivity; try lia.
    + rewrite take_take. f_equal. lia.
    + exact Hterm.
  - cbn [forallb] in Htext. apply andb_prop in Htext as [Hx Htext].
    pose proof (linenoiseEditInsert_at_end l x Hpos Hlen Hbl Hsz) as Hins.
    set (l1 := if len l + 1 <=? buflen l
               then mkState (<[Z.to_nat (len l + 1):=NUL]> (<[Z.to_nat (len l):=x]> (buf l)))
                      (buflen l) (len l + 1) (len l + 1) (history_index l)
               else l) in *.
    assert (buflen l1 = buflen l /\ size (buf l1) = size (buf l)
            /\ history_index l1 = history_index l /\ pos l1 = len l1
            /\ len l1 = Z.min (len l + 1) (buflen l)
            /\ take (Z.to_nat (len l1)) (buf l1)
               = take (Z.to_nat (len l1)) (take (Z.to_nat (len l)) (buf l) ++ [x])
            /\ load (buf l1) (len l1) = Ok NUL)
      as (Hbl1 & Hsz1 & Hhi1 & Hpos1 & Hlen1 & Htake1 & Hterm1).
    { subst l1. destruct (Z.leb_spec (len l + 1) (buflen l)).
      - cbn [buf buflen pos len history_index].
        split; [reflexivity|]. split; [len_lia|]. split; [reflexivity|].
        split; [reflexivity|]. split; [lia|]. split.
        + rewrite take_insert_ge by lia.
          rewrite (insert_take_drop (buf l)) by len_lia.
          rewrite cons_middle, app_assoc.
          rewrite take_app_length' by len_lia.
          rewrite (take_ge (_ ++ _)) by len_lia. reflexivity.
        + apply load_inside; [lia|]. apply list_lookup_insert_eq. len_lia.
      - split; [reflexivity|]. split; [reflexivity|]. split; [reflexivity|].
        split; [exact Hpos|]. split; [lia|]. split; [|exact Hterm].
        rewrite take_app_le by len_lia. rewrite take_take. f_equal. lia. }
    destruct (IH l1) as (l' & Hrun & Hbl' & Hsz' & Hhi' & Hpos' & Hlen' & Htake' & Hterm');
      [exact Hpos1 | lia | lia | lia | exact Hterm1 | exact Htext |].
    exists l'. split.
    { intros k h rest. cbn [length Nat.add app edit_loop defaultReadCode].
      change (1 <=? 0) with false. cbv iota.
      rewrite dispatch_text by exact Hx. rewrite Hins. cbn [mbind result_bind].
      change (negb (0 =? 0)) with false. cbv iota. apply Hrun. }
    assert (size (x :: s) = size s + 1) as Hxs by (unfold size; cbn [length]; lia).
    assert (0 <= size s) as Hs by (unfold size; lia).
    split; [congruence|]. split; [congruence|]. split; [congruence|].
    split; [exact Hpos'|]. split; [lia|]. split; [|exact Hterm'].
    rewrite Htake'.
    destruct (Z.leb_spec (len l + 1) (buflen l)).
    + replace (len l1) with (len l + 1) in * by lia.
      rewrite Htake1.
      rewrite (take_ge (_ ++ [x])) by len_lia.
      rewrite <- app_assoc. reflexivity.
    + replace (len l1) with (len l) in * by lia.
      replace (len l') with (len l) by lia.
      assert (forall t, take (Z.to_nat (len l)) (take (Z.to_nat (len l)) (buf l) ++ t)
                        = take (Z.to_nat (len l)) (buf l)) as Hcut.
      { intros t. rewrite take_app_le by len_lia. rewrite take_take. f_equal. lia. }
      rewrite Htake1, !Hcut. reflexivity.
Qed.

End Typing.

(** The entry that Enter takes back. *)
Lemma drop_newest_holds (h : historyState) (ss : list string) :
  history_holds h ss -> ss <> [] -> history_max_len h < 2 ^ 31 ->
  exists h',
    drop_newest h = Ok h' /\ history_max_len h' = history_max_len h
    /\ history_holds h' (removelast ss).
Proof.
  intros (Hlen & Hmax & Ha) Hss Hint. unfold drop_newest.
  assert (1 <= size ss) as Hsize.
  { destruct ss; [contradiction|]. unfold size. cbn [length]. lia. }
  destruct (history h) as [a|] eqn:E; [|contradiction].
  destruct Ha as [Hsz Htake].
  rewrite int_id by lia.
  cbn [set_history_len history history_len]. rewrite E. change (default [] (Some a)) with a.
  rewrite store_inside by lia. cbn [mbind result_bind].
  eexists. split; [reflexivity|]. split; [reflexivity|].
  assert (length (removelast ss) = (length ss - 1)%nat) as Hrl.
  { rewrite removelast_firstn_len. rewrite length_take. lia. }
  unfold history_holds. cbn [set_history set_history_len history history_len history_max_len].
  split; [unfold size in *; lia|]. split; [lia|]. split; [len_lia|].
  rewrite Hrl. rewrite take_insert_ge by (unfold size in *; lia).
  rewrite removelast_firstn_len, fmap_take, <- Htake.
  rewrite take_take. f_equal. lia.
Qed.

Lemma after_session_Add_spec (m : Z) (ss : list string) :
  m <> 0 -> removelast (Add_spec m EmptyString ss) = after_session m ss.
Proof.
  intros Hm. unfold Add_spec, after_session.
  destruct (Z.eqb_spec m 0); [contradiction|].
  destruct (is_newest EmptyString ss); [reflexivity|].
  apply removelast_last.
Qed.

Lemma Add_spec_not_nil (m : Z) (line : string) (ss : list string) :
  m <> 0 -> Add_spec m line ss <> [].
Proof.
  intros Hm E. pose proof (last_Add_spec m line ss Hm) as Hl.
  rewrite E in Hl. discriminate.
Qed.

(** [strdup] of an array that holds [s] and then the terminator. *)
Lemma strlen_from_app (s rest : list ascii) :
  Forall (fun c => c <> NUL) s ->
  forall i, strlen_from (s ++ NUL :: rest) i = Ok (i + size s).
Proof.
  induction 1 as [|c s Hc _ IH]; intros i.
  - cbn. f_equal. unfold size. cbn. lia.
  - cbn [app strlen_from]. destruct (Ascii.eqb_spec c NUL); [contradiction|].
    rewrite IH. f_equal. unfold size. cbn [length]. lia.
Qed.

Lemma strdup_line (b s : list ascii) :
  take (length s) b = s -> load b (size s) = Ok NUL ->
  Forall (fun c => c <> NUL) s ->
  strdup b = Ok (string_of_list_ascii s).
Proof.
  intros Htake Hterm Hs. apply load_Ok_inv in Hterm as [Hin Hget].
  unfold size in Hget. rewrite Nat2Z.id in Hget.
  assert (b = s ++ NUL :: drop (S (length s)) b) as Hb.
  { rewrite <- (take_drop (length s) b) at 1. rewrite Htake. f_equal.
    apply drop_S. exact Hget. }
  unfold strdup, strlen. rewrite Hb at 1. rewrite strlen_from_app by exact Hs.
  cbn [mbind result_bind]. rewrite Z.add_0_l. unfold size. rewrite Nat2Z.id, Htake.
  reflexivity.
Qed.

Section Sessions.

Context (enc : encoding) (mlmode : bool) (junk : ascii).
Context (b : list ascii) (h : historyState) (ss : list string).
Context (Hb : 0 < size b < 2 ^ 31).
Context (Hh : history_holds h ss) (Hmax : 0 < history_max_len h < 2 ^ 31).

(** A session in which text is typed first: the scratch entry is in the
    history, the text is in the line as far as it fits, and the loop goes
    on with the keys that follow. *)
Lemma linenoiseEdit_text (s : list ascii) :
  forallb is_text_key s = true ->
  exists l' h1,
    (forall rest,
       linenoiseEdit enc mlmode junk b (size b) h (s ++ rest)
       = edit_loop enc mlmode junk (S (length rest)) l' h1 rest)
    /\ history_max_len h1 = history_max_len h
    /\ history_holds h1 (Add_spec (history_max_len h) EmptyString ss)
    /\ pos l' = len l' /\ len l' = Z.min (size s) (size b - 1)
    /\ take (Z.to_nat (len l')) (buf l') = take (Z.to_nat (len l')) s
    /\ load (buf l') (len l') = Ok NUL.
Proof using Hb Hh Hmax.
  intros Htext.
  destruct (linenoiseHistoryAdd_holds EmptyString h ss Hh) as (h1 & r & Hadd & Hmax1 & Hh1 & _).
  set (l0 := mkState (<[Z.to_nat 0:=NUL]> b) (size b - 1) 0 0 0).
  assert (size (buf l0) = size b) as Hsz0 by (subst l0; cbn [buf]; len_lia).
  destruct (edit_loop_text enc mlmode junk s l0)
    as (l' & Hrun & Hbl & Hsz & _ & Hpos & Hlen & Htake & Hterm);
    [reflexivity | subst l0; cbn [len buflen]; lia | subst l0; cbn [buflen]; lia | lia
    | apply load_inside; [reflexivity|]; apply list_lookup_insert_eq; len_lia
    | exact Htext |].
  exists l', h1. split.
  { intros rest. unfold linenoiseEdit. cbn [buf].
    rewrite store_inside by lia. cbn [mbind result_bind set_buf buf pos len history_index].
    rewrite size_t_id by lia. rewrite Hadd. cbn [mbind result_bind].
    rewrite length_app. replace (S (length s + length rest)) with (length s + S (length rest))%nat by lia.
    apply Hrun. }
  split; [exact Hmax1|]. split; [exact Hh1|]. split; [exact Hpos|].
  subst l0. cbn [len buflen buf] in *. rewrite Z.add_0_l in Hlen.
  split; [exact Hlen|]. split; [|exact Hterm].
  rewrite Htake. change (Z.to_nat 0) with 0%nat. rewrite take_0. reflexivity.
Qed.

End Sessions.





(** ** The prompt *)

Lemma strlenPerceived_text (s : list ascii) :
  Forall (fun c => c <> ESC_byte /\ c <> NUL) s ->
  forall tail i len,
    0 <= len -> len + size s < 2 ^ 31 ->
    exists i',
      strlenPerceived_loop (s ++ tail) i false len
      = strlenPerceived_loop tail i' false (len + size s).
Proof.
  induction 1 as [|c s [Hesc Hnul] _ IH]; intros tail i len Hlen Hmax.
  - exists i. unfold size. cbn [app length]. rewrite Z.add_0_r. reflexivity.
  - assert (size (c :: s) = size s + 1) as Hsz by (unfold size; cbn [length]; lia).
    assert (0 <= size s) by (unfold size; lia).
    cbn [app strlenPerceived_loop].
    destruct (Ascii.eqb_spec c NUL); [contradiction|].
    destruct (Ascii.eqb_spec c ESC_byte); [contradiction|].
    rewrite int_id by lia.
    destruct (IH tail (i + 1) (len + 1)) as [i' ->]; [lia..|].
    exists i'. f_equal. lia.
Qed.

Lemma in_final_range_not_NUL (c : ascii) : in_final_range c = true -> c <> NUL.
Proof. intros H ->. discriminate. Qed.

Lemma strlenPerceived_params (params : list ascii) :
  Forall (fun c => in_final_range c = false /\ c <> NUL) params ->
  forall tail i len,
    exists i',
      strlenPerceived_loop (params ++ tail) i true len
      = strlenPerceived_loop tail i' true len.
Proof.
  induction 1 as [|c s [Hr Hnul] _ IH]; intros tail i len.
  - exists i. reflexivity.
  - cbn [app strlenPerceived_loop].
    destruct (Ascii.eqb_spec c NUL); [contradiction|].
    rewrite Hr. cbn [negb]. apply IH.
Qed.

Lemma strlenPerceived_piece (p : piece) :
  piece_perceived p ->
  forall tail i len,
    0 <= len -> len + size (visible p) < 2 ^ 31 ->
    exists i',
      strlenPerceived_loop (bytes_of_piece p ++ tail) i false len
      = strlenPerceived_loop tail i' false (len + size (visible p)).
Proof.
  destruct p as [s|params final]; cbn [piece_perceived bytes_of_piece visible].
  - apply strlenPerceived_text.
  - intros [Hfinal Hparams] tail i len _ _.
    change (size []) with 0. rewrite Z.add_0_r.
    cbn [app strlenPerceived_loop Ascii.eqb Bool.eqb ESC_byte NUL Ascii.zero andb].
    rewrite <- app_assoc.
    destruct (strlenPerceived_params params Hparams ([final] ++ tail) (i + 2) len) as [i' ->].
    cbn [app strlenPerceived_loop].
    destruct (Ascii.eqb_spec final NUL) as [E|_];
      [exfalso; exact (in_final_range_not_NUL _ Hfinal E)|].
    rewrite Hfinal. cbn [negb]. eauto.
Qed.

Lemma prompt_text_cons (p : piece) (ps : list piece) :
  size (prompt_text (p :: ps)) = size (visible p) + size (prompt_text ps).
Proof. unfold prompt_text, size. cbn [fmap list_fmap concat]. rewrite length_app. lia. Qed.

Lemma size_nonneg {A : Type} (l : list A) : 0 <= size l.
Proof. unfold size. lia. Qed.

(** X8.  [strlenPerceived] counts the bytes of the text and none of an
    escape sequence: for a string made of text without ESC and of
    sequences ESC [ ... that each end at their first byte between 0x40
    and 0x7E, it returns the length of the text alone.  For the NULL
    pointer it returns 0. *)
Theorem strlenPerceived_counts_the_text (ps : list piece) (rest : list ascii) :
  Forall piece_perceived ps -> size (prompt_text ps) < 2 ^ 31 ->
  strlenPerceived (Some (prompt_bytes ps ++ NUL :: rest)) = Ok (size (prompt_text ps))
  /\ strlenPerceived None = Ok 0.
Proof.
  intros Hps Hmax. split; [|reflexivity]. unfold strlenPerceived.
  enough (forall i len, 0 <= len -> len + size (prompt_text ps) < 2 ^ 31 ->
            strlenPerceived_loop (prompt_bytes ps ++ NUL :: rest) i false len
            = Ok (len + size (prompt_text ps))) as Hloop
    by (rewrite Hloop by lia; reflexivity).
  clear Hmax. induction Hps as [|p ps Hp _ IH]; intros i len Hlen Hsum.
  - change (size (prompt_text [])) with 0. rewrite Z.add_0_r. reflexivity.
  - rewrite prompt_text_cons in *.
    pose proof (size_nonneg (visible p)). pose proof (size_nonneg (prompt_text ps)).
    unfold prompt_bytes. cbn [fmap list_fmap concat]. rewrite <- app_assoc.
    destruct (strlenPerceived_piece p Hp (concat (bytes_of_piece <$> ps) ++ NUL :: rest) i len)
      as [i' ->]; [lia..|].
    fold (prompt_bytes ps). rewrite IH by lia. f_equal. lia.
Qed.

Lemma strlenPerceived_counts_the_text_witness :
  strlenPerceived
    (Some (prompt_bytes [Csi (list_ascii_of_string "1;32") "m"; Text (list_ascii_of_string "db> ");
                         Csi (list_ascii_of_string "0") "m"] ++ NUL :: []))
  = Ok (size (prompt_text [Csi (list_ascii_of_string "1;32") "m";
                           Text (list_ascii_of_string "db> ");
                           Csi (list_ascii_of_string "0") "m"]))
  /\ strlenPerceived None = Ok 0.
Proof.
  apply (strlenPerceived_counts_the_text
           [Csi (list_ascii_of_string "1;32") "m"; Text (list_ascii_of_string "db> ");
            Csi (list_ascii_of_string "0") "m"] []).
  - repeat constructor; discriminate.
  - vm_compute. reflexivity.
Defined.

(** What [isAnsiEscape] finds: the first final byte from [off] on. *)
Lemma isAnsiEscape_loop_cases (b : list ascii) (n : Z) (fuel : nat) :
  n <= size b -> n < 2 ^ 64 ->
  forall off, 0 <= off <= n -> (Z.to_nat (n - off) < fuel)%nat ->
    (exists k c,
        isAnsiEscape_loop fuel b n off = Ok (Some k) /\ off < k <= n
        /\ b !! Z.to_nat (k - 1) = Some c /\ is_final c = true
        /\ forall j c', off <= j < k - 1 -> b !! Z.to_nat j = Some c' -> is_final c' = false)
    \/ (isAnsiEscape_loop fuel b n off = Ok None
        /\ forall j c', off <= j < n -> b !! Z.to_nat j = Some c' -> is_final c' = false).
Proof.
  intros Hn Hmax. induction fuel as [|fuel IH]; intros off Hoff Hfuel; [lia|].
  cbn [isAnsiEscape_loop]. destruct (Z.ltb_spec off n).
  2:{ right. split; [reflexivity|]. intros j c' Hj. lia. }
  destruct (load_is_Ok b off ltac:(lia)) as [c Hc]. rewrite Hc. cbn [mbind result_bind].
  apply load_Ok_inv in Hc as [_ Hc]. rewrite size_t_id by lia.
  destruct (is_final c) eqn:Ec.
  - left. exists (off + 1), c. split; [reflexivity|]. split; [lia|].
    replace (off + 1 - 1) with off by lia. split; [exact Hc|]. split; [exact Ec|].
    intros j c' Hj. lia.
  - assert (forall j c', j = off -> b !! Z.to_nat j = Some c' -> is_final c' = false) as Hoff'.
    { intros j c' -> Hc'. congruence. }
    destruct (IH (off + 1)) as [(k & c1 & Hrun & Hk & Hc1 & Hf & Hnone)|[Hrun Hnone]]; [lia..| |].
    + left. exists k, c1. split; [exact Hrun|]. split; [lia|]. split; [exact Hc1|].
      split; [exact Hf|]. intros j c' Hj Hc'.
      destruct (Z.eq_dec j off) as [E|]; [eapply Hoff'; eauto|]. eapply Hnone; [|exact Hc']. lia.
    + right. split; [exact Hrun|]. intros j c' Hj Hc'.
      destruct (Z.eq_dec j off) as [E|]; [eapply Hoff'; eauto|]. eapply Hnone; [|exact Hc']. lia.
Qed.

Lemma isAnsiEscape_cases (b : list ascii) (n : Z) :
  n <= size b -> n < 2 ^ 64 ->
  (exists k c,
      isAnsiEscape b n = Ok (Some k) /\ 3 <= k <= n
      /\ b !! 0%nat = Some ESC_byte /\ b !! 1%nat = Some "["%char
      /\ b !! Z.to_nat (k - 1) = Some c /\ is_final c = true
      /\ forall j c', 2 <= j < k - 1 -> b !! Z.to_nat j = Some c' -> is_final c' = false)
  \/ (isAnsiEscape b n = Ok None
      /\ (n <= 2 \/ b !! 0%nat <> Some ESC_byte \/ b !! 1%nat <> Some "["%char
          \/ forall j c', 2 <= j < n -> b !! Z.to_nat j = Some c' -> is_final c' = false)).
Proof.
  intros Hn Hmax. unfold isAnsiEscape. destruct (Z.ltb_spec 2 n).
  2:{ right. split; [reflexivity|]. left. lia. }
  destruct (load_is_Ok b 0 ltac:(lia)) as [c0 Hc0]. rewrite Hc0.
  destruct (load_is_Ok b 1 ltac:(lia)) as [c1 Hc1]. rewrite Hc1.
  cbn [mbind result_bind].
  apply load_Ok_inv in Hc0 as [_ Hc0]. apply load_Ok_inv in Hc1 as [_ Hc1].
  change (Z.to_nat 0) with 0%nat in Hc0. change (Z.to_nat 1) with 1%nat in Hc1.
  destruct (Ascii.eqb_spec c0 ESC_byte) as [->|Hne0]; cbn [andb].
  2:{ right. split; [reflexivity|]. right. left. congruence. }
  destruct (Ascii.eqb_spec c1 "["%char) as [->|Hne1].
  2:{ right. split; [reflexivity|]. right. right. left. congruence. }
  destruct (isAnsiEscape_loop_cases b n (fuel_of (n - 2)) Hn Hmax 2 ltac:(lia)
              ltac:(unfold fuel_of; lia))
    as [(k & c & Hrun & Hk & Hc & Hf & Hnone)|[Hrun Hnone]].
  - left. exists k, c. split; [exact Hrun|]. split; [lia|]. auto.
  - right. split; [exact Hrun|]. auto.
Qed.

(** X9.  [isAnsiEscape] never reads outside the [buf_len] bytes it is
    given, and it accepts, with the length [k], exactly the texts of at
    least three bytes that start with ESC [ and whose first final byte
    from the third on is the byte [k - 1]. *)
Theorem isAnsiEscape_accepts (b : list ascii) (n k : Z) :
  n <= size b -> n < 2 ^ 64 ->
  (exists r, isAnsiEscape b n = Ok r)
  /\ (isAnsiEscape b n = Ok (Some k)
      <-> 3 <= k <= n
          /\ b !! 0%nat = Some ESC_byte /\ b !! 1%nat = Some "["%char
          /\ (exists c, b !! Z.to_nat (k - 1) = Some c /\ is_final c = true)
          /\ forall j c', 2 <= j < k - 1 -> b !! Z.to_nat j = Some c' -> is_final c' = false).
Proof.
  intros Hn Hmax.
  destruct (isAnsiEscape_cases b n Hn Hmax)
    as [(k' & c & Hrun & Hk' & H0 & H1 & Hc & Hf & Hnone)|[Hrun Hnone]].
  - split; [eauto|]. rewrite Hrun. split.
    + intros [= <-]. eauto 10.
    + intros (Hk & _ & _ & (c1 & Hc1 & Hf1) & Hnone1).
      destruct (Z.lt_trichotomy k k') as [Hlt|[->|Hgt]]; [|reflexivity|].
      * rewrite (Hnone (k - 1) c1) in Hf1; [discriminate|lia|exact Hc1].
      * rewrite (Hnone1 (k' - 1) c) in Hf; [discriminate|lia|exact Hc].
  - split; [eauto|]. rewrite Hrun. split; [discriminate|].
    intros (Hk & H0 & H1 & (c1 & Hc1 & Hf1) & _).
    destruct Hnone as [?|[?|[?|Hnone]]]; [lia|contradiction|contradiction|].
    rewrite (Hnone (k - 1) c1) in Hf1; [discriminate|lia|exact Hc1].
Qed.

Lemma isAnsiEscape_accepts_witness :
  (exists r, isAnsiEscape ((ESC_byte :: list_ascii_of_string "[1;32mdb> ")) 10 = Ok r)
  /\ (isAnsiEscape ((ESC_byte :: list_ascii_of_string "[1;32mdb> ")) 10 = Ok (Some 7)
      <-> 3 <= 7 <= 10
          /\ (ESC_byte :: list_ascii_of_string "[1;32mdb> ") !! 0%nat = Some ESC_byte
          /\ (ESC_byte :: list_ascii_of_string "[1;32mdb> ") !! 1%nat = Some "["%char
          /\ (exists c, (ESC_byte :: list_ascii_of_string "[1;32mdb> ") !! Z.to_nat (7 - 1) = Some c
                        /\ is_final c = true)
          /\ forall j c', 2 <= j < 7 - 1 ->
               (ESC_byte :: list_ascii_of_string "[1;32mdb> ") !! Z.to_nat j = Some c' ->
               is_final c' = false).
Proof.
  apply (isAnsiEscape_accepts ((ESC_byte :: list_ascii_of_string "[1;32mdb> ")) 10 7);
    unfold size; simpl; lia.
Defined.

Lemma isAnsiEscape_text (c : ascii) (rest : list ascii) (n : Z) :
  c <> ESC_byte -> n <= size (c :: rest) -> n < 2 ^ 64 ->
  isAnsiEscape (c :: rest) n = Ok None.
Proof.
  intros Hc Hn Hmax.
  destruct (isAnsiEscape_cases (c :: rest) n Hn Hmax)
    as [(k & c' & _ & _ & H0 & _)|[Hrun _]]; [|exact Hrun].
  cbn in H0. congruence.
Qed.

Lemma isAnsiEscape_csi (params : list ascii) (final : ascii) (tail : list ascii) (n : Z) :
  piece_ok (Csi params final) ->
  3 + size params <= n -> n <= size (bytes_of_piece (Csi params final) ++ tail) ->
  n < 2 ^ 64 ->
  isAnsiEscape (bytes_of_piece (Csi params final) ++ tail) n = Ok (Some (3 + size params)).
Proof.
  intros [Hfinal Hparams] Hlen Hn Hmax. cbn [bytes_of_piece app] in *.
  pose proof (size_nonneg params) as Hpos.
  set (b := ESC_byte :: "["%char :: (params ++ [final]) ++ tail) in *.
  assert (forall j, 2 <= j < 2 + size params ->
            exists c, b !! Z.to_nat j = Some c /\ is_final c = false) as Hpar.
  { intros j Hj. subst b. unfold size in *.
    replace (Z.to_nat j) with (S (S (Z.to_nat (j - 2)))) by lia.
    match goal with
    | |- context [(?x :: ?y :: ?l) !! S (S ?i)] =>
        change ((x :: y :: l) !! S (S i)) with (l !! i)
    end.
    rewrite <- app_assoc. rewrite lookup_app_l by lia.
    destruct (lookup_lt_is_Some_2 params (Z.to_nat (j - 2)) ltac:(lia)) as [c Hc].
    exists c. split; [exact Hc|].
    rewrite Forall_lookup in Hparams. exact (Hparams _ _ Hc). }
  assert (b !! Z.to_nat (2 + size params) = Some final) as Hfin.
  { subst b. unfold size in *.
    replace (Z.to_nat (2 + Z.of_nat (length params))) with (S (S (length params))) by lia.
    match goal with
    | |- context [(?x :: ?y :: ?l) !! S (S ?i)] =>
        change ((x :: y :: l) !! S (S i)) with (l !! i)
    end.
    rewrite <- app_assoc.
    rewrite lookup_app_r by lia. rewrite Nat.sub_diag. reflexivity. }
  destruct (isAnsiEscape_cases b n Hn Hmax)
    as [(k & c & Hrun & Hk & _ & _ & Hc & Hf & Hnone)|[_ Hnone]].
  - rewrite Hrun. do 2 f_equal.
    destruct (Z.lt_trichotomy (k - 1) (2 + size params)) as [Hlt|[E|Hgt]]; [|lia|].
    + destruct (Hpar (k - 1)) as (c' & Hc' & Hf'); [lia|]. congruence.
    + rewrite (Hnone (2 + size params) final) in Hfinal; [discriminate|lia|exact Hfin].
  - exfalso. destruct Hnone as [?|[H0|[H1|Hnone]]]; [lia|apply H0; reflexivity|apply H1; reflexivity|].
    rewrite (Hnone (2 + size params) final) in Hfinal; [discriminate|lia|exact Hfin].
Qed.

Section Prompt.

Context (prompt : list ascii) (plen : Z).
Context (Hplen : plen = size prompt) (Hmax : plen < 2 ^ 63).

Lemma promptTextColumnLen_text (s : list ascii) :
  Forall (fun c => c <> ESC_byte) s ->
  forall pre post b bl fuel,
    prompt = pre ++ s ++ post -> 0 <= bl -> bl + size s <= size b -> size b < 2 ^ 63 ->
    promptTextColumnLen_loop (length s + fuel) prompt plen b bl (size pre)
    = promptTextColumnLen_loop fuel prompt plen
        (take (Z.to_nat bl) b ++ s ++ drop (Z.to_nat (bl + size s)) b)
        (bl + size s) (size pre + size s).
Proof using Hplen Hmax.
  induction 1 as [|c s Hc _ IH]; intros pre post b bl fuel Hprompt Hbl Hroom Hb.
  - change (size []) with 0. rewrite !Z.add_0_r. cbn [length Nat.add app].
    rewrite take_drop. reflexivity.
  - assert (size (c :: s) = size s + 1) as Hsz by (unfold size; cbn [length]; lia).
    pose proof (size_nonneg s). pose proof (size_nonneg pre). pose proof (size_nonneg post).
    assert (size prompt = size pre + size (c :: s) + size post) as Hsize
      by (rewrite Hprompt; unfold size; rewrite !length_app; lia).
    cbn [length Nat.add promptTextColumnLen_loop].
    destruct (Z.ltb_spec (size pre) plen); [|lia].
    assert (drop (Z.to_nat (size pre)) prompt = c :: s ++ post) as Hdrop.
    { rewrite Hprompt. unfold size. rewrite Nat2Z.id. rewrite drop_app_length. reflexivity. }
    rewrite Hdrop. rewrite (size_t_id (plen - size pre)) by lia.
    rewrite isAnsiEscape_text; [|exact Hc| |lia].
    2:{ rewrite <- Hdrop. unfold size in *. rewrite length_drop. lia. }
    cbn [mbind result_bind].
    assert (load prompt (size pre) = Ok c) as ->.
    { apply load_inside; [lia|]. rewrite <- (take_drop (Z.to_nat (size pre)) prompt).
      rewrite Hdrop. rewrite lookup_app_r by (rewrite length_take; lia).
      rewrite length_take. unfold size in *.
      replace (Z.to_nat (Z.of_nat (length pre)) - _)%nat with 0%nat by lia. reflexivity. }
    cbn [mbind result_bind]. rewrite store_inside by lia. cbn [mbind result_bind].
    rewrite !size_t_id by lia.
    replace (size pre + 1) with (size (pre ++ [c])) by (unfold size; rewrite length_app; cbn; lia).
    rewrite (IH (pre ++ [c]) post); [|rewrite <- app_assoc; exact Hprompt|lia|len_lia|len_lia].
    f_equal; [|lia|unfold size; rewrite length_app; cbn [length]; lia].
    rewrite drop_insert_lt by lia.
    rewrite (insert_take_drop b) by (unfold size in *; lia).
    rewrite cons_middle.
    rewrite (app_assoc (take (Z.to_nat bl) b) [c]).
    rewrite take_app_length' by len_lia.
    replace (Z.to_nat (bl + size (c :: s))) with (Z.to_nat (bl + 1 + size s)) by lia.
    rewrite <- !app_assoc. reflexivity.
Qed.

Lemma promptTextColumnLen_csi (params : list ascii) (final : ascii) :
  piece_ok (Csi params final) ->
  forall pre post b bl fuel,
    prompt = pre ++ bytes_of_piece (Csi params final) ++ post ->
    promptTextColumnLen_loop (S fuel) prompt plen b bl (size pre)
    = promptTextColumnLen_loop fuel prompt plen b bl
        (size pre + size (bytes_of_piece (Csi params final))).
Proof using Hplen Hmax.
  intros Hok pre post b bl fuel Hprompt.
  pose proof (size_nonneg params). pose proof (size_nonneg pre). pose proof (size_nonneg post).
  assert (size (bytes_of_piece (Csi params final)) = 3 + size params) as Hsz.
  { unfold size. cbn [bytes_of_piece length]. rewrite length_app. cbn [length]. lia. }
  assert (size prompt = size pre + (3 + size params) + size post) as Hsize.
  { rewrite Hprompt. unfold size in *. rewrite !length_app. lia. }
  cbn [promptTextColumnLen_loop].
  destruct (Z.ltb_spec (size pre) plen); [|lia].
  assert (drop (Z.to_nat (size pre)) prompt = bytes_of_piece (Csi params final) ++ post) as ->.
  { rewrite Hprompt. unfold size. rewrite Nat2Z.id. rewrite drop_app_length. reflexivity. }
  rewrite (size_t_id (plen - size pre)) by lia.
  rewrite isAnsiEscape_csi; [|exact Hok|lia| |lia].
  2:{ unfold size in *. rewrite length_app. lia. }
  cbn [mbind result_bind]. rewrite size_t_id by lia. rewrite Hsz. reflexivity.
Qed.

Lemma prompt_bytes_cons (p : piece) (ps : list piece) :
  prompt_bytes (p :: ps) = bytes_of_piece p ++ prompt_bytes ps.
Proof. reflexivity. Qed.

Lemma prompt_text_cons_eq (p : piece) (ps : list piece) :
  prompt_text (p :: ps) = visible p ++ prompt_text ps.
Proof. reflexivity. Qed.

(** The loop over a prompt in pieces: the text is copied, the sequences
    are passed over. *)
Lemma promptTextColumnLen_pieces (ps : list piece) :
  Forall piece_ok ps ->
  forall pre post b bl fuel,
    prompt = pre ++ prompt_bytes ps ++ post ->
    0 <= bl -> bl + size (prompt_text ps) <= size b -> size b < 2 ^ 63 ->
    exists fuel',
      (fuel <= fuel')%nat
      /\ promptTextColumnLen_loop (length (prompt_bytes ps) + fuel) prompt plen b bl (size pre)
         = promptTextColumnLen_loop fuel' prompt plen
             (take (Z.to_nat bl) b ++ prompt_text ps
              ++ drop (Z.to_nat (bl + size (prompt_text ps))) b)
             (bl + size (prompt_text ps)) (size pre + size (prompt_bytes ps)).
Proof using Hplen Hmax.
  induction 1 as [|p ps Hp _ IH]; intros pre post b bl fuel Hprompt Hbl Hroom Hb.
  - exists fuel. split; [lia|]. change (size (prompt_text [])) with 0.
    change (size (prompt_bytes [])) with 0. rewrite !Z.add_0_r.
    cbn [prompt_bytes prompt_text fmap list_fmap concat length Nat.add app].
    rewrite take_drop. reflexivity.
  - rewrite prompt_bytes_cons, prompt_text_cons_eq in *.
    pose proof (size_nonneg (visible p)). pose proof (size_nonneg (prompt_text ps)).
    assert (size (visible p ++ prompt_text ps) = size (visible p) + size (prompt_text ps)) as Ht
      by (unfold size; rewrite length_app; lia).
    assert (size (bytes_of_piece p ++ prompt_bytes ps)
            = size (bytes_of_piece p) + size (prompt_bytes ps)) as Hbs
      by (unfold size; rewrite length_app; lia).
    assert (size (pre ++ bytes_of_piece p) = size pre + size (bytes_of_piece p)) as Hpre
      by (unfold size; rewrite length_app; lia).
    rewrite <- app_assoc in Hprompt.
    rewrite length_app, <- Nat.add_assoc.
    destruct p as [s|params final]; cbn [piece_ok bytes_of_piece visible] in *.
    + rewrite (promptTextColumnLen_text s Hp pre (prompt_bytes ps ++ post));
        [|exact Hprompt|lia|lia|lia].
      rewrite <- Hpre.
      destruct (IH (pre ++ s) post
                  (take (Z.to_nat bl) b ++ s ++ drop (Z.to_nat (bl + size s)) b)
                  (bl + size s) fuel) as (fuel' & Hfuel & ->);
        [rewrite <- app_assoc; exact Hprompt|lia|len_lia|len_lia|].
      exists fuel'. split; [exact Hfuel|]. f_equal; [|lia|lia].
      rewrite !(app_assoc (take (Z.to_nat bl) b) s).
      set (X := take (Z.to_nat bl) b ++ s).
      assert (length X = Z.to_nat (bl + size s)) as HX by (subst X; len_lia).
      rewrite take_app_length' by lia.
      rewrite drop_app_ge by lia. rewrite drop_drop.
      rewrite HX. subst X. rewrite <- !app_assoc. do 3 f_equal. f_equal. lia.
    + set (n := length (ESC_byte :: "["%char :: params ++ [final])) in *.
      assert (n = S (length params + 2)) as -> by (subst n; cbn [length]; rewrite length_app; cbn [length]; lia).
      cbn [Nat.add].
      rewrite (promptTextColumnLen_csi params final Hp pre (prompt_bytes ps ++ post));
        [|exact Hprompt].
      cbn [bytes_of_piece]. rewrite <- Hpre.
      destruct (IH (pre ++ ESC_byte :: "["%char :: params ++ [final]) post b bl
                  (length params + 2 + fuel)%nat) as (fuel' & Hfuel & Hrun);
        [rewrite <- app_assoc; exact Hprompt|lia|change (size []) with 0 in *; lia|lia|].
      exists fuel'. split; [lia|].
      replace (length params + 2 + (length (prompt_bytes ps) + fuel))%nat
        with (length (prompt_bytes ps) + (length params + 2 + fuel))%nat by lia.
      rewrite Hrun. change (size []) with 0 in *. cbn [app].
      f_equal. unfold size. repeat (rewrite ?length_app; cbn [length]). lia.
Qed.

End Prompt.

Lemma promptTextColumnLen_loop_end (fuel : nat) (prompt : list ascii) (plen : Z)
    (b : list ascii) (bl : Z) :
  (1 <= fuel)%nat ->
  promptTextColumnLen_loop fuel prompt plen b bl plen = Ok (b, bl).
Proof.
  intros Hfuel. destruct fuel as [|fuel]; [lia|]. cbn [promptTextColumnLen_loop].
  rewrite Z.ltb_irrefl. reflexivity.
Qed.

(** X10.  [promptTextColumnLen] measures the text of the prompt and
    none of its escape sequences: for a prompt made of text without ESC
    and of sequences ESC [ ... final, with at most [LINENOISE_MAX_LINE]
    bytes of text, it is [columnPos] of the text alone, which for
    single-byte characters is the number of its bytes. *)
Theorem promptTextColumnLen_counts_the_text (enc : encoding) (junk : ascii)
    (ps : list piece) :
  Forall piece_ok ps -> size (prompt_bytes ps) < 2 ^ 63 ->
  size (prompt_text ps) <= LINENOISE_MAX_LINE ->
  promptTextColumnLen enc junk (prompt_bytes ps) (size (prompt_bytes ps))
  = columnPos enc
      (prompt_text ps
       ++ replicate (Z.to_nat (LINENOISE_MAX_LINE - size (prompt_text ps))) junk)
      (size (prompt_text ps)) (size (prompt_text ps))
  /\ promptTextColumnLen defaultEncoding junk (prompt_bytes ps) (size (prompt_bytes ps))
     = Ok (size (prompt_text ps)).
Proof.
  intros Hps Hmax Htext.
  pose proof (size_nonneg (prompt_text ps)) as Hpos.
  assert (forall e, promptTextColumnLen e junk (prompt_bytes ps) (size (prompt_bytes ps))
                    = columnPos e
                        (prompt_text ps
                         ++ replicate (Z.to_nat (LINENOISE_MAX_LINE - size (prompt_text ps))) junk)
                        (size (prompt_text ps)) (size (prompt_text ps))) as Hrun.
  { intros e. unfold promptTextColumnLen.
    replace (fuel_of (size (prompt_bytes ps))) with (length (prompt_bytes ps) + 1)%nat
      by (unfold fuel_of, size; lia).
    destruct (promptTextColumnLen_pieces (prompt_bytes ps) (size (prompt_bytes ps))
                eq_refl Hmax ps Hps [] []
                (replicate (Z.to_nat LINENOISE_MAX_LINE) junk) 0 1%nat)
      as (fuel' & Hfuel & Hloop);
      [rewrite app_nil_r; reflexivity | lia
      | unfold size in *; rewrite length_replicate; lia
      | unfold size; rewrite length_replicate; vm_compute; reflexivity |].
    change (size []) with 0 in Hloop. rewrite !Z.add_0_l in Hloop.
    rewrite Hloop. rewrite promptTextColumnLen_loop_end by exact Hfuel.
    cbn [mbind result_bind]. change (Z.to_nat 0) with 0%nat. rewrite take_0. cbn [app].
    rewrite drop_replicate. do 3 f_equal. lia. }
  split; [apply Hrun|]. rewrite Hrun. apply columnPos_default. unfold LINENOISE_MAX_LINE in *. lia.
Qed.

Lemma promptTextColumnLen_counts_the_text_witness :
  let ps := [Csi (list_ascii_of_string "1;32") "m"; Text (list_ascii_of_string "db> ");
             Csi (list_ascii_of_string "0") "m"] in
  promptTextColumnLen wideEncoding NUL (prompt_bytes ps) (size (prompt_bytes ps))
  = columnPos wideEncoding
      (prompt_text ps
       ++ replicate (Z.to_nat (LINENOISE_MAX_LINE - size (prompt_text ps))) NUL)
      (size (prompt_text ps)) (size (prompt_text ps))
  /\ promptTextColumnLen defaultEncoding NUL (prompt_bytes ps) (size (prompt_bytes ps))
     = Ok (size (prompt_text ps)).
Proof.
  apply (promptTextColumnLen_counts_the_text wideEncoding NUL
           [Csi (list_ascii_of_string "1;32") "m"; Text (list_ascii_of_string "db> ");
            Csi (list_ascii_of_string "0") "m"]).
  - repeat constructor; discriminate.
  - vm_compute. reflexivity.
  - vm_compute. discriminate.
Defined.

(** X11.  The local buffer of [promptTextColumnLen] has
    [LINENOISE_MAX_LINE] bytes and the copy is not bounded: the byte of
    text that follows [LINENOISE_MAX_LINE] bytes of text is written past
    its end. *)
Theorem promptTextColumnLen_overflows (enc : encoding) (junk c : ascii)
    (ps : list piece) (tail : list ascii) :
  Forall piece_ok ps -> c <> ESC_byte ->
  size (prompt_text ps) = LINENOISE_MAX_LINE ->
  size (prompt_bytes ps ++ c :: tail) < 2 ^ 63 ->
  promptTextColumnLen enc junk (prompt_bytes ps ++ c :: tail)
    (size (prompt_bytes ps ++ c :: tail))
  = OutOfBounds LINENOISE_MAX_LINE.
Proof.
  intros Hps Hc Htext Hmax. unfold promptTextColumnLen.
  set (prompt := prompt_bytes ps ++ c :: tail) in *.
  replace (fuel_of (size prompt)) with (length (prompt_bytes ps) + S (S (length tail)))%nat
    by (subst prompt; unfold fuel_of, size; rewrite length_app; cbn [length]; lia).
  destruct (promptTextColumnLen_pieces prompt (size prompt) eq_refl Hmax ps Hps []
              (c :: tail) (replicate (Z.to_nat LINENOISE_MAX_LINE) junk) 0
              (S (S (length tail))))
    as (fuel' & Hfuel & Hloop);
    [reflexivity | lia
    | rewrite Htext; unfold size; rewrite length_replicate; vm_compute; discriminate
    | unfold size; rewrite length_replicate; vm_compute; reflexivity |].
  change (size []) with 0 in Hloop. rewrite !Z.add_0_l in Hloop. rewrite Hloop.
  destruct fuel' as [|fuel']; [lia|].
  set (b := take _ _ ++ _).
  assert (size b = LINENOISE_MAX_LINE) as Hb.
  { subst b. change (Z.to_nat 0) with 0%nat. rewrite take_0. cbn [app].
    rewrite Htext, drop_replicate. unfold size in *. rewrite length_app, length_replicate.
    rewrite Nat2Z.inj_add, Htext. vm_compute. reflexivity. }
  cbn [promptTextColumnLen_loop].
  assert (size prompt = size (prompt_bytes ps) + 1 + size tail) as Hsize
    by (subst prompt; unfold size; rewrite length_app; cbn [length]; lia).
  pose proof (size_nonneg (prompt_bytes ps)). pose proof (size_nonneg tail).
  destruct (Z.ltb_spec (size (prompt_bytes ps)) (size prompt)); [|lia].
  assert (drop (Z.to_nat (size (prompt_bytes ps))) prompt = c :: tail) as ->.
  { subst prompt. unfold size. rewrite Nat2Z.id, drop_app_length. reflexivity. }
  rewrite (size_t_id (size prompt - size (prompt_bytes ps))) by lia.
  rewrite isAnsiEscape_text; [|exact Hc|unfold size in *; cbn [length] in *; lia|lia].
  cbn [mbind result_bind].
  assert (load prompt (size (prompt_bytes ps)) = Ok c) as ->.
  { apply load_inside; [lia|]. subst prompt. unfold size. rewrite Nat2Z.id.
    rewrite lookup_app_r by lia. rewrite Nat.sub_diag. reflexivity. }
  cbn [mbind result_bind]. unfold store. rewrite Hb, Htext.
  rewrite Z.ltb_irrefl. reflexivity.
Qed.

Lemma promptTextColumnLen_overflows_witness :
  promptTextColumnLen defaultEncoding NUL
    (prompt_bytes [Text (replicate 4096 "a"%char)] ++ "b"%char :: [])
    (size (prompt_bytes [Text (replicate 4096 "a"%char)] ++ "b"%char :: []))
  = OutOfBounds LINENOISE_MAX_LINE.
Proof.
  apply (promptTextColumnLen_overflows defaultEncoding NUL "b"
           [Text (replicate 4096 "a"%char)] []).
  - constructor; [|constructor]. cbn [piece_ok]. apply Forall_forall.
    intros x Hx. apply elem_of_replicate in Hx as [-> _]. discriminate.
  - discriminate.
  - vm_compute. reflexivity.
  - vm_compute. reflexivity.
Defined.

(** The loop of [promptTextColumnLen] on any prompt: it ends, it reads
    the prompt inside [plen], and it writes at most one byte for each
    byte it reads. *)
Lemma promptTextColumnLen_loop_defined (prompt : list ascii) (plen : Z) (fuel : nat) :
  plen <= size prompt -> plen < 2 ^ 63 ->
  forall off b bl,
    0 <= off <= plen -> (Z.to_nat (plen - off) < fuel)%nat ->
    0 <= bl -> bl + (plen - off) <= size b -> size b < 2 ^ 63 ->
    exists b' bl',
      promptTextColumnLen_loop fuel prompt plen b bl off = Ok (b', bl')
      /\ bl <= bl' <= bl + (plen - off) /\ size b' = size b.
Proof.
  intros Hplen Hmax. induction fuel as [|fuel IH]; intros off b bl Hoff Hfuel Hbl Hroom Hb; [lia|].
  cbn [promptTextColumnLen_loop]. destruct (Z.ltb_spec off plen).
  2:{ exists b, bl. split; [reflexivity|]. lia. }
  rewrite (size_t_id (plen - off)) by lia.
  destruct (isAnsiEscape_cases (drop (Z.to_nat off) prompt) (plen - off))
    as [(k & c & -> & Hk & _)|[-> _]];
    [unfold size in *; rewrite length_drop; lia | lia | |]; cbn [mbind result_bind].
  - rewrite size_t_id by lia.
    destruct (IH (off + k) b bl) as (b' & bl' & -> & Hbl' & Hsz); [lia..|].
    exists b', bl'. split; [reflexivity|]. lia.
  - destruct (load_is_Ok prompt off ltac:(lia)) as [c ->]. cbn [mbind result_bind].
    rewrite store_inside by lia. cbn [mbind result_bind]. rewrite !size_t_id by lia.
    destruct (IH (off + 1) (<[Z.to_nat bl:=c]> b) (bl + 1)) as (b' & bl' & -> & Hbl' & Hsz);
      [lia | lia | lia | len_lia | len_lia |].
    exists b', bl'. split; [reflexivity|]. split; [lia|]. rewrite Hsz. len_lia.
Qed.

(** X12.  For every prompt of at most [LINENOISE_MAX_LINE] bytes,
    whatever it holds, [promptTextColumnLen] stays inside the prompt and
    inside its buffer, and the column length it returns for single-byte
    characters is at most the number of bytes of the prompt. *)
Theorem promptTextColumnLen_bounded (junk : ascii) (prompt : list ascii) (plen : Z) :
  0 <= plen <= size prompt -> plen <= LINENOISE_MAX_LINE ->
  exists n, promptTextColumnLen defaultEncoding junk prompt plen = Ok n /\ 0 <= n <= plen.
Proof.
  intros Hplen Hmax. unfold promptTextColumnLen, LINENOISE_MAX_LINE in *.
  destruct (promptTextColumnLen_loop_defined prompt plen (fuel_of plen) ltac:(lia) ltac:(lia)
              0 (replicate (Z.to_nat 4096) junk) 0)
    as (b' & bl' & -> & Hbl' & _);
    [lia | unfold fuel_of; lia | lia
    | unfold size; rewrite length_replicate; lia
    | unfold size; rewrite length_replicate; lia |].
  cbn [mbind result_bind]. rewrite columnPos_default by lia.
  exists bl'. split; [reflexivity|lia].
Qed.

Lemma promptTextColumnLen_bounded_witness :
  exists n,
    promptTextColumnLen defaultEncoding NUL (ESC_byte :: list_ascii_of_string "[1mab") 5 = Ok n
    /\ 0 <= n <= 5.
Proof.
  apply (promptTextColumnLen_bounded NUL (ESC_byte :: list_ascii_of_string "[1mab") 5).
  - unfold size. simpl. lia.
  - unfold LINENOISE_MAX_LINE. lia.
Defined.

(** ** Moving in the history *)

(** The line being edited is saved in the slot it came from. *)
Lemma history_holds_store (h : historyState) (ss : list string) (j : Z) (s : string) :
  history_holds h ss -> 0 <= j < size ss ->
  exists a a',
    history h = Some a /\ store a j (Some s) = Ok a'
    /\ history_holds (set_history a' h) (<[Z.to_nat j:=s]> ss)
    /\ forall i, 0 <= i < size ss -> i <> j ->
         exists e, ss !! Z.to_nat i = Some e /\ load a' i = Ok (Some e).
Proof.
  intros (Hlen & Hmax & Ha) Hj.
  destruct (history h) as [a|] eqn:E.
  2:{ subst ss. change (size []) with 0 in Hj. lia. }
  destruct Ha as [Hsz Htake].
  exists a. eexists. split; [reflexivity|].
  rewrite store_inside by lia. split; [reflexivity|]. split.
  - unfold history_holds. cbn [set_history history history_len history_max_len].
    split; [unfold size in *; rewrite length_insert; lia|]. split; [lia|].
    split; [len_lia|]. rewrite length_insert.
    rewrite take_insert_lt by (unfold size in *; lia).
    rewrite Htake. rewrite list_fmap_insert. reflexivity.
  - intros i Hi Hne.
    destruct (lookup_lt_is_Some_2 ss (Z.to_nat i) ltac:(unfold size in *; lia)) as [e He].
    exists e. split; [exact He|]. apply load_inside; [lia|].
    rewrite list_lookup_insert_ne by lia.
    assert (take (length ss) a !! Z.to_nat i = Some (Some e)) as Hget
      by (rewrite Htake, list_lookup_fmap, He; reflexivity).
    rewrite lookup_take_lt in Hget by (unfold size in *; lia). exact Hget.
Qed.

(** X13.  Moving in the history never leaves it.  With fewer than two
    entries [linenoiseEditHistoryNext] does nothing.  At the oldest entry
    "previous", and at the newest "next", leave the editing state as it
    is: the index, the line and the cursor do not change; the line is
    still saved in the slot of the entry it was shown from. *)
Theorem linenoiseEditHistoryNext_at_the_ends (l : linenoiseState) (h : historyState)
    (ss : list string) (cur : string) (dir : Z) :
  history_holds h ss -> history_max_len h < 2 ^ 31 ->
  0 <= history_index l < history_len h -> strdup (buf l) = Ok cur ->
  (history_len h <= 1 -> linenoiseEditHistoryNext l h dir = Ok (l, h))
  /\ (1 < history_len h ->
      (dir = LINENOISE_HISTORY_PREV /\ history_index l = history_len h - 1)
      \/ (dir <> LINENOISE_HISTORY_PREV /\ history_index l = 0) ->
      exists h',
        linenoiseEditHistoryNext l h dir = Ok (l, h')
        /\ history_len h' = history_len h
        /\ history_holds h'
             (<[Z.to_nat (history_len h - 1 - history_index l):=cur]> ss)).
Proof.
  intros Hh Hmax Hidx Hcur. pose proof Hh as (Hlen & Hle & _).
  unfold linenoiseEditHistoryNext. split.
  - intros Hfew. destruct (Z.ltb_spec 1 (history_len h)); [lia|reflexivity].
  - intros Hmany Hend. destruct (Z.ltb_spec 1 (history_len h)); [|lia].
    rewrite Hcur. cbn [mbind result_bind].
    destruct (history_holds_store h ss (history_len h - 1 - history_index l) cur Hh
                ltac:(lia)) as (a & a' & Ha & Hst & Hh' & _).
    rewrite Ha. change (default [] (Some a)) with a. rewrite Hst. cbn [mbind result_bind].
    cbn [set_history_index history_index set_history history_len].
    exists (set_history a' h). split; [|split; [reflexivity|exact Hh']].
    destruct Hend as [[-> Hi]|[Hd Hi]].
    + rewrite Z.eqb_refl. rewrite int_id by lia.
      destruct (Z.ltb_spec (history_index l + 1) 0); [lia|].
      destruct (Z.leb_spec (history_len h) (history_index l + 1)); [|lia].
      rewrite <- Hi. destruct l; reflexivity.
    + destruct (Z.eqb_spec dir LINENOISE_HISTORY_PREV); [contradiction|].
      rewrite int_id by lia.
      destruct (Z.ltb_spec (history_index l + -1) 0); [|lia].
      rewrite <- Hi. destruct l; reflexivity.
Qed.

Lemma strlen_line (b s : list ascii) :
  take (length s) b = s -> load b (size s) = Ok NUL ->
  Forall (fun c => c <> NUL) s ->
  strlen b = Ok (size s).
Proof.
  intros Htake Hterm Hs. apply load_Ok_inv in Hterm as [Hin Hget].
  unfold size in Hget. rewrite Nat2Z.id in Hget.
  assert (b = s ++ NUL :: drop (S (length s)) b) as Hb.
  { rewrite <- (take_drop (length s) b) at 1. rewrite Htake. f_equal.
    apply drop_S. exact Hget. }
  unfold strlen. rewrite Hb. rewrite strlen_from_app by exact Hs. reflexivity.
Qed.

(** What [strncpy] and the terminator written after it leave in the
    buffer: the entry, cut to fit. *)
Lemma strncpy_then_terminate (b : list ascii) (e : string) (n : Z) :
  1 <= n <= size b -> size b < 2 ^ 63 ->
  let k := Z.min (size (list_ascii_of_string e)) (n - 1) in
  exists b',
    (b1 ← strncpy b e n; store b1 (size_t (n - 1)) NUL) = Ok b'
    /\ size b' = size b
    /\ take (Z.to_nat k) b' = take (Z.to_nat k) (list_ascii_of_string e)
    /\ load b' k = Ok NUL.
Proof.
  intros Hn Hb k. unfold strncpy. set (es := list_ascii_of_string e) in *.
  pose proof (size_nonneg es) as Hes.
  destruct (Z.leb_spec 0 n); [|lia]. destruct (Z.leb_spec n (size b)); [|lia].
  cbn [andb negb mbind result_bind]. rewrite size_t_id by lia.
  set (b1 := take (Z.to_nat n) (es ++ replicate (Z.to_nat n) NUL) ++ drop (Z.to_nat n) b).
  assert (length (take (Z.to_nat n) (es ++ replicate (Z.to_nat n) NUL)) = Z.to_nat n) as Hl1.
  { rewrite length_take, length_app, length_replicate. lia. }
  assert (size b1 = size b) as Hsz1.
  { subst b1. unfold size in *. rewrite length_app, Hl1, length_drop. lia. }
  rewrite store_inside by lia. eexists. split; [reflexivity|]. split; [len_lia|].
  split.
  - rewrite take_insert_ge by lia. subst b1.
    rewrite take_app_le by lia. rewrite take_take.
    replace (Z.to_nat k `min` Z.to_nat n)%nat with (Z.to_nat k) by lia.
    apply take_app_le. unfold size in *. lia.
  - apply load_inside; [lia|].
    destruct (Z.eq_dec k (n - 1)) as [->|Hne].
    + apply list_lookup_insert_eq. unfold size in *. lia.
    + rewrite list_lookup_insert_ne by lia. subst b1.
      rewrite lookup_app_l by lia. rewrite lookup_take_lt by lia.
      assert (k = size es) as -> by lia. unfold size. rewrite Nat2Z.id.
      rewrite lookup_app_r by lia. rewrite Nat.sub_diag.
      apply lookup_replicate_2. lia.
Qed.

Lemma Forall_take_not_NUL (s : list ascii) (k : nat) :
  Forall (fun c => c <> NUL) s -> Forall (fun c => c <> NUL) (take k s).
Proof. apply Forall_take. Qed.

(** X14.  Moving to another entry of the history shows it: the line
    becomes the entry, cut to the [buflen - 1] bytes the buffer takes if
    it is longer, with the cursor at its end and the terminator after it;
    and the line that was being edited is saved in the slot of the entry
    it was shown from, so that an edit made to an entry is kept. *)
Theorem linenoiseEditHistoryNext_shows_the_entry (l : linenoiseState) (h : historyState)
    (ss : list string) (cur e : string) (dir i' : Z) :
  history_holds h ss -> history_max_len h < 2 ^ 31 ->
  0 <= history_index l < history_len h -> strdup (buf l) = Ok cur ->
  i' = history_index l + (if dir =? LINENOISE_HISTORY_PREV then 1 else -1) ->
  0 <= i' < history_len h ->
  ss !! Z.to_nat (history_len h - 1 - i') = Some e ->
  Forall (fun c => c <> NUL) (list_ascii_of_string e) ->
  1 <= buflen l <= size (buf l) -> size (buf l) < 2 ^ 63 ->
  exists l' h',
    linenoiseEditHistoryNext l h dir = Ok (l', h')
    /\ history_index l' = i' /\ buflen l' = buflen l
    /\ pos l' = len l'
    /\ len l' = Z.min (size (list_ascii_of_string e)) (buflen l - 1)
    /\ line l'
       = Ok (string_of_list_ascii (take (Z.to_nat (len l')) (list_ascii_of_string e)))
    /\ terminator l' = Ok NUL
    /\ history_len h' = history_len h
    /\ history_holds h'
         (<[Z.to_nat (history_len h - 1 - history_index l):=cur]> ss).
Proof.
  intros Hh Hmax Hidx Hcur Hi' Hin He Hnul Hbl Hsz. pose proof Hh as (Hlen & Hle & _).
  unfold linenoiseEditHistoryNext.
  destruct (Z.ltb_spec 1 (history_len h)).
  2:{ destruct (dir =? LINENOISE_HISTORY_PREV); lia. }
  rewrite Hcur. cbn [mbind result_bind].
  destruct (history_holds_store h ss (history_len h - 1 - history_index l) cur Hh ltac:(lia))
    as (a & a' & Ha & Hst & Hh' & Hother).
  rewrite Ha. change (default [] (Some a)) with a. rewrite Hst. cbn [mbind result_bind].
  cbn [set_history_index history_index set_history history_len buf buflen].
  rewrite <- Hi'. rewrite int_id by lia.
  destruct (Z.ltb_spec i' 0); [lia|].
  destruct (Z.leb_spec (history_len h) i'); [lia|].
  unfold history_at. cbn [history set_history history_len].
  destruct (Hother (history_len h - 1 - i')) as (e' & He' & Hload);
    [lia | destruct (dir =? LINENOISE_HISTORY_PREV); lia |].
  assert (e' = e) as -> by congruence.
  rewrite Hload. cbn [mbind result_bind].
  destruct (strncpy_then_terminate (buf l) e (buflen l) Hbl Hsz)
    as (b' & Hcopy & Hsz' & Htake & Hterm).
  apply bind_Ok in Hcopy as (b1 & -> & Hstore). cbn [mbind result_bind].
  rewrite Hstore. cbn [mbind result_bind].
  set (k := Z.min (size (list_ascii_of_string e)) (buflen l - 1)) in *.
  pose proof (size_nonneg (list_ascii_of_string e)) as Hes.
  set (t := take (Z.to_nat k) (list_ascii_of_string e)) in *.
  assert (size t = k) as Ht by (subst t; unfold size in *; rewrite length_take; lia).
  assert (take (length t) b' = t) as Htake'.
  { unfold size in Ht. replace (length t) with (Z.to_nat k) by lia. exact Htake. }
  assert (Forall (fun c => c <> NUL) t) as Hnt by (apply Forall_take; exact Hnul).
  rewrite (strlen_line b' t Htake') by (rewrite ?Ht; assumption).
  cbn [mbind result_bind].
  exists (set_pos k (set_len k (set_buf b' (set_history_index i' l)))), (set_history a' h).
  split; [rewrite Ht; reflexivity|].
  cbn [set_pos set_len set_buf set_history_index history_index buflen pos len buf].
  do 4 (split; [reflexivity|]). split; [|split; [exact Hterm|split; [reflexivity|exact Hh']]].
  unfold line. cbn [buf]. rewrite <- Ht in Hterm.
  apply strdup_line; [exact Htake'|exact Hterm|exact Hnt].
Qed.

Lemma linenoiseEditHistoryNext_shows_the_entry_witness :
  exists l' h',
    linenoiseEditHistoryNext (editing "ls" 8 2) (history_of 100 ["make"; "git log"; "ls"]%string)
      LINENOISE_HISTORY_PREV = Ok (l', h')
    /\ history_index l' = 1 /\ buflen l' = 7
    /\ pos l' = len l'
    /\ len l' = Z.min (size (list_ascii_of_string "git log")) (7 - 1)
    /\ line l'
       = Ok (string_of_list_ascii (take (Z.to_nat (len l')) (list_ascii_of_string "git log")))
    /\ terminator l' = Ok NUL
    /\ history_len h' = 3
    /\ history_holds h' (<[Z.to_nat (3 - 1 - 0):="ls"%string]> ["make"; "git log"; "ls"]%string).
Proof.
  apply (linenoiseEditHistoryNext_shows_the_entry (editing "ls" 8 2)
           (history_of 100 ["make"; "git log"; "ls"]%string)
           ["make"; "git log"; "ls"]%string "ls" "git log" LINENOISE_HISTORY_PREV 1).
  - repeat split; try reflexivity. unfold history_of, size. simpl. lia.
  - simpl. lia.
  - unfold history_of, size. simpl. lia.
  - reflexivity.
  - reflexivity.
  - unfold history_of, size. simpl. lia.
  - reflexivity.
  - repeat constructor; discriminate.
  - unfold size. simpl. lia.
  - unfold size. simpl. lia.
Defined.

Lemma linenoiseEditHistoryNext_at_the_ends_witness :
  (3 <= 1 ->
   linenoiseEditHistoryNext (editing "ls" 8 2) (history_of 100 ["make"; "git log"; "ls"]%string)
     LINENOISE_HISTORY_NEXT
   = Ok (editing "ls" 8 2, history_of 100 ["make"; "git log"; "ls"]%string))
  /\ (1 < 3 ->
      (LINENOISE_HISTORY_NEXT = LINENOISE_HISTORY_PREV /\ 0 = 3 - 1)
      \/ (LINENOISE_HISTORY_NEXT <> LINENOISE_HISTORY_PREV /\ 0 = 0) ->
      exists h',
        linenoiseEditHistoryNext (editing "ls" 8 2)
          (history_of 100 ["make"; "git log"; "ls"]%string) LINENOISE_HISTORY_NEXT
        = Ok (editing "ls" 8 2, h')
        /\ history_len h' = 3
        /\ history_holds h'
             (<[Z.to_nat (3 - 1 - 0):="ls"%string]> ["make"; "git log"; "ls"]%string)).
Proof.
  apply (linenoiseEditHistoryNext_at_the_ends (editing "ls" 8 2)
           (history_of 100 ["make"; "git log"; "ls"]%string)
           ["make"; "git log"; "ls"]%string "ls" LINENOISE_HISTORY_NEXT).
  - repeat split; try reflexivity. unfold history_of, size. simpl. lia.
  - simpl. lia.
  - unfold history_of, size. simpl. lia.
  - reflexivity.
Defined.

(** ** Completions from the history *)

Lemma tolower_NUL (c : ascii) : tolower c = NUL -> c = NUL.
Proof.
  unfold tolower. intros H.
  destruct ((65 <=? nat_of_ascii c) && (nat_of_ascii c <=? 90))%nat eqn:E; [|exact H].
  exfalso. apply andb_prop in E as [E1 E2]. apply Nat.leb_le in E1, E2.
  apply (f_equal nat_of_ascii) in H. rewrite nat_ascii_embedding in H by lia.
  change (nat_of_ascii NUL) with 0%nat in H. lia.
Qed.

Lemma nat_of_ascii_eq (c1 c2 : ascii) :
  Z.of_nat (nat_of_ascii c1) - Z.of_nat (nat_of_ascii c2) = 0 <-> c1 = c2.
Proof.
  split; [|intros ->; lia]. intros H.
  rewrite <- (ascii_nat_embedding c1), <- (ascii_nat_embedding c2). f_equal. lia.
Qed.

Lemma strncasecmp_starts_with (b : string) :
  c_string b ->
  forall s, c_string s ->
    strncasecmp s b (String.length b) = 0 <-> starts_with b s = true.
Proof.
  unfold c_string.
  induction b as [|c b IH]; intros Hb s Hs.
  - destruct s; cbn; split; reflexivity.
  - cbn [String.length list_ascii_of_string] in *.
    apply Forall_cons in Hb as [Hc Hb].
    destruct s as [|x s]; cbn [strncasecmp list_ascii_of_string starts_with] in *.
    + split; [|discriminate]. intros H. exfalso. apply Hc, tolower_NUL.
      rewrite <- (ascii_nat_embedding (tolower c)).
      replace (nat_of_ascii (tolower c)) with 0%nat by lia. reflexivity.
    + apply Forall_cons in Hs as [Hx Hs].
      destruct (Z.eqb_spec (Z.of_nat (nat_of_ascii (tolower x))
                            - Z.of_nat (nat_of_ascii (tolower c))) 0) as [E|E].
      * apply nat_of_ascii_eq in E. rewrite E, Ascii.eqb_refl. cbn [andb].
        apply IH; assumption.
      * split; [contradiction|]. intros H. apply andb_prop in H as [H _].
        apply Ascii.eqb_eq in H. exfalso. apply E, nat_of_ascii_eq. exact H.
Qed.

Lemma history_holds_at (h : historyState) (ss : list string) (i : Z) (e : string) :
  history_holds h ss -> 0 <= i -> ss !! Z.to_nat i = Some e -> history_at h i = Ok e.
Proof.
  intros (Hlen & Hmax & Ha) Hi He. unfold history_at.
  pose proof (lookup_lt_Some _ _ _ He) as Hlt.
  destruct (history h) as [a|]; [|subst ss; discriminate].
  destruct Ha as [Hsz Htake].
  assert (a !! Z.to_nat i = Some (Some e)) as Hget.
  { rewrite <- (lookup_take_lt a (length ss)) by lia.
    rewrite Htake, list_lookup_fmap, He. reflexivity. }
  rewrite (load_inside a i (Some e)) by assumption. reflexivity.
Qed.

Lemma linenoiseAddHistoryCompletions_loop_adds (b : string) (h : historyState)
    (ss : list string) (fuel : nat) :
  history_holds h ss -> history_max_len h < 2 ^ 31 -> c_string b ->
  forall todo done lc,
    ss = done ++ todo -> Forall c_string todo -> (length todo < fuel)%nat ->
    lc_len lc = size (cvec lc) -> size (cvec lc) + size todo < 2 ^ 63 ->
    exists lc',
      linenoiseAddHistoryCompletions_loop fuel b (String.length b) h (size done) lc = Ok lc'
      /\ cvec lc' = cvec lc ++ List.filter (starts_with b) todo
      /\ lc_len lc' = size (cvec lc').
Proof.
  intros Hh Hmax Hb. pose proof Hh as (Hlen & Hle & _).
  induction fuel as [|fuel IH]; intros todo done lc Hss Htodo Hfuel Hlc Hroom; [lia|].
  cbn [linenoiseAddHistoryCompletions_loop].
  assert (size ss = size done + size todo) as Hsize
    by (rewrite Hss; unfold size; rewrite length_app; lia).
  pose proof (size_nonneg done). pose proof (size_nonneg todo).
  pose proof (size_nonneg (cvec lc)).
  destruct todo as [|e todo].
  - change (size []) with 0 in *. destruct (Z.ltb_spec (size done) (history_len h)); [lia|].
    exists lc. cbn [List.filter]. rewrite app_nil_r. auto.
  - assert (size (e :: todo) = size todo + 1) as He by (unfold size; cbn [length]; lia).
    pose proof (size_nonneg todo).
    destruct (Z.ltb_spec (size done) (history_len h)); [|lia].
    rewrite (history_holds_at h ss (size done) e Hh) by
      (try lia; rewrite Hss; unfold size; rewrite Nat2Z.id, lookup_app_r, Nat.sub_diag by lia;
       reflexivity).
    cbn [mbind result_bind]. rewrite int_id by lia.
    apply Forall_cons in Htodo as [Hce Htodo].
    replace (size done + 1) with (size (done ++ [e]))
      by (unfold size; rewrite length_app; cbn [length]; lia).
    set (lc1 := if strncasecmp e b (String.length b) =? 0
                then linenoiseAddCompletion lc e else lc).
    assert (cvec lc1 = cvec lc ++ (if starts_with b e then [e] else [])
            /\ lc_len lc1 = size (cvec lc1)) as [Hc1 Hl1].
    { subst lc1. pose proof (strncasecmp_starts_with b Hb e Hce) as Hiff.
      destruct (Z.eqb_spec (strncasecmp e b (String.length b)) 0) as [E|E].
      - rewrite (proj1 Hiff E). unfold linenoiseAddCompletion. cbn [cvec lc_len].
        rewrite Hlc. unfold size. rewrite Nat2Z.id, firstn_all.
        split; [reflexivity|]. rewrite size_t_id by (unfold size in *; lia).
        rewrite length_app. cbn [length]. lia.
      - destruct (starts_with b e); [exfalso; apply E, Hiff; reflexivity|].
        rewrite app_nil_r. auto. }
    destruct (IH todo (done ++ [e]) lc1) as (lc' & Hrun & Hcv & Hl');
      [rewrite <- app_assoc; exact Hss | exact Htodo | cbn [length] in Hfuel; lia | exact Hl1
      | rewrite Hc1; unfold size in *; rewrite length_app;
        destruct (starts_with b e); cbn [length]; lia |].
    exists lc'. split; [exact Hrun|]. split; [|exact Hl'].
    rewrite Hcv, Hc1. cbn [List.filter]. rewrite <- app_assoc.
    destruct (starts_with b e); reflexivity.
Qed.

(** X15.  [linenoiseAddHistoryCompletions] adds to the completions, in
    the order of the history, exactly the entries that start with the
    text of the line, letter case apart, and nothing when there is no
    history yet. *)
Theorem linenoiseAddHistoryCompletions_adds (b : string) (h : historyState)
    (ss : list string) (lc : linenoiseCompletions) :
  history_holds h ss -> history_max_len h < 2 ^ 31 ->
  c_string b -> Forall c_string ss ->
  lc_len lc = size (cvec lc) -> size (cvec lc) + size ss < 2 ^ 63 ->
  (history h = None -> linenoiseAddHistoryCompletions b h lc = Ok lc)
  /\ exists lc',
       linenoiseAddHistoryCompletions b h lc = Ok lc'
       /\ cvec lc' = cvec lc ++ List.filter (starts_with b) ss
       /\ lc_len lc' = size (cvec lc').
Proof.
  intros Hh Hmax Hb Hss Hlc Hroom. pose proof Hh as (Hlen & Hle & Ha).
  unfold linenoiseAddHistoryCompletions. split; [intros ->; reflexivity|].
  destruct (history h) as [a|] eqn:E.
  - change 0 with (size (@nil string)).
    apply (linenoiseAddHistoryCompletions_loop_adds b h ss); try assumption; try reflexivity.
    unfold fuel_of, size in *. lia.
  - subst ss. exists lc. cbn [List.filter]. rewrite app_nil_r. auto.
Qed.

Lemma linenoiseAddHistoryCompletions_adds_witness :
  (history (history_of 100 ["make"; "git log"; "Git push"; "ls"]%string) = None ->
   linenoiseAddHistoryCompletions "gi"
     (history_of 100 ["make"; "git log"; "Git push"; "ls"]%string) (mkCompletions 0 [])
   = Ok (mkCompletions 0 []))
  /\ exists lc',
       linenoiseAddHistoryCompletions "gi"
         (history_of 100 ["make"; "git log"; "Git push"; "ls"]%string) (mkCompletions 0 [])
       = Ok lc'
       /\ cvec lc' = [] ++ List.filter (starts_with "gi")
                             ["make"; "git log"; "Git push"; "ls"]%string
       /\ lc_len lc' = size (cvec lc').
Proof.
  apply (linenoiseAddHistoryCompletions_adds "gi"
           (history_of 100 ["make"; "git log"; "Git push"; "ls"]%string)
           ["make"; "git log"; "Git push"; "ls"]%string (mkCompletions 0 [])).
  - repeat split; try reflexivity. unfold history_of, size. simpl. lia.
  - simpl. lia.
  - repeat constructor; discriminate.
  - repeat constructor; discriminate.
  - reflexivity.
  - unfold size. simpl. lia.
Defined.

(** ** The history file *)

Lemma linenoiseHistorySave_loop_writes (h : historyState) (ss : list string) (fuel : nat) :
  history_holds h ss -> history_max_len h < 2 ^ 31 ->
  forall todo done out,
    ss = done ++ todo -> (length todo < fuel)%nat ->
    linenoiseHistorySave_loop fuel h (size done) out = Ok (out ++ file_of todo).
Proof.
  intros Hh Hmax. pose proof Hh as (Hlen & Hle & _).
  induction fuel as [|fuel IH]; intros todo done out Hss Hfuel; [lia|].
  cbn [linenoiseHistorySave_loop].
  assert (size ss = size done + size todo) as Hsize
    by (rewrite Hss; unfold size; rewrite length_app; lia).
  pose proof (size_nonneg done).
  destruct todo as [|e todo].
  - change (size []) with 0 in *. destruct (Z.ltb_spec (size done) (history_len h)); [lia|].
    cbn. rewrite app_nil_r. reflexivity.
  - assert (size (e :: todo) = size todo + 1) as He by (unfold size; cbn [length]; lia).
    pose proof (size_nonneg todo).
    destruct (Z.ltb_spec (size done) (history_len h)); [|lia].
    rewrite (history_holds_at h ss (size done) e Hh) by
      (try lia; rewrite Hss; unfold size; rewrite Nat2Z.id, lookup_app_r, Nat.sub_diag by lia;
       reflexivity).
    cbn [mbind result_bind]. rewrite int_id by lia.
    replace (size done + 1) with (size (done ++ [e]))
      by (unfold size; rewrite length_app; cbn [length]; lia).
    rewrite (IH todo (done ++ [e])); [|rewrite <- app_assoc; exact Hss|cbn [length] in Hfuel; lia].
    unfold file_of. cbn [fmap list_fmap concat]. rewrite <- !app_assoc. reflexivity.
Qed.

Lemma fgets_read_line (es rest : list ascii) (k : nat) :
  Forall (fun c => c <> NEWLINE) es -> (length es < k)%nat ->
  fgets_read k (es ++ NEWLINE :: rest) = (es ++ [NEWLINE], rest).
Proof.
  intros Hes. revert k. induction Hes as [|c es Hc _ IH]; intros k Hk.
  - destruct k; [cbn in Hk; lia|]. reflexivity.
  - destruct k; [cbn in Hk; lia|]. cbn [app fgets_read].
    destruct (Ascii.eqb_spec c NEWLINE); [contradiction|].
    rewrite IH by (cbn [length] in Hk; lia). reflexivity.
Qed.

Lemma strchr_from_absent (es : list ascii) (c : ascii) (tail : list ascii) :
  Forall (fun x => x <> c /\ x <> NUL) es -> c <> NUL ->
  forall i, strchr_from (es ++ NUL :: tail) c i = Ok None.
Proof.
  intros Hes Hc. induction Hes as [|x es [Hx Hn] _ IH]; intros i.
  - cbn [app strchr_from]. destruct (Ascii.eqb_spec NUL c); [congruence|]. reflexivity.
  - cbn [app strchr_from]. destruct (Ascii.eqb_spec x c); [contradiction|].
    destruct (Ascii.eqb_spec x NUL); [contradiction|]. apply IH.
Qed.

Lemma strchr_from_found (es : list ascii) (c : ascii) (tail : list ascii) :
  Forall (fun x => x <> c /\ x <> NUL) es ->
  forall i, strchr_from (es ++ c :: tail) c i = Ok (Some (i + size es)).
Proof.
  intros Hes. induction Hes as [|x es [Hx Hn] _ IH]; intros i.
  - cbn [app strchr_from]. rewrite Ascii.eqb_refl. change (size []) with 0.
    rewrite Z.add_0_r. reflexivity.
  - cbn [app strchr_from]. destruct (Ascii.eqb_spec x c); [contradiction|].
    destruct (Ascii.eqb_spec x NUL); [contradiction|]. rewrite IH.
    do 2 f_equal. unfold size. cbn [length]. lia.
Qed.

(** One line of the file: it is read with its newline, cut at the
    newline, and added. *)
Lemma linenoiseHistoryLoad_loop_line (fuel : nat) (b : list ascii) (s : string)
    (rest : list ascii) (h : historyState) :
  size b = LINENOISE_MAX_LINE -> file_line s ->
  exists b',
    size b' = LINENOISE_MAX_LINE
    /\ linenoiseHistoryLoad_loop (S fuel) b (list_ascii_of_string s ++ NEWLINE :: rest) h
       = ('(h', _) ← linenoiseHistoryAdd s h; linenoiseHistoryLoad_loop fuel b' rest h').
Proof.
  intros Hb [Hs Hfit]. set (es := list_ascii_of_string s) in *.
  unfold LINENOISE_MAX_LINE in *. pose proof (size_nonneg es) as Hes.
  cbn [linenoiseHistoryLoad_loop]. unfold fgets, LINENOISE_MAX_LINE.
  rewrite fgets_read_line;
    [|eapply Forall_impl; [exact Hs|]; cbn; tauto|unfold size in *; lia].
  destruct (es ++ [NEWLINE]) as [|x r] eqn:Er; [destruct es; discriminate|].
  rewrite <- Er. clear x r Er.
  assert (size (es ++ [NEWLINE]) = size es + 1) as Hr
    by (unfold size; rewrite length_app; cbn [length]; lia).
  rewrite memcpy_inside by (unfold size in *; rewrite ?length_app in *; cbn [length] in *; lia).
  cbn [mbind result_bind]. change (Z.to_nat 0) with 0%nat. rewrite take_0. cbn [app].
  rewrite take_ge by (unfold size in *; rewrite ?length_app in *; cbn [length] in *; lia).
  set (tail := drop (Z.to_nat (0 + (size (es ++ [NEWLINE]) + 1))) b).
  assert (length tail = (4096 - length es - 2)%nat) as Htail
    by (subst tail; unfold size in *; rewrite length_drop; lia).
  unfold strchr.
  replace (((es ++ [NEWLINE]) ++ [NUL]) ++ tail) with ((es ++ [NEWLINE]) ++ NUL :: tail)
    by (rewrite <- !app_assoc; reflexivity).
  rewrite (strchr_from_absent (es ++ [NEWLINE]) CARRIAGE_RETURN tail); [| |discriminate].
  2:{ apply Forall_app. split; [eapply Forall_impl; [exact Hs|]; cbn; tauto|].
      repeat constructor; discriminate. }
  cbn [mbind result_bind]. rewrite <- app_assoc. cbn [app].
  rewrite strchr_from_found by (eapply Forall_impl; [exact Hs|]; cbn; tauto).
  cbn [mbind result_bind]. rewrite Z.add_0_l.
  rewrite store_inside by (unfold size in *; rewrite length_app; cbn [length]; lia).
  cbn [mbind result_bind].
  assert (<[Z.to_nat (size es):=NUL]> (es ++ NEWLINE :: NUL :: tail) = es ++ NUL :: NUL :: tail)
    as ->.
  { unfold size. rewrite Nat2Z.id. rewrite insert_app_r_alt by lia.
    rewrite Nat.sub_diag. reflexivity. }
  rewrite (strdup_line (es ++ NUL :: NUL :: tail) es);
    [|rewrite take_app_length; reflexivity
     |apply load_inside; [lia|]; unfold size; rewrite Nat2Z.id;
      rewrite lookup_app_r, Nat.sub_diag by lia; reflexivity
     |eapply Forall_impl; [exact Hs|]; cbn; tauto].
  cbn [mbind result_bind]. subst es. rewrite string_of_list_ascii_of_string.
  eexists. split; [|reflexivity].
  unfold size in *. rewrite length_app. cbn [length]. lia.
Qed.

Lemma file_of_cons (s : string) (ss : list string) :
  file_of (s :: ss) = list_ascii_of_string s ++ NEWLINE :: file_of ss.
Proof. unfold file_of. cbn [fmap list_fmap concat]. rewrite <- app_assoc. reflexivity. Qed.

(** Loading a file of lines adds them in turn. *)
Lemma linenoiseHistoryLoad_loop_adds (ss : list string) :
  Forall file_line ss ->
  forall fuel b h ss0,
    (length ss < fuel)%nat -> size b = LINENOISE_MAX_LINE -> history_holds h ss0 ->
    exists h',
      linenoiseHistoryLoad_loop fuel b (file_of ss) h = Ok h'
      /\ history_max_len h' = history_max_len h
      /\ history_holds h'
           (fold_left (fun acc s => Add_spec (history_max_len h) s acc) ss ss0).
Proof.
  induction 1 as [|s ss Hs _ IH]; intros fuel b h ss0 Hfuel Hb Hh.
  - destruct fuel as [|fuel]; [cbn in Hfuel; lia|]. exists h.
    split; [reflexivity|]. split; [reflexivity|exact Hh].
  - destruct fuel as [|fuel]; [cbn in Hfuel; lia|].
    rewrite file_of_cons.
    destruct (linenoiseHistoryLoad_loop_line fuel b s (file_of ss) h Hb Hs) as (b' & Hb' & ->).
    destruct (linenoiseHistoryAdd_holds s h ss0 Hh) as (h1 & r & -> & Hmax1 & Hh1 & _).
    cbn [mbind result_bind].
    destruct (IH fuel b' h1 _ ltac:(cbn [length] in Hfuel; lia) Hb' Hh1)
      as (h' & Hrun & Hmax' & Hh').
    exists h'. split; [exact Hrun|]. split; [congruence|].
    cbn [fold_left]. rewrite Hmax1 in Hh'. exact Hh'.
Qed.

Lemma no_repeat_app (done : list string) (e : string) (todo : list string) :
  no_repeat (done ++ e :: todo) = true ->
  is_newest e done = false /\ no_repeat ((done ++ [e]) ++ todo) = true.
Proof.
  intros H. split; [|rewrite <- app_assoc; exact H].
  induction done as [|a done IH]; [reflexivity|].
  destruct done as [|a' done].
  - cbn in H. apply andb_prop in H as [H _]. cbn. apply negb_true_iff in H. exact H.
  - cbn [app no_repeat] in H. apply andb_prop in H as [_ H].
    specialize (IH H). exact IH.
Qed.

(** Lines that do not repeat are added one after the other, as long as
    there is room. *)
Lemma fold_Add_spec (m : Z) (todo : list string) :
  forall done,
    m <> 0 -> size done + size todo <= m -> no_repeat (done ++ todo) = true ->
    fold_left (fun acc s => Add_spec m s acc) todo done = done ++ todo.
Proof.
  induction todo as [|e todo IH]; intros done Hm Hroom Hnr.
  - rewrite app_nil_r. reflexivity.
  - cbn [fold_left]. apply no_repeat_app in Hnr as [Hnew Hnr].
    assert (size (e :: todo) = size todo + 1) as He by (unfold size; cbn [length]; lia).
    pose proof (size_nonneg todo).
    assert (Add_spec m e done = done ++ [e]) as ->.
    { unfold Add_spec. destruct (Z.eqb_spec m 0); [contradiction|]. rewrite Hnew.
      destruct (Z.eqb_spec (size done) m); [lia|reflexivity]. }
    rewrite IH; [rewrite <- app_assoc; reflexivity|exact Hm| |exact Hnr].
    unfold size in *. rewrite length_app. cbn [length]. lia.
Qed.

(** X16.  What [linenoiseHistorySave] writes, [linenoiseHistoryLoad]
    reads back: the entries of a history, saved and loaded into an empty
    history with room for them, are the same entries in the same order,
    when each is a line with no newline or carriage return that fits in
    the buffer and none repeats the one before it.  A file that cannot be
    opened gives -1 either way, and changes nothing. *)
Theorem linenoiseHistoryLoad_reads_what_Save_wrote (h h0 : historyState)
    (ss : list string) (junk : ascii) :
  history_holds h ss -> history_max_len h < 2 ^ 31 ->
  Forall file_line ss -> no_repeat ss = true ->
  history_holds h0 [] -> size ss <= history_max_len h0 ->
  (exists file h',
      linenoiseHistorySave true h = Ok (0, Some file)
      /\ file = file_of ss
      /\ linenoiseHistoryLoad (Some file) junk h0 = Ok (0, h')
      /\ history_max_len h' = history_max_len h0
      /\ history_holds h' ss)
  /\ linenoiseHistorySave false h = Ok (-1, None)
  /\ linenoiseHistoryLoad None junk h0 = Ok (-1, h0).
Proof.
  intros Hh Hmax Hss Hnr Hh0 Hroom. split; [|split; reflexivity].
  pose proof Hh as (Hlen & _).
  exists (file_of ss).
  destruct (linenoiseHistoryLoad_loop_adds ss Hss (S (length (file_of ss)))
              (replicate (Z.to_nat LINENOISE_MAX_LINE) junk) h0 [])
    as (h' & Hrun & Hmax' & Hh'); [| |exact Hh0|].
  { assert (length ss <= length (file_of ss))%nat; [|lia].
    clear. induction ss as [|s ss IH]; [cbn; lia|].
    rewrite file_of_cons, length_app. cbn [length]. lia. }
  { unfold size. rewrite length_replicate. rewrite Z2Nat.id; [reflexivity|].
    unfold LINENOISE_MAX_LINE. lia. }
  exists h'. split.
  { unfold linenoiseHistorySave.
    change 0 with (size (@nil string)) at 1.
    rewrite (linenoiseHistorySave_loop_writes h ss _ Hh Hmax ss []);
      [reflexivity | reflexivity | unfold fuel_of, size in *; lia]. }
  split; [reflexivity|]. split.
  { unfold linenoiseHistoryLoad. rewrite Hrun. reflexivity. }
  split; [exact Hmax'|].
  destruct ss as [|s ss]; [exact Hh'|].
  rewrite fold_Add_spec in Hh'; [exact Hh'| |exact Hroom|exact Hnr].
  assert (0 < size (s :: ss)) by (unfold size; cbn [length]; lia).
  change (size []) with 0 in Hroom. lia.
Qed.

Lemma linenoiseHistoryLoad_reads_what_Save_wrote_witness :
  (exists file h',
      linenoiseHistorySave true (history_of 100 ["make"; "git log"; "ls"]%string)
      = Ok (0, Some file)
      /\ file = file_of ["make"; "git log"; "ls"]%string
      /\ linenoiseHistoryLoad (Some file) NUL history_init = Ok (0, h')
      /\ history_max_len h' = history_max_len history_init
      /\ history_holds h' ["make"; "git log"; "ls"]%string)
  /\ linenoiseHistorySave false (history_of 100 ["make"; "git log"; "ls"]%string)
     = Ok (-1, None)
  /\ linenoiseHistoryLoad None NUL history_init = Ok (-1, history_init).
Proof.
  apply (linenoiseHistoryLoad_reads_what_Save_wrote
           (history_of 100 ["make"; "git log"; "ls"]%string) history_init
           ["make"; "git log"; "ls"]%string NUL).
  - repeat split; try reflexivity. unfold history_of, size. simpl. lia.
  - simpl. lia.
  - repeat constructor; try discriminate; unfold size, LINENOISE_MAX_LINE; simpl; lia.
  - reflexivity.
  - repeat split; try reflexivity. vm_compute. discriminate.
  - vm_compute. discriminate.
Defined.

(** ** What the refresh functions write *)

Lemma abAppend_all (ab s : list ascii) : abAppend ab s (size s) = Ok (ab ++ s).
Proof.
  unfold abAppend. pose proof (size_nonneg s).
  destruct (Z.leb_spec 0 (size s)); [|lia]. rewrite Z.leb_refl. cbn [andb].
  unfold size. rewrite Nat2Z.id, firstn_all. reflexivity.
Qed.

(** X17.  A hint is shown only in what is left of the row: with no hints
    callback, or with the prompt and the line reaching the right edge,
    [refreshShowHints] appends nothing; otherwise it appends the hint cut
    to the columns that are left, between the sequence that sets its
    colour and the one that resets it when it has a colour or is bold. *)
Theorem refreshShowHints_fits (enc : encoding) (callback : option hints_callback)
    (ab : list ascii) (l : linenoiseState) (cols P C : Z) :
  columnPos enc (buf l) (len l) (len l) = Ok C ->
  0 <= P < 2 ^ 31 -> 0 <= C < 2 ^ 31 -> cols < 2 ^ 31 ->
  (callback = None \/ cols <= P + C -> refreshShowHints enc callback ab l cols P = Ok ab)
  /\ (forall f line hint color bold,
        callback = Some f -> P + C < cols -> strdup (buf l) = Ok line ->
        f line = Some (hint, color, bold) -> size hint < 2 ^ 31 ->
        exists seq reset,
          refreshShowHints enc callback ab l cols P
          = Ok (ab ++ seq ++ take (Z.to_nat (Z.min (size hint) (cols - (P + C)))) hint ++ reset)
          /\ (color = -1 /\ bold = 0 -> seq = [] /\ reset = [])
          /\ (~ (color = -1 /\ bold = 0) ->
              seq = ESC_byte :: "["%char :: decimal bold ++ ";"%char
                    :: decimal (if (bold =? 1) && (color =? -1) then 37 else color)
                    ++ list_ascii_of_string ";49m"
              /\ reset = ESC_byte :: list_ascii_of_string "[0m")).
Proof.
  intros HC HP HCb Hcols. unfold refreshShowHints. rewrite HC. cbn [mbind result_bind].
  rewrite (int_id P) by lia. rewrite (size_t_id (P + C)) by lia. split.
  - intros [-> | Hfull]; [reflexivity|].
    destruct callback; [|reflexivity].
    destruct (Z.ltb_spec (P + C) cols); [lia|reflexivity].
  - intros f line hint color bold -> Hroom Hline Hf Hhint.
    pose proof (size_nonneg hint) as Hh.
    destruct (Z.ltb_spec (P + C) cols); [|lia].
    rewrite Hline. cbn [mbind result_bind]. rewrite Hf.
    rewrite (int_id (size hint)), (size_t_id (cols - (P + C))), (int_id (cols - (P + C)))
      by lia.
    set (k := if cols - (P + C) <? size hint then cols - (P + C) else size hint).
    assert (k = Z.min (size hint) (cols - (P + C))) as Hk
      by (subst k; destruct (Z.ltb_spec (cols - (P + C)) (size hint)); lia).
    set (color' := if (bold =? 1) && (color =? -1) then 37 else color).
    set (styled := negb (color' =? -1) || negb (bold =? 0)).
    assert (styled = false <-> color = -1 /\ bold = 0) as Hstyled.
    { subst styled. rewrite orb_false_iff, !negb_false_iff, !Z.eqb_eq. subst color'.
      destruct (Z.eqb_spec bold 1), (Z.eqb_spec color (-1)); cbn [andb]; lia. }
    rewrite abAppend_all. cbn [mbind result_bind].
    assert (abAppend (ab ++ (if styled
                             then ESC_byte :: "["%char :: decimal bold ++ ";"%char
                                  :: decimal color' ++ list_ascii_of_string ";49m"
                             else [])) hint k
            = Ok ((ab ++ (if styled
                          then ESC_byte :: "["%char :: decimal bold ++ ";"%char
                               :: decimal color' ++ list_ascii_of_string ";49m"
                          else [])) ++ take (Z.to_nat k) hint)) as ->.
    { unfold abAppend. destruct (Z.leb_spec 0 k); [|lia].
      destruct (Z.leb_spec k (size hint)); [|lia]. reflexivity. }
    cbn [mbind result_bind]. rewrite Hk.
    destruct styled eqn:Es.
    + exists (ESC_byte :: "["%char :: decimal bold ++ ";"%char
              :: decimal color' ++ list_ascii_of_string ";49m"),
             (ESC_byte :: list_ascii_of_string "[0m").
      split.
      { rewrite (abAppend_all _ (ESC_byte :: list_ascii_of_string "[0m")).
        f_equal. rewrite <- !app_assoc. reflexivity. }
      split; [intros Hplain; apply Hstyled in Hplain; discriminate|].
      intros _. split; reflexivity.
    + exists [], []. split; [f_equal; rewrite !app_nil_r; reflexivity|].
      split; [intros _; split; reflexivity|].
      intros Hne. exfalso. apply Hne, Hstyled. reflexivity.
Qed.

Lemma refreshShowHints_fits_witness :
  (Some hint_world = None \/ 10 <= 2 + 5 ->
   refreshShowHints defaultEncoding (Some hint_world) [] (editing "hello" 16 5) 10 2 = Ok [])
  /\ (forall f line hint color bold,
        Some hint_world = Some f -> 2 + 5 < 10 ->
        strdup (buf (editing "hello" 16 5)) = Ok line ->
        f line = Some (hint, color, bold) -> size hint < 2 ^ 31 ->
        exists seq reset,
          refreshShowHints defaultEncoding (Some hint_world) [] (editing "hello" 16 5) 10 2
          = Ok ([] ++ seq ++ take (Z.to_nat (Z.min (size hint) (10 - (2 + 5)))) hint ++ reset)
          /\ (color = -1 /\ bold = 0 -> seq = [] /\ reset = [])
          /\ (~ (color = -1 /\ bold = 0) ->
              seq = ESC_byte :: "["%char :: decimal bold ++ ";"%char
                    :: decimal (if (bold =? 1) && (color =? -1) then 37 else color)
                    ++ list_ascii_of_string ";49m"
              /\ reset = ESC_byte :: list_ascii_of_string "[0m")).
Proof.
  apply (refreshShowHints_fits defaultEncoding (Some hint_world) []
           (editing "hello" 16 5) 10 2 5).
  - reflexivity.
  - lia.
  - lia.
  - lia.
Defined.

(** The window of [refreshSingleLine], in characters. *)
Lemma refreshSingleLine_window_parts (enc : encoding) (l : linenoiseState)
    (before after : list (Z * Z)) (P W : Z) :
  reads_as enc (buf l) (before ++ after) ->
  pos l = bytes_of before -> len l = bytes_of (before ++ after) ->
  len l < 2 ^ 63 -> columns_of (before ++ after) < 2 ^ 63 ->
  0 <= P < W -> W < 2 ^ 63 ->
  exists pre w1 w2 post,
    before = pre ++ w1 /\ after = w2 ++ post
    /\ refreshSingleLine_window enc l P W
       = Ok (bytes_of pre, bytes_of (w1 ++ w2), bytes_of w1)
    /\ P + columns_of w1 < W /\ P + columns_of (w1 ++ w2) <= W.
Proof.
  intros Hreads Hpos Hlen Hb Hc HP HW. rewrite Hlen in Hb.
  pose proof Hreads as [Hok _].
  unfold refreshSingleLine_window, fuel_of.
  assert (Z.of_nat (length before) <= bytes_of before) as Hlb.
  { apply bytes_of_length. apply Forall_app in Hok. tauto. }
  destruct (clip_left_reads enc (buf l) _ Hreads Hb Hc P W HP HW after
              (S (Z.to_nat (pos l))) [] before 0 (len l) (pos l))
    as (pre' & w1' & Heq & Hleft & Hlt); try assumption; try reflexivity; try lia.
  rewrite Hleft. cbn [mbind result_bind].
  cbn [app] in Heq.
  assert (Forall char_ok pre' /\ Forall char_ok w1' /\ Forall char_ok after)
    as (Hpre' & Hw1' & Hafter).
  { rewrite Heq in Hok. rewrite !Forall_app in Hok. tauto. }
  pose proof (bytes_of_length _ Hpre'). pose proof (bytes_of_length _ Hw1').
  pose proof (bytes_of_length _ Hafter).
  destruct (clip_right_reads enc (buf l) _ Hreads Hb Hc P W HP HW pre' w1'
              (S (Z.to_nat (bytes_of (w1' ++ after)))) Hlt after [] (bytes_of (w1' ++ after)))
    as (w2' & w2'' & Heq2 & Hright & Hle); try reflexivity.
  { rewrite app_nil_r, Heq, <- app_assoc. reflexivity. }
  { rewrite bytes_of_app. lia. }
  rewrite Hright. cbn [mbind result_bind].
  exists pre', w1', w2', w2''. auto.
Qed.

(** X18.  What the single-line refresh writes: a carriage return, the
    prompt, a window of the line that holds the cursor, the sequence
    that erases to the right, and the sequence that puts the cursor at
    its column, which is the width of the prompt plus that of the
    window up to the cursor and lies inside the terminal. *)
Theorem refreshSingleLine_writes (enc : encoding) (junk : ascii) (l : linenoiseState)
    (before after : list (Z * Z)) (prompt : list ascii) (P W : Z) :
  reads_as enc (buf l) (before ++ after) ->
  pos l = bytes_of before -> len l = bytes_of (before ++ after) ->
  len l <= size (buf l) -> size (buf l) < 2 ^ 63 ->
  columns_of (before ++ after) < 2 ^ 63 ->
  promptTextColumnLen enc junk prompt (size prompt) = Ok P ->
  0 <= P < W -> W < 2 ^ 31 ->
  exists off n p c,
    refreshSingleLine enc junk None l prompt W
    = Ok ("013"%char :: prompt ++ take (Z.to_nat n) (drop (Z.to_nat off) (buf l))
          ++ ESC_byte :: list_ascii_of_string "[0K"
          ++ "013"%char :: ESC_byte :: "["%char :: decimal c ++ ["C"%char])
    /\ 0 <= off /\ off + p = pos l /\ 0 <= p <= n /\ off + n <= len l
    /\ columnPos enc (drop (Z.to_nat off) (buf l)) n p = Ok (c - P)
    /\ P <= c < W.
Proof.
  intros Hreads Hpos Hlen Hfit Hsz Hc Hprompt HP HW.
  destruct (refreshSingleLine_window_parts enc l before after P W)
    as (pre & w1 & w2 & post & Hbefore & Hafter & Hwin & Hlt & Hle);
    try assumption; try lia.
  pose proof Hreads as [Hok _].
  assert (before ++ after = pre ++ w1 ++ w2 ++ post) as Hcs
    by (rewrite Hbefore, Hafter, <- !app_assoc; reflexivity).
  assert (Forall char_ok pre /\ Forall char_ok w1 /\ Forall char_ok w2 /\ Forall char_ok post)
    as (Hpre & Hw1 & Hw2 & Hpost).
  { rewrite Hcs in Hok. rewrite !Forall_app in Hok. tauto. }
  pose proof (bytes_of_length _ Hpre). pose proof (bytes_of_length _ Hw1).
  pose proof (bytes_of_length _ Hw2). pose proof (bytes_of_length _ Hpost).
  pose proof (columns_of_nonneg _ Hw1).
  assert (len l = bytes_of pre + bytes_of w1 + bytes_of w2 + bytes_of post) as Hlen'
    by (rewrite Hlen, Hcs, !bytes_of_app; lia).
  assert (pos l = bytes_of pre + bytes_of w1) as Hpos'
    by (rewrite Hpos, Hbefore, bytes_of_app; lia).
  assert (bytes_of (before ++ after) < 2 ^ 63) as Hb by lia.
  unfold refreshSingleLine. rewrite Hprompt. cbn [mbind result_bind].
  rewrite Hwin. cbn [mbind result_bind].
  unfold abAppend_string. rewrite abAppend_all. cbn [mbind result_bind].
  rewrite abAppend_all. cbn [mbind result_bind].
  assert (abAppend (([] ++ list_ascii_of_string (String "013" EmptyString)) ++ prompt)
            (drop (Z.to_nat (bytes_of pre)) (buf l)) (bytes_of (w1 ++ w2))
          = Ok (("013"%char :: prompt)
                ++ take (Z.to_nat (bytes_of (w1 ++ w2)))
                     (drop (Z.to_nat (bytes_of pre)) (buf l)))) as Hwindow.
  { unfold abAppend. rewrite bytes_of_app.
    destruct (Z.leb_spec 0 (bytes_of w1 + bytes_of w2)); [|lia].
    destruct (Z.leb_spec (bytes_of w1 + bytes_of w2)
                (size (drop (Z.to_nat (bytes_of pre)) (buf l)))) as [_|Hno];
      [reflexivity|]. unfold size in *. rewrite length_drop in Hno. lia. }
  cbn [app list_ascii_of_string] in *. rewrite Hwindow. cbn [mbind result_bind].
  unfold refreshShowHints.
  assert (columnPos enc (buf l) (len l) (len l) = Ok (columns_of (before ++ after))) as ->.
  { pose proof (columnPos_reads enc (buf l) _ Hreads Hb Hc [] (before ++ after) [] []) as Hcp.
    rewrite !app_nil_r in Hcp. rewrite Hlen. apply Hcp. reflexivity. }
  cbn [mbind result_bind].
  rewrite (abAppend_all _ (ESC_byte :: "["%char :: "0"%char :: "K"%char :: [])).
  cbn [mbind result_bind].
  rewrite (columnPos_reads enc (buf l) _ Hreads Hb Hc pre w1 w2 post Hcs).
  cbn [mbind result_bind]. rewrite abAppend_all.
  rewrite size_t_id, int_id by lia.
  exists (bytes_of pre), (bytes_of (w1 ++ w2)), (bytes_of w1), (columns_of w1 + P).
  split; [f_equal; cbn [app list_ascii_of_string]; rewrite <- ?app_assoc; reflexivity|].
  rewrite (columnPos_reads enc (buf l) _ Hreads Hb Hc pre w1 w2 post Hcs).
  rewrite bytes_of_app. repeat split; try lia. f_equal. lia.
Qed.

Lemma refreshSingleLine_writes_witness :
  exists off n p c,
    refreshSingleLine wideEncoding NUL None (editing wide_line 16 6)
      (list_ascii_of_string ">") 4
    = Ok ("013"%char :: list_ascii_of_string ">"
          ++ take (Z.to_nat n) (drop (Z.to_nat off) (buf (editing wide_line 16 6)))
          ++ ESC_byte :: list_ascii_of_string "[0K"
          ++ "013"%char :: ESC_byte :: "["%char :: decimal c ++ ["C"%char])
    /\ 0 <= off /\ off + p = pos (editing wide_line 16 6) /\ 0 <= p <= n
    /\ off + n <= len (editing wide_line 16 6)
    /\ columnPos wideEncoding (drop (Z.to_nat off) (buf (editing wide_line 16 6))) n p
       = Ok (c - 1)
    /\ 1 <= c < 4.
Proof.
  apply (refreshSingleLine_writes wideEncoding NUL (editing wide_line 16 6)
           [(3, 2); (3, 2)] [(3, 2)] (list_ascii_of_string ">") 1 4).
  - exact wideEncoding_reads_wide_line.
  - reflexivity.
  - reflexivity.
  - unfold size. simpl. lia.
  - unfold size. simpl. lia.
  - simpl. lia.
  - vm_compute. reflexivity.
  - lia.
  - lia.
Defined.

(** With one byte per column and the line starting inside the row,
    [columnPosForMultiLine] never wraps by force: it gives the bytes
    before the cursor. *)
Lemma columnPosForMultiLine_loop_default (b : list ascii) (n p W : Z) (fuel : nat) :
  0 < W -> n + W < 2 ^ 31 -> p <= n ->
  forall off colwid ret,
    0 <= off <= p -> (Z.to_nat (n - off) < fuel)%nat ->
    0 <= colwid < W -> 0 <= ret -> ret + (p - off) < 2 ^ 31 ->
    columnPosForMultiLine_loop defaultEncoding fuel b n p W off colwid ret
    = Ok (ret + (p - off)).
Proof.
  intros HW Hn Hp. induction fuel as [|fuel IH]; intros off colwid ret Hoff Hfuel Hcw Hr Hb; [lia|].
  cbn [columnPosForMultiLine_loop].
  destruct (Z.ltb_spec off n) as [Hlt|Hge]; [|f_equal; lia].
  cbn [defaultEncoding nextCharLen defaultNextCharLen].
  rewrite (int_id (colwid + 1)), (int_id W), (int_id (colwid + 1 - W)) by lia.
  destruct (Z.ltb_spec 0 (colwid + 1 - W)); [lia|].
  destruct (Z.eqb_spec (colwid + 1 - W) 0);
    (destruct (Z.leb_spec p off); [f_equal; lia|]);
    rewrite (size_t_id (off + 1)), (size_t_id (ret + 1)) by lia.
  - rewrite IH by lia. f_equal. lia.
  - rewrite (size_t_id (colwid + 1)) by lia. rewrite IH by lia. f_equal. lia.
Qed.

Lemma columnPosForMultiLine_default (b : list ascii) (n p W P : Z) :
  0 <= P < W -> 0 <= p <= n -> n + W < 2 ^ 31 ->
  columnPosForMultiLine defaultEncoding b n p W P = Ok p.
Proof.
  intros HP Hp Hn. unfold columnPosForMultiLine, fuel_of.
  rewrite columnPosForMultiLine_loop_default by lia. f_equal. lia.
Qed.

(** X19.  What the multi-line refresh writes, with one byte per column
    and a prompt narrower than the terminal: it goes down to the last
    row used so far, clears every row going up, writes the prompt and
    the line, adds a new line when the cursor is at the end of a line
    that fills its last row, and goes up and right to the place of the
    cursor, which is [(P + pos) / W] rows below the first one, in the
    column [(P + pos) mod W].  It records the position of the cursor and
    the largest number of rows used.  Unless the prompt and the line are
    both empty, the cursor is never below the rows that are used. *)
Theorem refreshMultiLine_writes (junk : ascii) (l : linenoiseState)
    (prompt : list ascii) (P W : Z) (rs : renderState) :
  promptTextColumnLen defaultEncoding junk prompt (size prompt) = Ok P ->
  0 <= P < W -> 0 <= pos l <= len l -> len l <= size (buf l) ->
  P + len l + W < 2 ^ 31 ->
  0 <= oldcolpos rs -> P + oldcolpos rs + W < 2 ^ 31 -> 0 <= maxrows rs < 2 ^ 31 ->
  let rows := (P + len l + W - 1) / W in
  let edge := (0 <? pos l) && (pos l =? len l) && ((P + pos l) mod W =? 0) in
  let rows' := if edge then rows + 1 else rows in
  let down := maxrows rs - (P + oldcolpos rs) / W - 1 in
  let up := rows' - (P + pos l) / W - 1 in
  let col := (P + pos l) mod W in
  refreshMultiLine defaultEncoding junk None l prompt W rs
  = Ok (mkRender (pos l) (Z.max (maxrows rs) rows'),
        (if 0 <? down then ESC_byte :: "["%char :: decimal down ++ ["B"%char] else [])
        ++ concat (replicate (Z.to_nat (maxrows rs - 1))
                     ("013"%char :: ESC_byte :: list_ascii_of_string "[0K"
                      ++ ESC_byte :: list_ascii_of_string "[1A"))
        ++ "013"%char :: ESC_byte :: list_ascii_of_string "[0K"
        ++ prompt ++ take (Z.to_nat (len l)) (buf l)
        ++ (if edge then ["010"%char; "013"%char] else [])
        ++ (if 0 <? up then ESC_byte :: "["%char :: decimal up ++ ["A"%char] else [])
        ++ (if col =? 0 then ["013"%char]
            else "013"%char :: ESC_byte :: "["%char :: decimal col ++ ["C"%char]))
  /\ (0 < P + len l -> 0 <= up).
Proof.
  intros Hprompt HP Hpos Hfit Hb Hold Hob Hmax rows edge rows' down up col.
  assert (0 < W) as HW by lia.
  assert (0 <= (P + len l + W - 1) / W <= P + len l + W - 1) as Hrows.
  { split; [apply Z.div_pos; lia|]. apply Z.div_le_upper_bound; nia. }
  assert ((P + oldcolpos rs + W) / W = (P + oldcolpos rs) / W + 1) as Hrpos.
  { replace (P + oldcolpos rs + W) with (P + oldcolpos rs + 1 * W) by lia.
    apply Z.div_add. lia. }
  assert ((P + pos l + W) / W = (P + pos l) / W + 1) as Hrpos2.
  { replace (P + pos l + W) with (P + pos l + 1 * W) by lia.
    apply Z.div_add. lia. }
  assert (0 <= (P + oldcolpos rs) / W <= P + oldcolpos rs) as Hro.
  { split; [apply Z.div_pos; lia|]. apply Z.div_le_upper_bound; nia. }
  assert (0 <= (P + pos l) / W <= P + pos l) as Hrp.
  { split; [apply Z.div_pos; lia|]. apply Z.div_le_upper_bound; nia. }
  pose proof (Z.mod_pos_bound (P + pos l) W HW) as Hcol.
  pose proof (Z.div_mod (P + pos l) W ltac:(lia)) as Hdm.
  pose proof (Z.div_mod (P + len l + W - 1) W ltac:(lia)) as Hdm'.
  pose proof (Z.mod_pos_bound (P + len l + W - 1) W HW) as Hmod'.
  assert (0 < P + len l -> 0 <= up) as Hup.
  { intros Hne. subst up rows' rows edge col.
    assert ((P + pos l) / W <= (P + len l + W - 1) / W) as Hge.
    { destruct (Z_le_gt_dec ((P + pos l) / W) ((P + len l + W - 1) / W)) as [|Hgt];
        [assumption|].
      assert (W * ((P + len l + W - 1) / W + 1) <= W * ((P + pos l) / W))
        by (apply Z.mul_le_mono_nonneg_l; lia). lia. }
    assert ((P + pos l) / W < (P + len l + W - 1) / W
            \/ (pos l = len l /\ (P + pos l) mod W = 0)) as [Hlt|[Heq Hz]].
    { destruct (Z_lt_le_dec ((P + pos l) / W) ((P + len l + W - 1) / W)) as [|Hle];
        [left; assumption|right].
      assert (W * ((P + len l + W - 1) / W) <= W * ((P + pos l) / W))
        by (apply Z.mul_le_mono_nonneg_l; lia). lia. }
    - destruct ((0 <? pos l) && (pos l =? len l) && ((P + pos l) mod W =? 0)); lia.
    - destruct (Z.ltb_spec 0 (pos l)) as [|Hzero].
      + rewrite (proj2 (Z.eqb_eq _ _) Heq), (proj2 (Z.eqb_eq _ _) Hz). cbn [andb]. lia.
      + replace (P + pos l) with P in Hz by lia.
        rewrite Z.mod_small in Hz by lia. lia. }
  split; [|exact Hup].
  unfold refreshMultiLine. rewrite Hprompt. cbn [mbind result_bind].
  rewrite !columnPosForMultiLine_default by lia. cbn [mbind result_bind].
  rewrite !(int_id (len l)), !(int_id (pos l)), !(int_id (maxrows rs)) by lia.
  rewrite !(size_t_id (P + len l + W - 1)), !(size_t_id (P + oldcolpos rs + W)),
    !(size_t_id (P + pos l + W)), !(size_t_id (pos l)) by lia.
  replace (pos l + P) with (P + pos l) by lia.
  rewrite !(size_t_id (P + pos l)) by lia.
  rewrite Hrpos, Hrpos2.
  rewrite !(int_id ((P + len l + W - 1) / W)),
    !(int_id ((P + oldcolpos rs) / W + 1)), !(int_id ((P + pos l) / W + 1)),
    !(int_id ((P + pos l) mod W)) by lia.
  fold rows in Hrows |- *.
  rewrite !(int_id (rows + 1)), !(int_id (maxrows rs - 1)) by lia.
  replace (negb (pos l =? 0)) with (0 <? pos l)
    by (destruct (Z.ltb_spec 0 (pos l)), (Z.eqb_spec (pos l) 0); cbn [negb]; lia).
  fold edge. fold rows'. fold col in Hcol |- *.
  assert (rows <= rows' <= rows + 1) as Hrows' by (unfold rows'; destruct edge; lia).
  replace (maxrows rs - ((P + oldcolpos rs) / W + 1)) with down by (unfold down; lia).
  replace (rows' - ((P + pos l) / W + 1)) with up by (unfold up; lia).
  rewrite !(int_id down), !(int_id up) by (unfold down, up; lia).
  assert (forall ab, abAppend ab (buf l) (len l)
                     = Ok (ab ++ take (Z.to_nat (len l)) (buf l))) as Hline.
  { intros ab. unfold abAppend.
    destruct (Z.leb_spec 0 (len l)); [|lia].
    destruct (Z.leb_spec (len l) (size (buf l))); [reflexivity|lia]. }
  destruct (0 <? down); [rewrite abAppend_all|]; cbn [mbind result_bind];
    rewrite (abAppend_all _ ("013"%char :: ESC_byte :: list_ascii_of_string "[0K"));
    cbn [mbind result_bind]; rewrite abAppend_all; cbn [mbind result_bind];
    rewrite Hline; cbn [mbind result_bind];
    unfold refreshShowHints; rewrite columnPos_default by lia; cbn [mbind result_bind];
    (destruct (0 <? up); [rewrite abAppend_all|]); cbn [mbind result_bind];
    rewrite abAppend_all; cbn [mbind result_bind].
  all: clear Hup; clearbody down up col; subst rows'; clearbody edge.
  all: f_equal; f_equal;
    [ f_equal; destruct edge, (Z.ltb_spec (maxrows rs) rows);
      cbn [andb maxrows oldcolpos];
      rewrite ?(size_t_id rows), ?(size_t_id (rows + 1)) by lia;
      rewrite ?(int_id rows), ?(int_id (maxrows rs)) by lia;
      try (destruct (Z.ltb_spec rows (rows + 1)); [|lia]);
      try (destruct (Z.ltb_spec (maxrows rs) (rows + 1)));
      cbn [maxrows]; lia
    | destruct edge, (col =? 0); cbn [negb app list_ascii_of_string];
      repeat (progress (rewrite <- ?app_assoc; cbn [app])); reflexivity ].
Qed.

(** A line that ends at the right edge of its row: the refresh adds a
    new line, and the cursor is on the second row. *)
Lemma refreshMultiLine_writes_witness :
  refreshMultiLine defaultEncoding NUL None (editing "hello world" 32 11)
    (list_ascii_of_string "> ") 13 (mkRender 0 1)
  = Ok (mkRender 11 2,
        "013"%char :: ESC_byte :: list_ascii_of_string "[0K> hello world"
        ++ ["010"%char; "013"%char; "013"%char])
  /\ (0 < 2 + 11 -> 0 <= 0).
Proof.
  apply (refreshMultiLine_writes NUL (editing "hello world" 32 11)
           (list_ascii_of_string "> ") 2 13 (mkRender 0 1)).
  - vm_compute. reflexivity.
  - lia.
  - simpl. lia.
  - unfold size. simpl. lia.
  - simpl. lia.
  - simpl. lia.
  - simpl. lia.
  - simpl. lia.
Defined.

(** ** Lines read without editing *)

Lemma realloc_size (junk : ascii) (line : option (list ascii)) (n : Z) :
  0 <= n -> size (realloc junk line n) = n.
Proof. intros Hn. unfold realloc, size. rewrite length_take, length_app, length_replicate. lia. Qed.

Lemma realloc_keeps (junk : ascii) (line : option (list ascii)) (n : Z) (k : nat) :
  (k <= length (default [] line))%nat -> Z.of_nat k <= n ->
  take k (realloc junk line n) = take k (default [] line).
Proof.
  intros Hk Hn. unfold realloc. rewrite take_take.
  replace (k `min` Z.to_nat n)%nat with k by lia.
  rewrite take_app_le by lia. reflexivity.
Qed.

(** After the block has grown, there is room for one more byte. *)
Lemma linenoiseNoTTY_grow_room (realloc_ok : Z -> bool) (junk : ascii)
    (line : option (list ascii)) (done : list ascii) (maxlen : Z) :
  size (default [] line) = maxlen -> size done <= maxlen ->
  take (length done) (default [] line) = done -> size done < 2 ^ 62 ->
  (exists b, linenoiseNoTTY_grow realloc_ok junk line (size done) maxlen
             = Some (Some b, size b)
             /\ size done < size b /\ take (length done) b = done)
  \/ (linenoiseNoTTY_grow realloc_ok junk line (size done) maxlen = None
      /\ exists n, realloc_ok n = false).
Proof.
  intros Hsz Hlen Htake Hb. unfold linenoiseNoTTY_grow.
  pose proof (size_nonneg done) as Hd.
  destruct (Z.eqb_spec (size done) maxlen) as [E|E].
  - set (m := size_t ((if maxlen =? 0 then 16 else maxlen) * 2)).
    assert (0 < m /\ size done < m) as [Hm Hdm].
    { subst m. destruct (Z.eqb_spec maxlen 0); rewrite size_t_id by lia; lia. }
    destruct (realloc_ok m) eqn:Hok; [left|right; split; [reflexivity|exists m; exact Hok]].
    exists (realloc junk line m). rewrite realloc_size by lia.
    split; [reflexivity|]. split; [exact Hdm|].
    rewrite realloc_keeps; [exact Htake| |unfold size in Hdm; lia].
    unfold size in Hsz, E. lia.
  - left. destruct line as [b|].
    + change (size b = maxlen) in Hsz. change (take (length done) b = done) in Htake.
      exists b. rewrite Hsz. split; [reflexivity|]. split; [lia|exact Htake].
    + change (0 = maxlen) in Hsz. lia.
Qed.

(** A byte stored after the bytes read so far. *)
Lemma store_next (b done : list ascii) (c : ascii) :
  take (length done) b = done -> size done < size b ->
  exists b', store b (size done) c = Ok b'
    /\ size b' = size b
    /\ take (length done) b' = done
    /\ take (length (done ++ [c])) b' = done ++ [c]
    /\ load b' (size done) = Ok c.
Proof.
  intros Htake Hlt. pose proof (size_nonneg done).
  exists (<[length done := c]> b).
  assert (<[length done := c]> b !! length done = Some c) as Hget
    by (apply list_lookup_insert_eq; unfold size in Hlt; lia).
  split; [rewrite store_inside by lia; unfold size; rewrite Nat2Z.id; reflexivity|].
  split; [unfold size; rewrite length_insert; reflexivity|].
  split; [rewrite take_insert_ge by lia; exact Htake|].
  split.
  - rewrite length_app. cbn [length]. rewrite Nat.add_1_r.
    rewrite (take_S_r _ _ c) by exact Hget.
    rewrite take_insert_ge by lia. rewrite Htake. reflexivity.
  - apply load_inside; [lia|]. unfold size. rewrite Nat2Z.id. exact Hget.
Qed.

(** The loop keeps the bytes read so far at the start of the line, and
    the line inside its block. *)
Lemma linenoiseNoTTY_loop_reads (realloc_ok : Z -> bool) (junk : ascii) (s : list ascii) :
  (forall n, realloc_ok n = true) ->
  Forall (fun c => c <> NEWLINE) s ->
  forall (ending : option (list ascii)) (line : option (list ascii))
         (done : list ascii) (maxlen : Z),
    size (default [] line) = maxlen -> size done <= maxlen ->
    take (length done) (default [] line) = done ->
    size done + size s < 2 ^ 62 ->
    (ending = None -> done ++ s <> []) ->
    exists b,
      linenoiseNoTTY_loop realloc_ok junk
        (s ++ match ending with Some rest => NEWLINE :: rest | None => [] end)
        line (size done) maxlen
      = Ok (Some b, default [] ending)
      /\ take (length (done ++ s)) b = done ++ s
      /\ load b (size (done ++ s)) = Ok NUL.
Proof.
  intros Hok.
  induction 1 as [|c s Hc Hs IH]; intros ending line done maxlen Hsz Hlen Htake Hb Hne;
    pose proof (size_nonneg done) as Hd;
    (destruct (linenoiseNoTTY_grow_room realloc_ok junk line done maxlen)
      as [(b & Hgrow & Hroom & Hkeep)|(_ & n & Hn)];
      [assumption|assumption|assumption|unfold size in *; cbn [length] in *; lia
      | |rewrite Hok in Hn; discriminate]).
  - rewrite app_nil_r.
    destruct (store_next b done NUL Hkeep Hroom) as (b' & Hstore & _ & Htake' & _ & Hload).
    exists b'. split; [|split; assumption].
    destruct ending as [rest|]; cbn [app linenoiseNoTTY_loop default]; rewrite Hgrow.
    + change (Ascii.eqb NEWLINE NEWLINE) with true. cbv iota.
      cbn [store_at]. rewrite Hstore. reflexivity.
    + destruct (Z.eqb_spec (size done) 0) as [E|_].
      * destruct done; [|discriminate E]. exfalso. apply Hne; reflexivity.
      * cbn [store_at]. rewrite Hstore. reflexivity.
  - destruct (store_next b done c Hkeep Hroom) as (b' & Hstore & Hsize & _ & Htake' & _).
    assert (size (done ++ [c]) = size done + 1) as Hsz1
      by (unfold size; rewrite length_app; cbn [length]; lia).
    destruct (IH ending (Some b') (done ++ [c]) (size b)) as (r & Hrun & Hr1 & Hr2).
    + exact Hsize.
    + lia.
    + exact Htake'.
    + unfold size in *. cbn [length] in Hb. lia.
    + intros _. destruct done; discriminate.
    + exists r. rewrite <- app_assoc in Hr1, Hr2. cbn [app] in Hr1, Hr2.
      split; [|split; assumption].
      cbn [app linenoiseNoTTY_loop]. rewrite Hgrow.
      destruct (Ascii.eqb_spec c NEWLINE); [contradiction|].
      cbn [store_at]. rewrite Hstore. cbn [mbind result_bind].
      pose proof (size_nonneg (c :: s)).
      rewrite size_t_id by lia. rewrite <- Hsz1. exact Hrun.
Qed.

(** X20.  Without a terminal, [linenoiseNoTTY] returns the bytes before
    the first line feed, whatever their number, terminated, and leaves
    what follows the line feed in the input.  At the end of the input it
    returns what was read, and NULL if that is nothing. *)
Theorem linenoiseNoTTY_reads_a_line (junk : ascii) (s rest : list ascii) :
  Forall (fun c => c <> NEWLINE) s -> size s < 2 ^ 62 ->
  (exists b,
     linenoiseNoTTY (fun _ => true) junk (s ++ NEWLINE :: rest) = Ok (Some b, rest)
     /\ take (length s) b = s /\ load b (size s) = Ok NUL
     /\ (Forall (fun c => c <> NUL) s -> strdup b = Ok (string_of_list_ascii s)))
  /\ (s <> [] ->
      exists b,
        linenoiseNoTTY (fun _ => true) junk s = Ok (Some b, [])
        /\ take (length s) b = s /\ load b (size s) = Ok NUL)
  /\ linenoiseNoTTY (fun _ => true) junk [] = Ok (None, []).
Proof.
  intros Hs Hb. split; [|split; [|reflexivity]].
  - destruct (linenoiseNoTTY_loop_reads (fun _ => true) junk s (fun _ => eq_refl) Hs
                (Some rest) None [] 0)
      as (b & Hrun & Htake & Hload); try reflexivity; try discriminate.
    { change (size (@nil ascii)) with 0. lia. }
    exists b. cbn [app] in Htake, Hload.
    split; [exact Hrun|]. split; [exact Htake|]. split; [exact Hload|].
    intros Hnz. apply strdup_line; assumption.
  - intros Hne.
    destruct (linenoiseNoTTY_loop_reads (fun _ => true) junk s (fun _ => eq_refl) Hs
                None None [] 0)
      as (b & Hrun & Htake & Hload); try reflexivity.
    { change (size (@nil ascii)) with 0. lia. }
    { intros _. exact Hne. }
    exists b. cbn [app] in Htake, Hload. rewrite app_nil_r in Hrun.
    split; [exact Hrun|]. split; [exact Htake|exact Hload].
Qed.

Lemma linenoiseNoTTY_reads_a_line_witness :
  (exists b,
     linenoiseNoTTY (fun _ => true) "?"%char
       (list_ascii_of_string "ls -l" ++ NEWLINE :: list_ascii_of_string "pwd")
     = Ok (Some b, list_ascii_of_string "pwd")
     /\ take (length (list_ascii_of_string "ls -l")) b = list_ascii_of_string "ls -l"
     /\ load b (size (list_ascii_of_string "ls -l")) = Ok NUL
     /\ (Forall (fun c => c <> NUL) (list_ascii_of_string "ls -l") ->
         strdup b = Ok (string_of_list_ascii (list_ascii_of_string "ls -l"))))
  /\ (list_ascii_of_string "ls -l" <> [] ->
      exists b,
        linenoiseNoTTY (fun _ => true) "?"%char (list_ascii_of_string "ls -l")
        = Ok (Some b, [])
        /\ take (length (list_ascii_of_string "ls -l")) b = list_ascii_of_string "ls -l"
        /\ load b (size (list_ascii_of_string "ls -l")) = Ok NUL)
  /\ linenoiseNoTTY (fun _ => true) "?"%char [] = Ok (None, []).
Proof.
  apply (linenoiseNoTTY_reads_a_line "?"%char (list_ascii_of_string "ls -l")
           (list_ascii_of_string "pwd")).
  - repeat constructor; discriminate.
  - unfold size. simpl. lia.
Defined.

Lemma linenoiseNoTTY_loop_safe (realloc_ok : Z -> bool) (junk : ascii) (input : list ascii) :
  forall (line : option (list ascii)) (done : list ascii) (maxlen : Z),
    size (default [] line) = maxlen -> size done <= maxlen ->
    take (length done) (default [] line) = done ->
    size done + size input < 2 ^ 62 ->
    exists r rest,
      linenoiseNoTTY_loop realloc_ok junk input line (size done) maxlen = Ok (r, rest)
      /\ (r = None -> done ++ input = [] \/ exists n, realloc_ok n = false).
Proof.
  induction input as [|c input IH]; intros line done maxlen Hsz Hlen Htake Hb;
    pose proof (size_nonneg done) as Hd;
    (destruct (linenoiseNoTTY_grow_room realloc_ok junk line done maxlen)
      as [(b & Hgrow & Hroom & Hkeep)|(Hgrow & Hno)];
      [assumption|assumption|assumption|unfold size in *; cbn [length] in *; lia
      | |cbn [linenoiseNoTTY_loop]; rewrite Hgrow; eexists _, _; split;
          [reflexivity|intros _; right; exact Hno]]);
    cbn [linenoiseNoTTY_loop]; rewrite Hgrow.
  - destruct (Z.eqb_spec (size done) 0) as [E|_].
    + eexists _, _. split; [reflexivity|]. intros _. left.
      destruct done; [reflexivity|discriminate E].
    + destruct (store_next b done NUL Hkeep Hroom) as (b' & Hstore & _).
      cbn [store_at]. rewrite Hstore. eexists _, _. split; [reflexivity|discriminate].
  - destruct (Ascii.eqb c NEWLINE).
    + destruct (store_next b done NUL Hkeep Hroom) as (b' & Hstore & _).
      cbn [store_at]. rewrite Hstore. eexists _, _. split; [reflexivity|discriminate].
    + destruct (store_next b done c Hkeep Hroom) as (b' & Hstore & Hsize & _ & Htake' & _).
      assert (size (done ++ [c]) = size done + 1) as Hsz1
        by (unfold size; rewrite length_app; cbn [length]; lia).
      pose proof (size_nonneg (c :: input)).
      cbn [store_at]. rewrite Hstore. cbn [mbind result_bind].
      rewrite size_t_id by lia. rewrite <- Hsz1.
      destruct (IH (Some b') (done ++ [c]) (size b)) as (r & rest & Hrun & Hnull).
      * exact Hsize.
      * lia.
      * exact Htake'.
      * unfold size in *. cbn [length] in Hb. lia.
      * exists r, rest. split; [exact Hrun|].
        intros Hr. destruct (Hnull Hr) as [Hnil|Hno]; [|right; exact Hno].
        destruct done; discriminate Hnil.
Qed.

(** X21.  [linenoiseNoTTY] stays inside the block it allocates, whatever
    the input and whether or not the allocations succeed; it returns NULL
    only at the end of the input, with nothing read, or when an
    allocation has failed. *)
Theorem linenoiseNoTTY_stays_inside (realloc_ok : Z -> bool) (junk : ascii)
    (input : list ascii) :
  size input < 2 ^ 62 ->
  exists r rest,
    linenoiseNoTTY realloc_ok junk input = Ok (r, rest)
    /\ (r = None -> input = [] \/ exists n, realloc_ok n = false).
Proof.
  intros Hb.
  destruct (linenoiseNoTTY_loop_safe realloc_ok junk input None [] 0)
    as (r & rest & Hrun & Hnull); try reflexivity.
  { change (size (@nil ascii)) with 0. lia. }
  exists r, rest. split; [exact Hrun|exact Hnull].
Qed.

Lemma linenoiseNoTTY_stays_inside_witness :
  exists r rest,
    linenoiseNoTTY (fun n => n <? 64) "?"%char
      (replicate 40 "a"%char ++ [NEWLINE]) = Ok (r, rest)
    /\ (r = None -> replicate 40 "a"%char ++ [NEWLINE] = []
                    \/ exists n, (fun n => n <? 64) n = false).
Proof.
  apply (linenoiseNoTTY_stays_inside (fun n => n <? 64) "?"%char
           (replicate 40 "a"%char ++ [NEWLINE])).
  unfold size. simpl. lia.
Defined.

(** ** The main entry point *)

(** The loop that strips the end of the line stops at the last byte
    that is neither a line feed nor a carriage return. *)
Lemma linenoise_strip_trailing (s : list ascii) :
  last s <> Some NEWLINE -> last s <> Some CARRIAGE_RETURN ->
  forall trail,
    Forall (fun c => c = NEWLINE \/ c = CARRIAGE_RETURN) trail ->
    forall fuel b,
      (length trail < fuel)%nat -> take (length (s ++ trail)) b = s ++ trail ->
      size b < 2 ^ 63 ->
      exists b',
        linenoise_strip fuel b (size (s ++ trail)) = Ok b'
        /\ take (length s) b' = s /\ size b' = size b
        /\ (trail <> [] -> load b' (size s) = Ok NUL)
        /\ (trail = [] -> b' = b).
Proof.
  intros Hnl Hcr trail. induction trail as [|x trail IH] using rev_ind;
    intros Htrail fuel b Hfuel Htake Hsz; (destruct fuel as [|fuel]; [cbn [length] in Hfuel; lia|]).
  - rewrite app_nil_r in *. exists b. cbn [linenoise_strip].
    split; [|repeat split; try assumption; try reflexivity; contradiction].
    destruct (Z.eqb_spec (size s) 0) as [|Hne]; [reflexivity|].
    pose proof (size_nonneg s).
    assert (exists c, last s = Some c /\ b !! Z.to_nat (size s - 1) = Some c) as (c & Hlast & Hget).
    { rewrite last_lookup. unfold size in *.
      replace (Z.to_nat (Z.of_nat (length s) - 1)) with (pred (length s)) by lia.
      destruct (s !! pred (length s)) as [c|] eqn:E.
      - exists c. split; [reflexivity|].
        rewrite <- (lookup_take_lt b (length s)) by lia. rewrite Htake. exact E.
      - apply lookup_ge_None in E. lia. }
    rewrite (load_inside b _ c) by (lia || exact Hget). cbn [mbind result_bind].
    destruct (Ascii.eqb_spec c NEWLINE) as [->|_]; [contradiction|].
    destruct (Ascii.eqb_spec c CARRIAGE_RETURN) as [->|_]; [contradiction|].
    reflexivity.
  - apply Forall_app in Htrail as [Htrail Hx]. apply Forall_cons in Hx as [Hx _].
    pose proof (size_nonneg (s ++ trail)) as Hst.
    assert (size (s ++ trail ++ [x]) = size (s ++ trail) + 1) as Hsize
      by (unfold size; rewrite !length_app; cbn [length]; lia).
    assert (length (s ++ trail ++ [x]) = S (length (s ++ trail))) as Hlength
      by (rewrite !length_app; cbn [length]; lia).
    assert (size (s ++ trail) < size b) as Hin.
    { apply (f_equal length) in Htake. rewrite length_take in Htake.
      unfold size in *. lia. }
    assert (b !! length (s ++ trail) = Some x) as Hget.
    { rewrite <- (lookup_take_lt b (length (s ++ trail ++ [x]))) by lia.
      rewrite Htake, app_assoc. apply list_lookup_middle. reflexivity. }
    cbn [linenoise_strip]. rewrite Hsize.
    destruct (Z.eqb_spec (size (s ++ trail) + 1) 0); [lia|].
    replace (size (s ++ trail) + 1 - 1) with (size (s ++ trail)) by lia.
    rewrite (load_inside b _ x)
      by (lia || (unfold size; rewrite Nat2Z.id; exact Hget)).
    cbn [mbind result_bind].
    assert ((Ascii.eqb x NEWLINE || Ascii.eqb x CARRIAGE_RETURN) = true) as ->
      by (destruct Hx as [-> | ->]; reflexivity).
    rewrite size_t_id by lia. rewrite store_inside by lia. cbn [mbind result_bind].
    unfold size at 1. rewrite Nat2Z.id.
    destruct (IH Htrail fuel (<[length (s ++ trail) := NUL]> b)) as (b' & Hrun & Hs & Hsz' & Hterm & Hsame).
    + rewrite length_app in Hfuel. cbn [length] in Hfuel. lia.
    + rewrite take_insert_ge by lia.
      replace (take (length (s ++ trail)) b)
        with (take (length (s ++ trail)) (take (length (s ++ trail ++ [x])) b))
        by (rewrite take_take; f_equal; lia).
      rewrite Htake, app_assoc. apply take_app_length.
    + unfold size. rewrite length_insert. exact Hsz.
    + exists b'. split; [exact Hrun|]. split; [exact Hs|].
      split; [rewrite Hsz'; unfold size; rewrite length_insert; reflexivity|].
      split; [|intros E; destruct trail; discriminate E].
      intros _. destruct trail as [|y trail].
      * rewrite (Hsame eq_refl). rewrite app_nil_r. apply load_inside; [apply size_nonneg|].
        unfold size. rewrite Nat2Z.id. apply list_lookup_insert_eq.
        rewrite app_nil_r in Hin. unfold size in Hin. lia.
      * apply Hterm. discriminate.
Qed.

(** [fgets] on a line that fits. *)
Lemma fgets_line (b es rest : list ascii) (n : Z) :
  Forall (fun c => c <> NEWLINE) es -> size es + 2 <= n -> n <= size b ->
  exists b',
    fgets b n (es ++ NEWLINE :: rest) = Ok (Some b', rest)
    /\ size b' = size b
    /\ take (length (es ++ [NEWLINE])) b' = es ++ [NEWLINE]
    /\ load b' (size (es ++ [NEWLINE])) = Ok NUL.
Proof.
  intros Hes Hn Hb. pose proof (size_nonneg es) as Hes0. unfold fgets.
  rewrite fgets_read_line by (assumption || (unfold size in *; lia)).
  destruct (es ++ [NEWLINE]) as [|x r] eqn:Er; [destruct es; discriminate|].
  rewrite <- Er. clear x r Er.
  assert (size (es ++ [NEWLINE]) = size es + 1) as Hr
    by (unfold size; rewrite length_app; cbn [length]; lia).
  assert (size ((es ++ [NEWLINE]) ++ [NUL]) = size es + 2) as Hr'
    by (unfold size; rewrite !length_app; cbn [length]; lia).
  rewrite memcpy_inside by lia. cbn [mbind result_bind].
  change (Z.to_nat 0) with 0%nat. rewrite take_0. cbn [app].
  rewrite take_ge by (unfold size in *; lia).
  eexists. split; [reflexivity|].
  split; [unfold size in *; rewrite !length_app, length_drop in *; cbn [length] in *; lia|].
  split.
  - rewrite <- app_assoc. apply take_app_length.
  - apply load_inside; [lia|]. unfold size. rewrite Nat2Z.id.
    rewrite <- app_assoc. apply list_lookup_middle. reflexivity.
Qed.

(** X22.  On a terminal that cannot edit, [linenoise] reads a line with
    [fgets] and returns it without the line feed and the carriage
    returns at its end; at the end of the input it returns NULL.  The
    history is not touched. *)
Theorem linenoise_on_a_dumb_terminal (enc : encoding) (mlmode : bool) (junk : ascii)
    (env : environment) (h : historyState) (s crs rest : list ascii) :
  isatty env = true -> isUnsupportedTerm (TERM env) = 1 ->
  Forall (fun c => c <> NUL /\ c <> NEWLINE) s ->
  last s <> Some CARRIAGE_RETURN -> Forall (fun c => c = CARRIAGE_RETURN) crs ->
  size s + size crs + 2 <= LINENOISE_MAX_LINE ->
  linenoise enc mlmode junk env h (s ++ crs ++ NEWLINE :: rest)
  = Ok (Some (s ++ [NUL]), h, rest)
  /\ linenoise enc mlmode junk env h [] = Ok (None, h, []).
Proof.
  intros Htty Hterm Hs Hlast Hcrs Hfit. unfold linenoise.
  rewrite Htty, Hterm. change (negb (1 =? 0)) with true. cbn [negb]. cbv iota.
  set (b := replicate (Z.to_nat LINENOISE_MAX_LINE) junk).
  assert (size b = LINENOISE_MAX_LINE) as Hb
    by (subst b; unfold size; rewrite length_replicate; unfold LINENOISE_MAX_LINE; lia).
  split.
  2:{ unfold fgets, LINENOISE_MAX_LINE.
      change (Z.to_nat (4096 - 1)) with (S (Z.to_nat 4094)). reflexivity. }
  pose proof (size_nonneg s) as Hs0. pose proof (size_nonneg crs) as Hc0.
  assert (size (s ++ crs) = size s + size crs) as Hsc
    by (unfold size; rewrite length_app; lia).
  assert (Forall (fun c => c <> NUL /\ c <> NEWLINE) (s ++ crs)) as Hes.
  { apply Forall_app. split; [exact Hs|].
    eapply Forall_impl; [exact Hcrs|]. intros c ->. split; discriminate. }
  destruct (fgets_line b (s ++ crs) rest LINENOISE_MAX_LINE)
    as (b1 & Hgets & Hsz1 & Htake1 & Hterm1); [|lia|lia|].
  { eapply Forall_impl; [exact Hes|]. cbn. tauto. }
  rewrite app_assoc, Hgets. cbn [mbind result_bind].
  rewrite (strlen_line b1 ((s ++ crs) ++ [NEWLINE])); [|exact Htake1|exact Hterm1|].
  2:{ apply Forall_app. split; [eapply Forall_impl; [exact Hes|]; cbn; tauto|].
      repeat constructor. discriminate. }
  cbn [mbind result_bind].
  destruct (linenoise_strip_trailing s) with (trail := crs ++ [NEWLINE])
      (fuel := fuel_of (size ((s ++ crs) ++ [NEWLINE]))) (b := b1)
    as (b2 & Hstrip & Htake2 & _ & Hterm2 & _).
  - destruct s as [|x s] using rev_ind; [discriminate|].
    rewrite last_snoc. apply Forall_app in Hs as [_ Hx].
    apply Forall_cons in Hx as [[_ Hx] _]. congruence.
  - exact Hlast.
  - apply Forall_app. split; [eapply Forall_impl; [exact Hcrs|]; cbn; tauto|].
    repeat constructor.
  - unfold fuel_of, size. rewrite Nat2Z.id, !length_app. cbn [length]. lia.
  - rewrite app_assoc. exact Htake1.
  - unfold LINENOISE_MAX_LINE in *. lia.
  - rewrite app_assoc in Hstrip. rewrite Hstrip. cbn [mbind result_bind].
    unfold strdup_block. rewrite (strdup_line b2 s); [| exact Htake2 | |].
    + cbn [mbind result_bind]. rewrite list_ascii_of_string_of_list_ascii. reflexivity.
    + apply Hterm2. destruct crs; discriminate.
    + eapply Forall_impl; [exact Hs|]. cbn. tauto.
Qed.

Lemma linenoise_on_a_dumb_terminal_witness :
  let env := mkEnvironment true (Some "Emacs"%string) true true (fun _ => true) in
  linenoise defaultEncoding false "?"%char env history_init
    (list_ascii_of_string "ls -l" ++ [CARRIAGE_RETURN] ++ NEWLINE :: list_ascii_of_string "pwd")
  = Ok (Some (list_ascii_of_string "ls -l" ++ [NUL]), history_init, list_ascii_of_string "pwd")
  /\ linenoise defaultEncoding false "?"%char env history_init [] = Ok (None, history_init, []).
Proof.
  apply (linenoise_on_a_dumb_terminal defaultEncoding false "?"%char
           (mkEnvironment true (Some "Emacs"%string) true true (fun _ => true))
           history_init (list_ascii_of_string "ls -l") [CARRIAGE_RETURN]
           (list_ascii_of_string "pwd")).
  - reflexivity.
  - reflexivity.
  - repeat constructor; discriminate.
  - discriminate.
  - repeat constructor.
  - unfold size, LINENOISE_MAX_LINE. simpl. lia.
Defined.

Lemma strcasecmp_lowercase (s1 : string) :
  c_string s1 ->
  forall s2, c_string s2 -> strcasecmp s1 s2 = 0 <-> lowercase s1 = lowercase s2.
Proof.
  unfold c_string.
  assert (forall c, c <> NUL -> Z.of_nat (nat_of_ascii (tolower c)) <> 0) as Hnz.
  { intros c Hc E. apply Hc, tolower_NUL.
    rewrite <- (ascii_nat_embedding (tolower c)).
    replace (nat_of_ascii (tolower c)) with 0%nat by lia. reflexivity. }
  induction s1 as [|c1 s1 IH]; intros H1 s2 H2; destruct s2 as [|c2 s2];
    cbn [strcasecmp lowercase list_ascii_of_string] in *.
  - split; reflexivity.
  - apply Forall_cons in H2 as [Hc _]. specialize (Hnz c2 Hc).
    split; [lia|discriminate].
  - apply Forall_cons in H1 as [Hc _]. specialize (Hnz c1 Hc).
    split; [lia|discriminate].
  - apply Forall_cons in H1 as [_ H1]. apply Forall_cons in H2 as [_ H2].
    destruct (Z.eqb_spec (Z.of_nat (nat_of_ascii (tolower c1))
                          - Z.of_nat (nat_of_ascii (tolower c2))) 0) as [E|E].
    + apply nat_of_ascii_eq in E. rewrite E. rewrite (IH H1 s2 H2).
      split; [intros ->; reflexivity|intros H; injection H; auto].
    + split; [contradiction|]. intros H. injection H as H _.
      exfalso. apply E, nat_of_ascii_eq. exact H.
Qed.

(** X23.  [isUnsupportedTerm] holds exactly when [TERM] is set to dumb,
    cons25 or emacs, in small or capital letters. *)
Theorem isUnsupportedTerm_ignores_case (term : string) :
  c_string term ->
  (isUnsupportedTerm (Some term) = 1 <-> In (lowercase term) unsupported_term)
  /\ (isUnsupportedTerm (Some term) = 0 <-> ~ In (lowercase term) unsupported_term)
  /\ isUnsupportedTerm None = 0.
Proof.
  intros Hterm.
  assert (forall t, In t unsupported_term -> c_string t /\ lowercase t = t) as Hlist.
  { intros t [<-|[<-|[<-|[]]]]; (split; [repeat constructor; discriminate|reflexivity]). }
  assert (forall terms, (forall t, In t terms -> c_string t /\ lowercase t = t) ->
            (isUnsupportedTerm_loop term terms = 1 /\ In (lowercase term) terms)
            \/ (isUnsupportedTerm_loop term terms = 0 /\ ~ In (lowercase term) terms)) as Hloop.
  { induction terms as [|t terms IH]; intros Hts; cbn [isUnsupportedTerm_loop].
    - right. split; [reflexivity|intros []].
    - destruct (Hts t (or_introl eq_refl)) as [Ht Hlow].
      destruct (Z.eqb_spec (strcasecmp term t) 0) as [E|E].
      + left. split; [reflexivity|]. left.
        apply (strcasecmp_lowercase term Hterm t Ht) in E. congruence.
      + destruct IH as [[H1 H2]|[H1 H2]]; [intros; apply Hts; right; assumption| |].
        * left. split; [exact H1|right; exact H2].
        * right. split; [exact H1|]. intros [Heq|Hin]; [|contradiction].
          apply E, (strcasecmp_lowercase term Hterm t Ht). congruence. }
  cbn [isUnsupportedTerm].
  destruct (Hloop unsupported_term Hlist) as [[H1 H2]|[H1 H2]]; rewrite H1;
    (split; [|split; [|reflexivity]]); split; intros; try assumption; try reflexivity;
    try discriminate; contradiction.
Qed.

Lemma isUnsupportedTerm_ignores_case_witness :
  (isUnsupportedTerm (Some "Emacs"%string) = 1
   <-> In (lowercase "Emacs"%string) unsupported_term)
  /\ (isUnsupportedTerm (Some "Emacs"%string) = 0
      <-> ~ In (lowercase "Emacs"%string) unsupported_term)
  /\ isUnsupportedTerm None = 0.
Proof.
  apply (isUnsupportedTerm_ignores_case "Emacs"%string).
  repeat constructor; discriminate.
Defined.



(** ** Completion *)

(** TAB goes round the completions and the line itself. *)
Lemma completeLine_shows (lc : linenoiseCompletions) (i : Z) :
  lc_len lc = size (cvec lc) -> 0 <= i ->
  exists e, (if i <? lc_len lc then load (cvec lc) i else Ok EmptyString) = Ok e.
Proof.
  intros Hlen Hi. destruct (Z.ltb_spec i (lc_len lc)); [|eauto].
  apply load_is_Ok. lia.
Qed.

Lemma completeLine_loop_tabs (lc : linenoiseCompletions) (l : linenoiseState)
    (input : list ascii) (fuel : nat) :
  lc_len lc = size (cvec lc) -> 0 <= lc_len lc < 2 ^ 63 ->
  forall (k : nat) (i : Z),
    0 <= i <= lc_len lc ->
    completeLine_loop (k + fuel) lc l i (replicate k (key TAB) ++ input)
    = completeLine_loop fuel lc l ((i + Z.of_nat k) mod (lc_len lc + 1)) input.
Proof.
  intros Hlen Hn. induction k as [|k IH]; intros i Hi.
  - cbn [replicate app Nat.add]. rewrite Z.add_0_r, Z.mod_small by lia. reflexivity.
  - cbn [replicate app Nat.add completeLine_loop defaultReadCode].
    destruct (completeLine_shows lc i Hlen ltac:(lia)) as [e0 ->]. cbn [mbind result_bind].
    change (1 <=? 0) with false. change (char_to_int (key TAB) =? TAB) with true. cbv iota.
    rewrite (size_t_id (i + 1)), (size_t_id (lc_len lc + 1)) by lia.
    pose proof (Z.mod_pos_bound (i + 1) (lc_len lc + 1) ltac:(lia)).
    rewrite IH by lia. f_equal.
    rewrite Zplus_mod_idemp_l. f_equal. lia.
Qed.

Lemma snprintf_s_writes (b : list ascii) (n : Z) (e : string) :
  0 < n <= size b -> size (list_ascii_of_string e) < 2 ^ 31 ->
  let cut := Z.min (size (list_ascii_of_string e)) (n - 1) in
  exists b',
    snprintf_s b n e = Ok (b', size (list_ascii_of_string e))
    /\ size b' = size b
    /\ take (Z.to_nat cut) b' = take (Z.to_nat cut) (list_ascii_of_string e)
    /\ load b' cut = Ok NUL.
Proof.
  intros Hn He cut. set (es := list_ascii_of_string e) in *.
  pose proof (size_nonneg es) as Hes. unfold snprintf_s. fold es. fold cut.
  destruct (Z.eqb_spec n 0); [lia|].
  rewrite memcpy_inside by lia. cbn [mbind result_bind].
  change (Z.to_nat 0) with 0%nat. rewrite take_0. cbn [app]. rewrite Z.add_0_l.
  assert (length (take (Z.to_nat cut) es) = Z.to_nat cut) as Hlen
    by (rewrite length_take; unfold size in *; lia).
  rewrite store_inside
    by (unfold size in *; rewrite length_app, Hlen, length_drop; lia).
  cbn [mbind result_bind]. rewrite int_id by lia.
  eexists. split; [reflexivity|].
  split; [unfold size in *; rewrite length_insert, length_app, Hlen, length_drop; lia|].
  split.
  - rewrite take_insert_ge by lia. rewrite take_app_length' by (symmetry; exact Hlen).
    reflexivity.
  - apply load_inside; [lia|]. apply list_lookup_insert_eq.
    unfold size in *. rewrite length_app, Hlen, length_drop. lia.
Qed.



(** ** Key codes *)

(** One turn of the loop on a key: the window of the last four bytes
    moves by one. *)
Lemma linenoisePrintKeyCodes_loop_key (fuel : nat) (a b c d x : ascii)
    (input out : list ascii) :
  linenoisePrintKeyCodes_loop (S fuel) [a; b; c; d] (x :: input) out
  = if starts_with_bytes (list_ascii_of_string "quit") [b; c; d; x]
    then Ok (out, input)
    else linenoisePrintKeyCodes_loop fuel [b; c; d; x] input (out ++ key_code_line x).
Proof.
  cbn [linenoisePrintKeyCodes_loop].
  change (memmove [a; b; c; d] 0 1 3) with (Ok [b; c; d; d]).
  cbn [mbind result_bind].
  change (store [b; c; d; d] 3 x) with (Ok [b; c; d; x]).
  cbn [mbind result_bind].
  change (memcmp_eq [b; c; d; x] (list_ascii_of_string "quit") 4)
    with (Ok (bytes_eqb [b; c; d; x] (list_ascii_of_string "quit"))).
  cbn [mbind result_bind bytes_eqb starts_with_bytes list_ascii_of_string].
  rewrite (Ascii.eqb_sym b), (Ascii.eqb_sym c), (Ascii.eqb_sym d), (Ascii.eqb_sym x).
  rewrite !andb_true_r. reflexivity.
Qed.

Lemma has_quit_cons (x : ascii) (l : list ascii) :
  has_quit (x :: l) = false ->
  starts_with_bytes (list_ascii_of_string "quit") (x :: l) = false /\ has_quit l = false.
Proof.
  intros H. change (has_quit (x :: l))
    with (starts_with_bytes (list_ascii_of_string "quit") (x :: l) || has_quit l) in H.
  apply orb_false_elim in H. exact H.
Qed.

(** The window does not hold [quit] when the bytes it ends do not. *)
Lemma window_without_quit (a b c d x : ascii) (l : list ascii) :
  has_quit ([a; b; c; d] ++ x :: l) = false ->
  starts_with_bytes (list_ascii_of_string "quit") [b; c; d; x] = false
  /\ has_quit ([b; c; d; x] ++ l) = false.
Proof.
  intros H. cbn [app] in H. apply has_quit_cons in H as [_ H]. split; [|exact H].
  apply has_quit_cons in H as [H _].
  cbn [starts_with_bytes list_ascii_of_string] in *. exact H.
Qed.

(** Without the four bytes in the input, the loop goes on for ever. *)
Lemma linenoisePrintKeyCodes_loop_spins (fuel : nat) :
  forall (a b c d : ascii) (input out : list ascii),
    has_quit ([a; b; c; d] ++ input) = false ->
    linenoisePrintKeyCodes_loop fuel [a; b; c; d] input out = OutOfFuel.
Proof.
  induction fuel as [|fuel IH]; intros a b c d input out H; [reflexivity|].
  destruct input as [|x input].
  - cbn [linenoisePrintKeyCodes_loop]. apply IH. exact H.
  - rewrite linenoisePrintKeyCodes_loop_key.
    apply window_without_quit in H as [-> H]. apply IH. exact H.
Qed.

(** With them, it stops after the first time they come. *)
Lemma linenoisePrintKeyCodes_loop_stops (rest : list ascii) (pre : list ascii) :
  forall (a b c d : ascii) (out : list ascii) (fuel : nat),
    has_quit ([a; b; c; d] ++ pre ++ list_ascii_of_string "qui") = false ->
    (length pre + 4 <= fuel)%nat ->
    linenoisePrintKeyCodes_loop fuel [a; b; c; d]
      (pre ++ list_ascii_of_string "quit" ++ rest) out
    = Ok (out ++ concat (key_code_line <$> pre ++ list_ascii_of_string "qui"), rest).
Proof.
  induction pre as [|x pre IH]; intros a b c d out fuel H Hfuel.
  - do 4 (destruct fuel as [|fuel]; [cbn [length] in Hfuel; lia|]).
    cbn [app list_ascii_of_string].
    rewrite !linenoisePrintKeyCodes_loop_key.
    cbn [starts_with_bytes list_ascii_of_string].
    change (Ascii.eqb "t" "q") with false. change (Ascii.eqb "i" "q") with false.
    change (Ascii.eqb "u" "q") with false.
    rewrite !andb_false_r. cbn [fmap list_fmap concat].
    rewrite !Ascii.eqb_refl. cbn [andb]. rewrite app_nil_r, <- !app_assoc. reflexivity.
  - destruct fuel as [|fuel]; [cbn [length] in Hfuel; lia|].
    cbn [app]. rewrite linenoisePrintKeyCodes_loop_key.
    cbn [app] in H. apply (window_without_quit a b c d x) in H as [-> H].
    rewrite IH by (exact H || (cbn [length] in Hfuel; lia)).
    cbn [fmap list_fmap concat app]. rewrite <- app_assoc. reflexivity.
Qed.

(** X26.  [linenoisePrintKeyCodes] prints a line for every key until the
    bytes q, u, i, t have come in a row, and returns then, leaving what
    follows in the input.  When the input ends before that, it does not
    return: it reads the end of the input again and again. *)
Theorem linenoisePrintKeyCodes_stops_at_quit (env : environment) (pre rest : list ascii) :
  enableRawMode env = 0 ->
  has_quit (pre ++ list_ascii_of_string "qui") = false ->
  (forall fuel,
     (length pre + 4 <= fuel)%nat ->
     linenoisePrintKeyCodes env fuel (pre ++ list_ascii_of_string "quit" ++ rest)
     = Ok (key_codes_banner
           ++ concat (key_code_line <$> pre ++ list_ascii_of_string "qui"), rest))
  /\ (forall fuel input,
        has_quit input = false -> linenoisePrintKeyCodes env fuel input = OutOfFuel).
Proof.
  intros Hraw Hpre. unfold linenoisePrintKeyCodes. rewrite Hraw.
  change (0 =? -1) with false. cbv iota zeta.
  change (replicate 4 " "%char) with [" "; " "; " "; " "]%char.
  split.
  - intros fuel Hfuel. apply linenoisePrintKeyCodes_loop_stops; [|exact Hfuel].
    exact Hpre.
  - intros fuel input Hno. apply linenoisePrintKeyCodes_loop_spins. exact Hno.
Qed.

Lemma linenoisePrintKeyCodes_stops_at_quit_witness :
  let env := mkEnvironment true (Some "xterm"%string) true true (fun _ => true) in
  (forall fuel,
     (length (list_ascii_of_string "aq") + 4 <= fuel)%nat ->
     linenoisePrintKeyCodes env fuel
       (list_ascii_of_string "aq" ++ list_ascii_of_string "quit" ++ list_ascii_of_string "z")
     = Ok (key_codes_banner
           ++ concat (key_code_line <$> list_ascii_of_string "aq" ++ list_ascii_of_string "qui"),
           list_ascii_of_string "z"))
  /\ (forall fuel input,
        has_quit input = false -> linenoisePrintKeyCodes env fuel input = OutOfFuel).
Proof.
  apply (linenoisePrintKeyCodes_stops_at_quit
           (mkEnvironment true (Some "xterm"%string) true true (fun _ => true))
           (list_ascii_of_string "aq") (list_ascii_of_string "z")).
  - reflexivity.
  - reflexivity.
Defined.

(** ** Sessions that stay inside the buffer *)

Lemma apply_op_terminator (o : edit_op) (l l' : linenoiseState) :
  terminator l = Ok NUL -> apply_op defaultEncoding o l = Ok l' ->
  terminator l' = Ok NUL.
Proof.
  intros Ht. destruct o; cbn [apply_op]; intros H.
  - inv_bind H. destruct x as [l1 r]. injection H as <-.
    exact (linenoiseEditInsert_terminator _ _ _ _ _ _ Ht Hx).
  - exact (linenoiseEditDelete_terminator _ _ _ Ht H).
  - exact (linenoiseEditBackspace_terminator _ _ _ Ht H).
  - injection H as <-. unfold linenoiseEditMoveLeft. destruct (_ <? _); exact Ht.
  - injection H as <-. unfold linenoiseEditMoveRight. destruct (negb _); exact Ht.
  - injection H as <-. unfold linenoiseEditMoveHome. destruct (negb _); exact Ht.
  - injection H as <-. unfold linenoiseEditMoveEnd. destruct (negb _); exact Ht.
  - unfold linenoiseEditMoveWordStart in H.
    destruct (_ =? _); [injection H as <-; exact Ht|]. inv_bind H. injection H as <-. exact Ht.
  - unfold linenoiseEditMoveWordEnd in H.
    destruct (_ || _); [injection H as <-; exact Ht|]. inv_bind H. injection H as <-. exact Ht.
Qed.

Lemma apply_ops_safe (os : list edit_op) :
  Forall op_ok os -> Forall (fun o => o <> MoveWordStart) os ->
  forall l, state_ok l -> terminator l = Ok NUL ->
    exists l', apply_ops defaultEncoding os l = Ok l'
      /\ state_ok l' /\ capacity l' = capacity l /\ terminator l' = Ok NUL.
Proof.
  induction os as [|o os IH]; intros Hos Hno l Hok Ht.
  - exists l. auto.
  - apply Forall_cons in Hos as [Ho Hos]. apply Forall_cons in Hno as [Hn Hno].
    destruct (apply_op_defined o l Hok Ho) as [l1 H1]; [intros ->; contradiction|].
    destruct (apply_op_ok o l l1 Hok Ho H1) as [Hok1 Hcap1].
    pose proof (apply_op_terminator o l l1 Ht H1) as Ht1.
    destruct (IH Hos Hno l1 Hok1 Ht1) as (l' & Hrun & Hok' & Hcap' & Ht').
    exists l'. cbn [apply_ops]. rewrite H1. cbn [mbind result_bind].
    split; [exact Hrun|]. split; [exact Hok'|]. split; [congruence|exact Ht'].
Qed.

(** X27.  A session that starts empty and in which bytes are inserted
    and deleted and the cursor is moved, by characters, to the ends of
    the line or to the end of a word, stays inside its buffer: every
    operation is carried out, the cursor stays in the line, the line
    stays shorter than the buffer and ends with its terminator. *)
Theorem session_stays_inside_the_buffer (b : list ascii) (os : list edit_op) :
  0 < size b < 2 ^ 63 -> Forall op_ok os ->
  Forall (fun o => o <> MoveWordStart) os ->
  exists l',
    (l ← session_start b; apply_ops defaultEncoding os l) = Ok l'
    /\ cursor_length_capacity (size b) l'
    /\ size b <= size (buf l')
    /\ terminator l' = Ok NUL.
Proof.
  intros Hb Hos Hno.
  destruct (session_start_ok b Hb) as (l & Hl & Hok & Hcap).
  assert (terminator l = Ok NUL) as Ht.
  { unfold session_start in Hl. inv_bind Hl. injection Hl as <-.
    unfold terminator. cbn [buf len]. exact (load_store_eq _ _ _ _ Hx). }
  destruct (apply_ops_safe os Hos Hno l Hok Ht) as (l' & Hrun & Hok' & Hcap' & Ht').
  exists l'. rewrite Hl. cbn [mbind result_bind].
  split; [exact Hrun|].
  destruct Hok' as (Hinv & Hsz & _). rewrite Hcap', Hcap in Hinv, Hsz.
  auto.
Qed.

Lemma session_stays_inside_the_buffer_witness :
  exists l',
    (l ← session_start (replicate 4 "?"%char);
     apply_ops defaultEncoding
       [Insert ["a"%char] 1; Insert ["b"%char] 1; MoveLeft; Insert ["c"%char] 1;
        Insert ["d"%char] 1; MoveHome; Delete; MoveWordEnd; Backspace] l) = Ok l'
    /\ cursor_length_capacity (size (replicate 4 "?"%char)) l'
    /\ size (replicate 4 "?"%char) <= size (buf l')
    /\ terminator l' = Ok NUL.
Proof.
  apply (session_stays_inside_the_buffer (replicate 4 "?"%char)).
  - unfold size. simpl. lia.
  - repeat constructor; unfold size; simpl; lia.
  - repeat constructor; discriminate.
Defined.

(** ** Escape sequences with a digit *)

(** X28.  After ESC [ and a digit, one more byte is read, and only
    ESC [ 3 ~, the Delete key, does anything: every other sequence of
    this form leaves the line, the cursor and the history as they were.
    So ESC [ 1 ~ and ESC [ 4 ~ do not move the cursor, and the cases for
    1 and 4 that stand for Home and End among the sequences without a
    digit are never reached. *)
Theorem escape_digit_sequences_do_nothing (enc : encoding) (mlmode : bool) (junk : ascii)
    (cbuf : list ascii) (nread : Z) (l : linenoiseState) (h : historyState)
    (d x : ascii) (rest : list ascii) :
  In d (list_ascii_of_string "0123456789") ->
  d <> "3"%char \/ x <> "~"%char ->
  dispatch enc mlmode junk ESC cbuf nread l h ("["%char :: d :: x :: rest)
  = Ok (Break, l, h, rest).
Proof.
  intros Hd Hnot. unfold dispatch.
  change (ESC =? LINE_FEED) with false. change (ESC =? ENTER) with false.
  change (ESC =? CTRL_C) with false. change (ESC =? BACKSPACE) with false.
  change (ESC =? 8) with false. change (ESC =? CTRL_D) with false.
  change (ESC =? CTRL_T) with false. change (ESC =? CTRL_B) with false.
  change (ESC =? CTRL_F) with false. change (ESC =? CTRL_P) with false.
  change (ESC =? CTRL_N) with false. change (ESC =? ESC) with true.
  cbn [orb]. cbv iota.
  unfold escape_sequence. cbn [read_seq].
  change (is_char "[" "[") with true. cbn [negb andb]. cbv iota.
  assert ((Z.of_nat (nat_of_ascii "0") <=? char_to_int d)
          && (char_to_int d <=? Z.of_nat (nat_of_ascii "9")) = true) as ->.
  { cbn [list_ascii_of_string In] in Hd.
    repeat (destruct Hd as [<-|Hd]; [reflexivity|]). contradiction. }
  unfold is_char.
  destruct (Ascii.eqb_spec x "~") as [->|_]; [|reflexivity].
  destruct (Ascii.eqb_spec d "3") as [->|_]; [|reflexivity].
  destruct Hnot as [Hnot|Hnot]; contradiction.
Qed.

Lemma escape_digit_sequences_do_nothing_witness :
  dispatch defaultEncoding false NUL ESC (key ESC :: replicate 31 NUL) 1
    (editing "hello" 16 3) (history_of 100 ["ls"%string])
    ("["%char :: "1"%char :: "~"%char :: [])
  = Ok (Break, editing "hello" 16 3, history_of 100 ["ls"%string], []).
Proof.
  apply (escape_digit_sequences_do_nothing defaultEncoding false NUL
           (key ESC :: replicate 31 NUL) 1 (editing "hello" 16 3)
           (history_of 100 ["ls"%string]) "1"%char "~"%char []).
  - cbn. tauto.
  - left. discriminate.
Defined.
